(** * oci-utils: network helpers

    A shallow embedding of [lib/oci_utils/impl/network_helpers.py] and the
    properties of its route-table registry editor, prefix/mask utility,
    namespace inspector and interface enumerator.

    Conventions of the embedding.
    - Python [str] and [bytes] objects are lists of 8-bit characters
      ([text]).  The inputs of interest (the registry file, MAC addresses,
      command output) are ASCII; on ASCII the character classes and case
      mappings below are CPython's.
    - Python [int] is [Z].
    - A Python function that may raise returns an [outcome]; a function
      that also touches the file system is a computation over a [world]. *)

From Stdlib Require Import ZArith String Ascii List Lia Bool.
From Stdlib Require Import DecimalString DecimalZ SpecFloat.
From stdpp Require Import base option list gmap strings.
Import ListNotations.

#[local] Open Scope Z_scope.
#[local] Open Scope list_scope.

(** ** Text *)

Abbreviation text := (list ascii).

Definition txt (s : string) : text := list_ascii_of_string s.

Definition TAB : ascii := ascii_of_nat 9.
Definition LF : ascii := ascii_of_nat 10.
Definition CR : ascii := ascii_of_nat 13.
Definition SP : ascii := ascii_of_nat 32.

(** ** Exceptions and results *)

Inductive exn : Type :=
| FileNotFoundError
| OSError
| ValueError
| KeyError
| IndexError
| TypeError
| AttributeError
| StructError
| CalledProcessError
| JSONDecodeError.

Inductive outcome (A : Type) : Type :=
| Return (a : A)
| Raise (e : exn).
Arguments Return {A} a.
Arguments Raise {A} e.

#[export] Instance outcome_bind : MBind outcome := fun A B k m =>
  match m with
  | Return a => k a
  | Raise e => Raise e
  end.

(** ** Decimal rendering: the ['%d'] conversion *)

Definition fmt_d (z : Z) : text :=
  txt (NilZero.string_of_int (Z.to_int z)).

(** ** network_prefix_to_mask *)

(** [struct.pack('>I', bits)]: four big-endian bytes; [struct.error]
    when [bits] is not an unsigned 32-bit value. *)
Definition pack_be_I (bits : Z) : outcome (list Z) :=
  if (0 <=? bits) && (bits <=? 0xffffffff) then
    Return [ Z.land (Z.shiftr bits 24) 255;
             Z.land (Z.shiftr bits 16) 255;
             Z.land (Z.shiftr bits 8) 255;
             Z.land bits 255 ]
  else Raise StructError.

Definition dotted (octets : list Z) : text :=
  match octets with
  | [a; b; c; d] =>
      fmt_d a ++ txt "." ++ fmt_d b ++ txt "." ++ fmt_d c ++ txt "." ++ fmt_d d
  | _ => []
  end.

(** [socket.inet_ntoa]: dotted-quad rendering of a packed address;
    [OSError] unless the packed string is exactly four bytes long. *)
Definition inet_ntoa (packed : list Z) : outcome text :=
  match packed with
  | [_; _; _; _] => Return (dotted packed)
  | _ => Raise OSError
  end.

(** Python's [1 << n]: [ValueError] on a negative shift count. *)
Definition py_shiftl (a n : Z) : outcome Z :=
  if n <? 0 then Raise ValueError else Return (Z.shiftl a n).

(** [bits = 0xffffffff ^ (1 << 32 - prefix) - 1]: [-] binds tighter
    than [<<], which binds tighter than [^]. *)
Definition network_prefix_to_mask (prefix : Z) : outcome text :=
  sh ← py_shiftl 1 (32 - prefix);
  let bits := Z.lxor 0xffffffff (sh - 1) in
  packed ← pack_be_I bits;
  inet_ntoa packed.

(** The canonical netmask of a prefix length, from the words of the
    specification: all-ones XOR (2^(32-prefix) - 1), and its big-endian
    rendering as four dot-separated octets. *)
Definition cidr_mask_value (prefix : Z) : Z :=
  Z.lxor (2 ^ 32 - 1) (2 ^ (32 - prefix) - 1).

Definition octet (v : Z) (k : Z) : Z := (v / 256 ^ (3 - k)) mod 256.

Definition render_be (v : Z) : text :=
  dotted [octet v 0; octet v 1; octet v 2; octet v 3].


(** ** Character classes and the string methods the module uses *)

(** Whitespace as [str.split()], [str.strip()] and [int()] see it. *)
Definition is_space (c : ascii) : bool :=
  let n := nat_of_ascii c in
  ((9 <=? n) && (n <=? 13) || (28 <=? n) && (n <=? 32))%nat.

(** [str.strip()]. *)
Fixpoint lstrip (s : text) : text :=
  match s with
  | [] => []
  | c :: s' => if is_space c then lstrip s' else s
  end.

Definition py_strip (s : text) : text := rev (lstrip (rev (lstrip s))).

(** [str.startswith]. *)
Fixpoint startswith (p s : text) : bool :=
  match p, s with
  | [], _ => true
  | _ :: _, [] => false
  | a :: p', b :: s' => bool_decide (a = b) && startswith p' s'
  end.

(** [str.split()] with no separator: the maximal runs of non-whitespace
    characters, in order; never an empty token. *)
Fixpoint py_split (s : text) : list text :=
  match s with
  | [] => []
  | c :: s' =>
      if is_space c then py_split s'
      else match s' with
           | [] => [[c]]
           | d :: _ =>
               if is_space d then [c] :: py_split s'
               else match py_split s' with
                    | t :: ts => (c :: t) :: ts
                    | [] => [[c]]
                    end
           end
  end.

(** Text-mode reading translates ["\r\n"] and a lone ["\r"] to ["\n"]
    (universal newlines). *)
Fixpoint universal_newlines (s : text) : text :=
  match s with
  | [] => []
  | c :: s' =>
      if bool_decide (c = CR) then
        match s' with
        | d :: s'' =>
            if bool_decide (d = LF) then LF :: universal_newlines s''
            else LF :: universal_newlines s'
        | [] => [LF]
        end
      else c :: universal_newlines s'
  end.

(** Splitting at ["\n"], each line keeping its terminator. *)
Fixpoint split_keepends (s : text) : list text :=
  match s with
  | [] => []
  | c :: s' =>
      if bool_decide (c = LF) then [c] :: split_keepends s'
      else match split_keepends s' with
           | l :: ls => (c :: l) :: ls
           | [] => [[c]]
           end
  end.

(** [f.readlines()] on a file opened in text mode. *)
Definition readlines (content : text) : list text :=
  split_keepends (universal_newlines content).

(** ** [int()] on a string *)

Definition digit_of (c : ascii) : option (Decimal.uint -> Decimal.uint) :=
  match nat_of_ascii c with
  | 48%nat => Some Decimal.D0 | 49%nat => Some Decimal.D1
  | 50%nat => Some Decimal.D2 | 51%nat => Some Decimal.D3
  | 52%nat => Some Decimal.D4 | 53%nat => Some Decimal.D5
  | 54%nat => Some Decimal.D6 | 55%nat => Some Decimal.D7
  | 56%nat => Some Decimal.D8 | 57%nat => Some Decimal.D9
  | _ => None
  end.

Definition UNDERSCORE : ascii := ascii_of_nat 95.
Definition PLUS : ascii := ascii_of_nat 43.
Definition MINUS : ascii := ascii_of_nat 45.
Definition HASH : ascii := ascii_of_nat 35.

(** Decimal digits, with single underscores allowed between digits.
    [after_digit] tells whether the previous character was a digit. *)
Fixpoint parse_digits (after_digit : bool) (s : text) : option Decimal.uint :=
  match s with
  | [] => if after_digit then Some Decimal.Nil else None
  | c :: s' =>
      if bool_decide (c = UNDERSCORE) then
        if after_digit then parse_digits false s' else None
      else
        match digit_of c with
        | Some d => d <$> parse_digits true s'
        | None => None
        end
  end.

(** [int(s)] in base ten: surrounding whitespace is ignored, one optional
    sign, then the digits; [ValueError] otherwise. *)
Definition py_int (s : text) : outcome Z :=
  let body := py_strip s in
  let parsed :=
    match body with
    | c :: ds =>
        if bool_decide (c = MINUS) then Decimal.Neg <$> parse_digits false ds
        else if bool_decide (c = PLUS) then Decimal.Pos <$> parse_digits false ds
        else Decimal.Pos <$> parse_digits false body
    | [] => None
    end in
  match parsed with
  | Some d => Return (Z.of_int d)
  | None => Raise ValueError
  end.

(** ** The file system and the privileged helpers *)

(** What one copy or write of [sudo_utils] does, as supplied by the
    environment: its exit status and, when the status is not zero, the
    state in which the target path is left ([None]: no file there). *)
Record attempt : Type := Attempt { rc : Z; residue : option text }.

Definition succeeds : attempt := Attempt 0 None.

Inductive sudo_op : Type :=
| CopyFile (src dst : string)
| WriteToFile (path : string) (content : text)
| DeleteFile (path : string).

(** The files by path, the outcomes of the copies and writes still to
    come (one beyond the list succeeds), and the helper calls made so
    far. *)
Record world : Type := World {
  files : gmap string text;
  pending : list attempt;
  journal : list sudo_op
}.

Definition io (A : Type) : Type := world -> outcome A * world.

#[export] Instance io_ret : MRet io := fun A a w => (Return a, w).
#[export] Instance io_bind : MBind io := fun A B k m w =>
  match m w with
  | (Return a, w') => k a w'
  | (Raise e, w') => (Raise e, w')
  end.

Definition lift {A} (m : outcome A) : io A := fun w => (m, w).

Definition next_attempt (w : world) : attempt * list attempt :=
  match pending w with
  | a :: rest => (a, rest)
  | [] => (succeeds, [])
  end.

Definition leave (path : string) (r : option text)
    (fs : gmap string text) : gmap string text :=
  match r with
  | Some c => <[path := c]> fs
  | None => delete path fs
  end.

(** Modelled from the spec: [sudo_utils.copy_file(src, dst)], which is
    not part of this module.  It returns the exit status of a privileged
    copy: zero when [dst] now holds the content of [src], non-zero
    otherwise (the module tests it against zero at lines 363 and 400).
    The source file is never modified. *)
Definition copy_file (src dst : string) : io Z := fun w =>
  let '(a, rest) := next_attempt w in
  let log := journal w ++ [CopyFile src dst] in
  match files w !! src with
  | Some c =>
      if rc a =? 0 then (Return 0, World (<[dst := c]> (files w)) rest log)
      else (Return (rc a), World (leave dst (residue a) (files w)) rest log)
  | None =>
      (Return (if rc a =? 0 then 1 else rc a), World (files w) rest log)
  end.

(** Modelled from the spec: [sudo_utils.write_to_file(path, content)],
    returning zero when [path] now holds [content] (tested against zero
    at lines 366 and 403). *)
Definition write_to_file (path : string) (content : text) : io Z := fun w =>
  let '(a, rest) := next_attempt w in
  let log := journal w ++ [WriteToFile path content] in
  if rc a =? 0 then (Return 0, World (<[path := content]> (files w)) rest log)
  else (Return (rc a), World (leave path (residue a) (files w)) rest log).

(** Modelled from the spec: [sudo_utils.delete_file(path)], of which the
    spec says that it deletes the backup.  The failures the spec knows
    for the registry editor are those of a copy and of a write, and the
    module never looks at what [delete_file] returns: here it takes no
    outcome from the environment and removes the file. *)
Definition delete_file (path : string) : io Z := fun w =>
  (Return 0, World (delete path (files w)) (pending w)
                   (journal w ++ [DeleteFile path])).

(** [open(path)] followed by [f.readlines()]. *)
Definition open_readlines (path : string) : io (list text) := fun w =>
  match files w !! path with
  | Some c => (Return (readlines c), w)
  | None => (Raise FileNotFoundError, w)
  end.

(** ** The route-table registry editor *)

Definition rt_tables : string := "/etc/iproute2/rt_tables".
Definition rt_tables_bck : string := "/etc/iproute2/rt_tables.bck".

(** The reading loop of [add_route_table]: every line is kept, and the
    first token of every line that is neither blank nor starts with [#]
    is converted with [int]. *)
Fixpoint scan_tables (lines : list text) : outcome (list text * list Z) :=
  match lines with
  | [] => Return ([], [])
  | line :: rest =>
      if (0 <? length (py_strip line))%nat && negb (startswith [HASH] line) then
        match py_split line with
        | tok :: _ =>
            n ← py_int tok;
            '(ls, ns) ← scan_tables rest;
            Return (line :: ls, n :: ns)
        | [] => Raise IndexError
        end
      else
        '(ls, ns) ← scan_tables rest;
        Return (line :: ls, ns)
  end.

(** [for n in range(255): if n not in tables_num: ... break], starting
    from [-1]. *)
Definition free_table_num (tables_num : list Z) : Z :=
  match List.find (fun n => bool_decide (n ∉ tables_num)) (seqZ 0 255) with
  | Some n => n
  | None => -1
  end.

(** ['%d\t%s\n' % (number, table_name)]. *)
Definition table_line (number : Z) (table_name : text) : text :=
  fmt_d number ++ [TAB] ++ table_name ++ [LF].

(** The backup, write, restore-or-delete steps both editors end with. *)
Definition commit_lines (_all_new_lines : list text) : io bool :=
  r ← copy_file rt_tables rt_tables_bck;
  if negb (r =? 0) then mret false
  else
    r ← write_to_file rt_tables (concat _all_new_lines);
    if negb (r =? 0) then
      _ ← copy_file rt_tables_bck rt_tables;
      mret false
    else
      _ ← delete_file rt_tables_bck;
      mret true.

Definition add_route_table (table_name : text) : io bool :=
  lines ← open_readlines rt_tables;
  '(_all_new_lines, tables_num) ← lift (scan_tables lines);
  let _new_table_num_to_use := free_table_num tables_num in
  commit_lines (_all_new_lines ++ [table_line _new_table_num_to_use table_name]).

(** The filter of [delete_route_table]: a line is skipped when it has at
    least two tokens and the second one is the table name. *)
Definition names_table (table_name : text) (line : text) : bool :=
  match py_split line with
  | _ :: t :: _ => bool_decide (t = table_name)
  | _ => false
  end.

Definition delete_route_table (table_name : text) : io bool :=
  _all_lines ← open_readlines rt_tables;
  let _all_new_lines :=
    List.filter (fun line => negb (names_table table_name line)) _all_lines in
  commit_lines _all_new_lines.

(** ** More string and bytes methods *)

(** Whitespace as [bytes.strip()] sees it. *)
Definition is_bspace (c : ascii) : bool :=
  let n := nat_of_ascii c in
  ((9 <=? n) && (n <=? 13) || (n =? 32))%nat.

Fixpoint blstrip (s : text) : text :=
  match s with
  | [] => []
  | c :: s' => if is_bspace c then blstrip s' else s
  end.

Definition bytes_strip (s : text) : text := rev (blstrip (rev (blstrip s))).

(** [bytes.splitlines()]: lines end at ["\n"], ["\r"] or ["\r\n"], and
    come without their terminator. *)
Fixpoint bytes_splitlines (s : text) : list text :=
  match s with
  | [] => []
  | c :: s' =>
      if bool_decide (c = LF) then [] :: bytes_splitlines s'
      else if bool_decide (c = CR) then
        match s' with
        | d :: s'' =>
            if bool_decide (d = LF) then [] :: bytes_splitlines s''
            else [] :: bytes_splitlines s'
        | [] => [[]]
        end
      else match bytes_splitlines s' with
           | l :: ls => (c :: l) :: ls
           | [] => [[c]]
           end
  end.

(** [x.split(sep)] with a one-character separator: never an empty list. *)
Fixpoint split_on (sep : ascii) (s : text) : list text :=
  match s with
  | [] => [[]]
  | c :: s' =>
      if bool_decide (c = sep) then [] :: split_on sep s'
      else match split_on sep s' with
           | l :: ls => (c :: l) :: ls
           | [] => [[c]]
           end
  end.

(** [needle in haystack] on strings. *)
Fixpoint is_infix (needle hay : text) : bool :=
  startswith needle hay ||
  match hay with
  | [] => false
  | _ :: hay' => is_infix needle hay'
  end.

(** [x[x.rfind('/') + 1:]]: what follows the last slash, or all of [x]. *)
Fixpoint after_last_slash (s : text) : text :=
  match s with
  | [] => []
  | c :: s' =>
      if existsb (fun d => bool_decide (d = "/"%char)) s' then after_last_slash s'
      else if bool_decide (c = "/"%char) then s' else s
  end.

(** ASCII case mappings. *)
Definition upper_char (c : ascii) : ascii :=
  let n := nat_of_ascii c in
  if ((97 <=? n) && (n <=? 122))%nat then ascii_of_nat (n - 32) else c.

Definition lower_char (c : ascii) : ascii :=
  let n := nat_of_ascii c in
  if ((65 <=? n) && (n <=? 90))%nat then ascii_of_nat (n + 32) else c.

Definition py_upper (s : text) : text := map upper_char s.
Definition py_lower (s : text) : text := map lower_char s.

Definition is_upper_char (c : ascii) : bool :=
  let n := nat_of_ascii c in ((65 <=? n) && (n <=? 90))%nat.
Definition is_lower_char (c : ascii) : bool :=
  let n := nat_of_ascii c in ((97 <=? n) && (n <=? 122))%nat.

(** A text is lowercase when it holds no uppercase letter, and uppercase
    when it holds no lowercase letter (a MAC address made of digits and
    colons only is both). *)
Definition lowercase (s : text) : Prop := Forall (fun c => is_upper_char c = false) s.
Definition uppercase (s : text) : Prop := Forall (fun c => is_lower_char c = false) s.

(** A [str] or a [bytes] object. *)
Inductive pystring : Type :=
| Str (s : text)
| Bytes (b : text).

Definition payload (x : pystring) : text :=
  match x with Str s => s | Bytes b => b end.

#[export] Instance pystring_eq_dec : EqDecision pystring.
Proof. solve_decision. Defined.

Definition hex_digit (n : nat) : ascii :=
  if (n <? 10)%nat then ascii_of_nat (48 + n) else ascii_of_nat (87 + n).

Definition BACKSLASH : ascii := ascii_of_nat 92.

(** One byte inside the [repr] of a bytes object quoted with [q]. *)
Definition repr_byte (q c : ascii) : text :=
  let n := nat_of_ascii c in
  if bool_decide (c = BACKSLASH) then [BACKSLASH; BACKSLASH]
  else if bool_decide (c = TAB) then [BACKSLASH; "t"%char]
  else if bool_decide (c = LF) then [BACKSLASH; "n"%char]
  else if bool_decide (c = CR) then [BACKSLASH; "r"%char]
  else if bool_decide (c = q) then [BACKSLASH; q]
  else if ((n <? 32) || (127 <=? n))%nat then
    [BACKSLASH; "x"%char; hex_digit (n / 16); hex_digit (n mod 16)]
  else [c].

Definition APOSTROPHE : ascii := ascii_of_nat 39.
Definition DQUOTE : ascii := ascii_of_nat 34.

(** [repr(b)] of a bytes object: [b'...'], or [b"..."] when the bytes
    hold an apostrophe and no double quote. *)
Definition bytes_repr (b : text) : text :=
  let q :=
    if existsb (fun c => bool_decide (c = APOSTROPHE)) b
       && negb (existsb (fun c => bool_decide (c = DQUOTE)) b)
    then DQUOTE else APOSTROPHE in
  "b"%char :: q :: concat (map (repr_byte q) b) ++ [q].

(** [str(x)]: the string itself, or the [repr] of a bytes object. *)
Definition py_str (x : pystring) : text :=
  match x with
  | Str s => s
  | Bytes b => bytes_repr b
  end.

(** ** Python values, as [json.loads] builds them *)

#[local] Set Warnings "-register-all".

Inductive pyval : Type :=
| PNone
| PBool (b : bool)
| PInt (z : Z)
| PFloat (f : spec_float)
| PStr (s : text)
| PBytes (b : text)
| PList (l : list pyval)
| PDict (d : list (text * pyval)).

Abbreviation pydict := (list (text * pyval)).

(** Dictionaries with string keys, in insertion order. *)
Fixpoint dict_get {A} (k : text) (d : list (text * A)) : option A :=
  match d with
  | [] => None
  | (k', v) :: d' => if bool_decide (k' = k) then Some v else dict_get k d'
  end.

(** [d[k] = v]: the value is replaced in place, a new key goes last. *)
Fixpoint dict_set {A} (k : text) (v : A) (d : list (text * A)) : list (text * A) :=
  match d with
  | [] => [(k, v)]
  | (k', v') :: d' =>
      if bool_decide (k' = k) then (k, v) :: d' else (k', v') :: dict_set k v d'
  end.

(** [d.update(e)]. *)
Definition dict_update (d e : pydict) : pydict :=
  fold_left (fun acc kv => dict_set kv.1 kv.2 acc) e d.

Definition py_truthy (v : pyval) : bool :=
  match v with
  | PNone => false
  | PBool b => b
  | PInt z => negb (z =? 0)
  | PFloat (S754_zero _) => false
  | PFloat _ => true
  | PStr s => negb (bool_decide (s = []))
  | PBytes b => negb (bool_decide (b = []))
  | PList l => match l with [] => false | _ => true end
  | PDict d => match d with [] => false | _ => true end
  end.

(** [v == s] for a string [s]. *)
Definition py_eq_str (v : pyval) (s : text) : bool :=
  match v with
  | PStr s' => bool_decide (s' = s)
  | _ => false
  end.

(** [s in v] for a string [s]. *)
Definition py_contains (s : text) (v : pyval) : outcome bool :=
  match v with
  | PDict d => Return (bool_decide (is_Some (dict_get s d)))
  | PList l => Return (existsb (fun x => py_eq_str x s) l)
  | PStr hay => Return (is_infix s hay)
  | _ => Raise TypeError
  end.

(** [v[s]] for a string [s]. *)
Definition py_getitem (v : pyval) (s : text) : outcome pyval :=
  match v with
  | PDict d => match dict_get s d with Some x => Return x | None => Raise KeyError end
  | _ => Raise TypeError
  end.

(** [v[0]]. *)
Definition py_first (v : pyval) : outcome pyval :=
  match v with
  | PList (x :: _) => Return x
  | PStr (c :: _) => Return (PStr [c])
  | PBytes (c :: _) => Return (PInt (Z.of_nat (nat_of_ascii c)))
  | PList [] | PStr [] | PBytes [] => Raise IndexError
  | PDict _ => Raise KeyError
  | _ => Raise TypeError
  end.

Definition py_len (v : pyval) : outcome nat :=
  match v with
  | PStr s | PBytes s => Return (length s)
  | PList l => Return (length l)
  | PDict d => Return (length d)
  | _ => Raise TypeError
  end.

(** [v.keys()]. *)
Definition py_keys (v : pyval) : outcome (list text) :=
  match v with
  | PDict d => Return (map fst d)
  | _ => Raise AttributeError
  end.

(** [v.get(s)]. *)
Definition py_get (v : pyval) (s : text) : outcome pyval :=
  match v with
  | PDict d => Return (default PNone (dict_get s d))
  | _ => Raise AttributeError
  end.

(** [v.upper()]. *)
Definition py_upper_method (v : pyval) : outcome pyval :=
  match v with
  | PStr s => Return (PStr (py_upper s))
  | PBytes b => Return (PBytes (py_upper b))
  | _ => Raise AttributeError
  end.

(** The items a [for] loop over [v] visits. *)
Definition py_iter (v : pyval) : outcome (list pyval) :=
  match v with
  | PList l => Return l
  | PDict d => Return (map (fun kv => PStr kv.1) d)
  | PStr s => Return (map (fun c => PStr [c]) s)
  | PBytes b => Return (map (fun c => PInt (Z.of_nat (nat_of_ascii c))) b)
  | _ => Raise TypeError
  end.

(** ** The host: commands, sysfs and the libraries outside the module *)

Record host : Type := Host {
  (** [sudo_utils.call_output(cmd)]: the captured output as bytes, or
      [None] when it has none to give back (the module tests its result
      with [is not None] and with [not]). *)
  call_output : list text -> option text;
  (** [subprocess.check_output(cmd)]: the captured output as bytes;
      [None] stands for [CalledProcessError]. *)
  check_output : list text -> option text;
  (** [json.loads]. *)
  json_loads : text -> outcome pyval;
  (** [str(IPNetwork('%s/%s' % (local, prefixlen)).network)]. *)
  network_of : pyval -> pyval -> outcome text;
  (** [os.listdir], [os.readlink] and [open(path).read()]; [None] stands
      for [OSError]. *)
  listdir : text -> option (list text);
  readlink : text -> option text;
  read_file : text -> option text
}.

Definition or_raise {A} (e : exn) (o : option A) : outcome A :=
  match o with Some a => Return a | None => Raise e end.

(** [if namespace and len(namespace) > 0: _cmd.extend(['-netns', namespace])]. *)
Definition netns_args (namespace : pystring) : list text :=
  if negb (bool_decide (payload namespace = [])) && (0 <? length (payload namespace))%nat
  then [txt "-netns"; payload namespace] else [].

Definition ip_address_cmd (namespace ifname : pystring) : list text :=
  [txt "/usr/sbin/ip"; txt "--details"] ++ netns_args namespace
  ++ [txt "-json"; txt "address"; txt "show"; txt "dev"; payload ifname].

Definition ip_link_cmd (namespace devname : pystring) : list text :=
  [txt "/usr/sbin/ip"] ++ netns_args namespace
  ++ [txt "-oneline"; txt "-json"; txt "link"; txt "show"; txt "dev"; payload devname].

(** The selection at line 68: ['addr_info' in obj and
    len(obj['addr_info']) > 0 and len(obj['addr_info'][0].keys()) > 0]. *)
Definition has_addr_info (obj : pyval) : outcome bool :=
  present ← py_contains (txt "addr_info") obj;
  if negb present then Return false
  else
    ai ← py_getitem obj (txt "addr_info");
    n ← py_len ai;
    if negb (0 <? n)%nat then Return false
    else
      ai ← py_getitem obj (txt "addr_info");
      a0 ← py_first ai;
      ks ← py_keys a0;
      Return (0 <? length ks)%nat.

(** [obj['addr_info'][0]]. *)
Definition addr_info0 (obj : pyval) : outcome pyval :=
  ai ← py_getitem obj (txt "addr_info");
  py_first ai.

(** The test at line 69: [a0.get('linkinfo') and
    a0.get('linkinfo')['info_kind'] == 'vlan']. *)
Definition reports_vlan (obj : pyval) : outcome bool :=
  a0 ← addr_info0 obj;
  li ← py_get a0 (txt "linkinfo");
  if negb (py_truthy li) then Return false
  else
    a0 ← addr_info0 obj;
    li ← py_get a0 (txt "linkinfo");
    kind ← py_getitem li (txt "info_kind");
    Return (py_eq_str kind (txt "vlan")).

(** The record built at lines 69-81 from a selected object. *)
Definition ip_record (h : host) (obj : pyval) : outcome pydict :=
  vlan ← reports_vlan obj;
  _vlanid ←
    (if vlan : bool return outcome pyval then
       a0 ← addr_info0 obj;
       li ← py_get a0 (txt "linkinfo");
       data ← py_getitem li (txt "info_data");
       py_getitem data (txt "id")
     else Return PNone);
  a0 ← addr_info0 obj;
  broadcast ← py_get a0 (txt "broadcast");
  a0 ← addr_info0 obj;
  prefixlen ← py_get a0 (txt "prefixlen");
  a0 ← addr_info0 obj;
  local ← py_get a0 (txt "local");
  a0 ← addr_info0 obj;
  local' ← py_getitem a0 (txt "local");
  a0 ← addr_info0 obj;
  prefixlen' ← py_getitem a0 (txt "prefixlen");
  subnet ← network_of h local' prefixlen';
  Return [ (txt "vlanid", _vlanid);
           (txt "broadcast", broadcast);
           (txt "address_prefix_l", prefixlen);
           (txt "address", local);
           (txt "address_subnet", PStr subnet) ].

(** The loop at lines 67-82: the first selected object decides. *)
Fixpoint first_ip_record (h : host) (objs : list pyval) : outcome pydict :=
  match objs with
  | [] => Return []
  | obj :: rest =>
      sel ← has_addr_info obj;
      if sel : bool then ip_record h obj else first_ip_record h rest
  end.

Definition _fetch_ip_info (h : host) (namespace ifname : pystring) : outcome pydict :=
  match call_output h (ip_address_cmd namespace ifname) with
  | None => Return []
  | Some ip_info =>
      if bool_decide (ip_info = []) then Return []
      else
        ip_info_j ← json_loads h (bytes_strip ip_info);
        objs ← py_iter ip_info_j;
        first_ip_record h objs
  end.

(** The record built at lines 130-134 from the first object. *)
Definition link_record (obj : pyval) : outcome pydict :=
  address ← py_get obj (txt "address");
  mac ← py_upper_method address;
  operstate ← py_get obj (txt "operstate");
  link_type ← py_get obj (txt "link_type");
  Return [ (txt "mac", mac); (txt "opstate", operstate); (txt "type", link_type) ].

(** The definition at lines 103-135, which is the one in force: the
    output is stripped before it is tested. *)
Definition _fetch_link_info (h : host) (namespace devname : pystring) : outcome pydict :=
  raw ← or_raise AttributeError (call_output h (ip_link_cmd namespace devname));
  let link_info := bytes_strip raw in
  if bool_decide (link_info = []) then Return []
  else
    link_info_j ← json_loads h link_info;
    objs ← py_iter link_info_j;
    match objs with
    | obj :: _ => link_record obj
    | [] => Return []
    end.

(** The definition at lines 85-100, rebound by the one above: the output
    is tested before it is stripped. *)
Definition _fetch_link_info_first (h : host) (namespace devname : pystring) : outcome pydict :=
  match call_output h (ip_link_cmd namespace devname) with
  | None => Return []
  | Some link_info =>
      if bool_decide (link_info = []) then Return []
      else
        link_info_j ← json_loads h (bytes_strip link_info);
        objs ← py_iter link_info_j;
        match objs with
        | obj :: _ => link_record obj
        | [] => Return []
        end
  end.

Definition _get_namespaces (h : host) : outcome (list pystring) :=
  out ← or_raise CalledProcessError
          (check_output h [txt "/usr/sbin/ip"; txt "netns"; txt "list"]);
  Return (map (fun name => Bytes (hd [] (split_on SP name))) (bytes_splitlines out)).

Definition link_list_cmd (namespace : pystring) : list text :=
  [txt "/usr/sbin/ip"] ++ netns_args namespace
  ++ [txt "-oneline"; txt "link"; txt "list"].

(** [(_l.split(b' ')[0][:-1], _l.split(b' ')[1][:-1])]. *)
Definition link_name_pair (_l : text) : outcome (pystring * pystring) :=
  match split_on SP _l with
  | i :: n :: _ => Return (Bytes (removelast i), Bytes (removelast n))
  | _ => Raise IndexError
  end.

Fixpoint link_name_pairs (_links : list text) : outcome (list (pystring * pystring)) :=
  match _links with
  | [] => Return []
  | _l :: rest =>
      p ← link_name_pair _l;
      ps ← link_name_pairs rest;
      Return (p :: ps)
  end.

Definition _get_link_names (h : host) (namespace : pystring)
    : outcome (list (pystring * pystring)) :=
  out ← or_raise AttributeError (call_output h (link_list_cmd namespace));
  link_name_pairs (bytes_splitlines out).

Definition pystring_val (x : pystring) : pyval :=
  match x with Str s => PStr s | Bytes b => PBytes b end.

(** The inner loop of [get_network_namespace_infos] (lines 192-200). *)
Fixpoint namespace_links (h : host) (_ns : pystring)
    (_nsls : list (pystring * pystring)) : outcome (list pydict) :=
  match _nsls with
  | [] => Return []
  | (_nsl_i, _nsl_n) :: rest =>
      _new_info ← _fetch_link_info h _ns _nsl_n;
      ip ← _fetch_ip_info h _ns _nsl_n;
      let _new_info := dict_update _new_info ip in
      if (length (map fst _new_info) =? 0)%nat then namespace_links h _ns rest
      else
        let _new_info := dict_set (txt "index") (pystring_val _nsl_i) _new_info in
        let _new_info := dict_set (txt "device") (pystring_val _nsl_n) _new_info in
        recs ← namespace_links h _ns rest;
        Return (_new_info :: recs)
  end.

Abbreviation topology := (list (pystring * list pydict)).

(** [_result[_ns] = records]. *)
Fixpoint result_set (_ns : pystring) (recs : list pydict) (r : topology) : topology :=
  match r with
  | [] => [(_ns, recs)]
  | (k, v) :: r' =>
      if bool_decide (k = _ns) then (k, recs) :: r' else (k, v) :: result_set _ns recs r'
  end.

(** The outer loop (lines 189-200). *)
Fixpoint namespaces_loop (h : host) (_ns_list : list pystring) (_result : topology)
    : outcome topology :=
  match _ns_list with
  | [] => Return _result
  | _ns :: rest =>
      _nsls ← _get_link_names h _ns;
      recs ← namespace_links h _ns _nsls;
      namespaces_loop h rest (result_set _ns recs _result)
  end.

Definition get_network_namespace_infos (h : host) : outcome topology :=
  _ns_list ← _get_namespaces h;
  namespaces_loop h (_ns_list ++ [Str []]) [].

(** ** The interface enumerator *)

Definition _CLASS_NET_DIR : text := txt "/sys/class/net".

(** One virtual function: [{'pci_id': ..., 'mac': ...}], the second key
    being there only once a MAC address was stored. *)
Record vf_info : Type := VfInfo {
  vf_pci_id : text;
  vf_mac : option text
}.

(** One interface: ['physical'] and ['mac'] always, the other keys when
    they were stored. *)
Record iface_info : Type := IfaceInfo {
  physical : bool;
  mac : text;
  pci : option text;
  physfn : option text;
  virtfns : option (gmap Z vf_info)
}.

(** The first loop of the [except OSError] branch (lines 256-261). *)
Fixpoint scan_virtfns (h : host) (dev : text) (dirs : list text)
    (virt_ifaces : gmap Z vf_info) : outcome (gmap Z vf_info) :=
  match dirs with
  | [] => Return virt_ifaces
  | d :: rest =>
      if negb (startswith (txt "virtfn") d) then scan_virtfns h dev rest virt_ifaces
      else
        target ← or_raise OSError (readlink h (dev ++ txt "/" ++ d));
        let virt_pci_id := drop 3 target in
        k ← py_int (drop 6 d);
        scan_virtfns h dev rest (<[k := VfInfo virt_pci_id None]> virt_ifaces)
  end.

(** [line.split(' ')]: a [TypeError] on a bytes object. *)
Definition split_by_space_str (line : pystring) : outcome (list text) :=
  match line with
  | Str s => Return (split_on SP s)
  | Bytes _ => Raise TypeError
  end.

(** [line.strip()]. *)
Definition pystring_strip (line : pystring) : pystring :=
  match line with
  | Str s => Str (py_strip s)
  | Bytes b => Bytes (bytes_strip b)
  end.

(** The second loop of that branch (lines 265-275), over the lines of
    [ip link show]. *)
Fixpoint scrape_vf_macs (lines : list pystring) (virt_ifaces : gmap Z vf_info)
    : outcome (gmap Z vf_info) :=
  match lines with
  | [] => Return virt_ifaces
  | line :: rest =>
      let line := pystring_strip line in
      if negb (startswith (txt "vf ") (py_str line)) then scrape_vf_macs rest virt_ifaces
      else
        ents ← split_by_space_str line;
        e1 ← or_raise IndexError (ents !! 1%nat);
        vf_num ← py_int e1;
        e3 ← or_raise IndexError (ents !! 3%nat);
        let vf_mac := removelast e3 in
        v ← or_raise KeyError (virt_ifaces !! vf_num);
        scrape_vf_macs rest (<[vf_num := VfInfo (vf_pci_id v) (Some vf_mac)]> virt_ifaces)
  end.

(** The state of the first loop of [get_interfaces]: [ret] and
    [pci_id_to_iface]. *)
Record ifaces : Type := Ifaces {
  ret : list (text * iface_info);
  pci_id_to_iface : list (text * text)
}.

(** The body of the first loop (lines 224-279) for the entry [n]. *)
Definition enumerate_iface (h : host) (n : text) (st : ifaces) : outcome ifaces :=
  let iface := _CLASS_NET_DIR ++ txt "/" ++ n in
  match readlink h iface with
  | None => Return st
  | Some link =>
      let physical := negb (startswith (txt "../../devices/virtual") link) in
      content ← or_raise FileNotFoundError (read_file h (iface ++ txt "/address"));
      let mac := py_lower (py_strip (universal_newlines content)) in
      if negb physical then
        Return (Ifaces (dict_set n (IfaceInfo physical mac None None None) (ret st))
                       (pci_id_to_iface st))
      else
        let dev := iface ++ txt "/device" in
        target ← or_raise OSError (readlink h dev);
        let pci_id := after_last_slash target in
        let p2i := dict_set pci_id n (pci_id_to_iface st) in
        match readlink h (dev ++ txt "/physfn") with
        | Some pf =>
            let phys_id := drop 3 pf in
            Return (Ifaces (dict_set n (IfaceInfo physical mac (Some pci_id) (Some phys_id) None)
                                     (ret st))
                           p2i)
        | None =>
            dirs ← or_raise OSError (listdir h dev);
            virt_ifaces ← scan_virtfns h dev dirs ∅;
            out ← or_raise CalledProcessError
                    (check_output h [txt "/usr/sbin/ip"; txt "link"; txt "show"; n]);
            virt_ifaces ← scrape_vf_macs (map Bytes (bytes_splitlines out)) virt_ifaces;
            Return (Ifaces (dict_set n (IfaceInfo physical mac (Some pci_id) None (Some virt_ifaces))
                                     (ret st))
                           p2i)
        end
  end.

Fixpoint enumerate_ifaces (h : host) (names : list text) (st : ifaces) : outcome ifaces :=
  match names with
  | [] => Return st
  | n :: rest =>
      st' ← enumerate_iface h n st;
      enumerate_ifaces h rest st'
  end.

(** [v['mac'] = ret[pci_id_to_iface[v['pci_id']]]['mac']], any exception
    being passed over. *)
Definition reconcile_vf (st : ifaces) (v : vf_info) : vf_info :=
  match dict_get (vf_pci_id v) (pci_id_to_iface st) with
  | Some n =>
      match dict_get n (ret st) with
      | Some info => VfInfo (vf_pci_id v) (Some (mac info))
      | None => v
      end
  | None => v
  end.

(** The second loop (lines 283-295). *)
Definition reconcile (st : ifaces) (info : iface_info) : iface_info :=
  if negb (physical info) then info
  else match virtfns info with
       | None => info
       | Some virt_fns =>
           IfaceInfo (physical info) (mac info) (pci info) (physfn info)
                     (Some (reconcile_vf st <$> virt_fns))
       end.

Definition get_interfaces (h : host) : outcome (list (text * iface_info)) :=
  names ← or_raise OSError (listdir h _CLASS_NET_DIR);
  st ← enumerate_ifaces h names (Ifaces [] []);
  Return (map (fun kv => (kv.1, reconcile st kv.2)) (ret st)).


(** ** Vocabulary for the statements about the registry editor *)

(** The outcome the environment holds for the [i]-th copy or write from
    now (counting from zero). *)
Definition upcoming (w : world) (i : nat) : attempt := nth i (pending w) succeeds.

(** The second token of a line is the given name. *)
Definition second_token_is (name line : text) : Prop :=
  ∃ first rest, py_split line = first :: name :: rest.

(** A comment line, as [add_route_table] recognises it. *)
Definition comment_line (line : text) : Prop := startswith [HASH] line = true.

(** A table name that [str.split()] reads back as one token. *)
Definition one_token (name : text) : Prop :=
  name ≠ [] ∧ Forall (fun c => is_space c = false) name.

(** A text ending with a line terminator, or empty. *)
Definition newline_terminated (s : text) : Prop := s = [] ∨ last s = Some LF.

(** A decimal digit. *)
Definition is_digit (c : ascii) : Prop := is_Some (digit_of c).

(** The restore invariant in the words of the specification: a failed
    backup leaves the live file alone, a failed write after a successful
    backup leaves the live file with its content from before the call,
    and only a successful backup and write report success. *)
Definition restore_invariant (edit : io bool) (w : world) : Prop :=
  ∀ c b w',
    files w !! rt_tables = Some c →
    edit w = (Return b, w') →
    (rc (upcoming w 0) ≠ 0 → b = false ∧ files w' !! rt_tables = Some c)
    ∧ (rc (upcoming w 0) = 0 → rc (upcoming w 1) ≠ 0 →
       b = false ∧ files w' !! rt_tables = Some c)
    ∧ (b = true → rc (upcoming w 0) = 0 ∧ rc (upcoming w 1) = 0).

(** Adding a table and deleting it at once gives the file back, in the
    words of the specification. *)
Definition add_delete_roundtrip (table_name : text) (w : world) : Prop :=
  ∀ c w1 w2,
    files w !! rt_tables = Some c →
    add_route_table table_name w = (Return true, w1) →
    delete_route_table table_name w1 = (Return true, w2) →
    files w2 !! rt_tables = Some c.

(** ** Vocabulary for the statements about the inspector and the enumerator *)

(** The link metadata of an object of the address query reports the
    encapsulation kind [vlan]. *)
Definition kind_is_vlan (obj : pyval) : Prop :=
  ∃ d rest a0 li,
    obj = PDict d
    ∧ dict_get (txt "addr_info") d = Some (PList (PDict a0 :: rest))
    ∧ dict_get (txt "linkinfo") a0 = Some (PDict li)
    ∧ dict_get (txt "info_kind") li = Some (PStr (txt "vlan")).

(** The objects the address query of a link gave. *)
Definition address_query_objects (h : host) (namespace ifname : pystring)
    (objs : list pyval) : Prop :=
  ∃ raw j,
    call_output h (ip_address_cmd namespace ifname) = Some raw
    ∧ json_loads h (bytes_strip raw) = Return j
    ∧ py_iter j = Return objs.

(** A record carries a VLAN id when ['vlanid'] is bound to something
    other than [None]: as with every optional field of these records,
    [None] stands for a field that is not there. *)
Definition vlan_id_present (rec : pydict) : Prop :=
  ∃ v, dict_get (txt "vlanid") rec = Some v ∧ v ≠ PNone.

(** A value is an uppercase (lowercase) string. *)
Definition uppercase_value (v : pyval) : Prop :=
  ∃ s, (v = PStr s ∨ v = PBytes s) ∧ uppercase s.

(** The record of the link query: nothing, or the three fields with an
    uppercase MAC address. *)
Definition link_shape (link : pydict) : Prop :=
  link = []
  ∨ ∃ m o t, link = [(txt "mac", m); (txt "opstate", o); (txt "type", t)]
             ∧ uppercase_value m.

(** The record of the address query: nothing, or the five fields, with
    a VLAN id other than [None] only for an object of kind [vlan]. *)
Definition ip_shape (objs : list pyval) (ip : pydict) : Prop :=
  ip = []
  ∨ ∃ obj vid b p a s,
      obj ∈ objs
      ∧ ip = [ (txt "vlanid", vid); (txt "broadcast", b);
               (txt "address_prefix_l", p); (txt "address", a);
               (txt "address_subnet", s) ]
      ∧ (vid ≠ PNone → kind_is_vlan obj).

(** A record with the ['index'] and ['device'] of its link stored. *)
Definition tagged (idx name : pystring) (rec : pydict) : pydict :=
  dict_set (txt "device") (pystring_val name)
    (dict_set (txt "index") (pystring_val idx) rec).

(** The record of a link, as the inner loop assembles it. *)
Definition assemble (link ip : pydict) (idx name : pystring) : pydict :=
  tagged idx name (dict_update link ip).

(** After the first loop of [get_interfaces]: the MAC address of the
    interface is lowercase and none of its virtual functions has one. *)
Definition enumerated (info : iface_info) : Prop :=
  lowercase (mac info)
  ∧ ∀ vfs k v, virtfns info = Some vfs → vfs !! k = Some v → vf_mac v = None.

(** ** Sample registries *)

Definition registry_of (content : text) (outcomes : list attempt) : world :=
  World {[ rt_tables := content ]} outcomes [].

(** ["1\tfoo\n"]. *)
Definition one_entry : text := txt "1" ++ [TAB] ++ txt "foo" ++ [LF].

(** ["# foo\n1\tfoo\n"]. *)
Definition comment_and_entry : text :=
  txt "# foo" ++ [LF] ++ txt "1" ++ [TAB] ++ txt "foo" ++ [LF].

(** ["0\ta\n1\tb\n2\tc\n"]. *)
Definition three_entries : text :=
  txt "0" ++ [TAB] ++ txt "a" ++ [LF] ++ txt "1" ++ [TAB] ++ txt "b" ++ [LF]
  ++ txt "2" ++ [TAB] ++ txt "c" ++ [LF].

(** The backup works, the write fails and truncates the live file, the
    restoring copy fails too. *)
Definition write_and_restore_fail : list attempt :=
  [Attempt 0 None; Attempt 1 (Some []); Attempt 1 (Some [])].

(** The backup works, the write fails and truncates the live file, the
    restoring copy works. *)
Definition write_fails : list attempt :=
  [Attempt 0 None; Attempt 1 (Some []); Attempt 0 None].

(** ** Sample hosts *)

Definition lookup_text {A} (table : list (text * A)) (k : text) : option A :=
  snd <$> List.find (fun kv => bool_decide (kv.1 = k)) table.

Definition lookup_cmd {A} (table : list (list text * A)) (k : list text) : option A :=
  snd <$> List.find (fun kv => bool_decide (kv.1 = k)) table.

Definition no_network (_ _ : pyval) : outcome text := Return (txt "10.0.0.0").

(** A host with one physical function [eth0] that has one virtual
    function, whose PCI id belongs to no interface of the host.  The
    link-show output names the MAC address of that virtual function. *)
Definition vf_line : text := txt "    vf 0 MAC 52:54:00:12:34:56, spoof checking on".

Definition sriov_host : host :=
  let net := txt "/sys/class/net" in
  let eth0 := txt "/sys/class/net/eth0" in
  Host
    (fun _ => None)
    (lookup_cmd
       [ ([txt "/usr/sbin/ip"; txt "link"; txt "show"; txt "eth0"],
          txt "2: eth0: <BROADCAST,UP> mtu 1500" ++ [LF]
          ++ txt "    link/ether 02:00:17:0a:0b:0c brd ff:ff:ff:ff:ff:ff" ++ [LF]
          ++ vf_line ++ [LF]) ])
    (fun _ => Raise JSONDecodeError)
    no_network
    (lookup_text
       [ (net, [txt "eth0"]);
         (eth0 ++ txt "/device", [txt "driver"; txt "virtfn0"]) ])
    (lookup_text
       [ (eth0, txt "../../devices/pci0000:00/0000:00:03.0/net/eth0");
         (eth0 ++ txt "/device", txt "../../../0000:00:03.0");
         (eth0 ++ txt "/device/virtfn0", txt "../0000:00:03.1") ])
    (lookup_text
       [ (eth0 ++ txt "/address", txt "02:00:17:0A:0B:0C" ++ [LF]) ]).

(** The texts the queries about [ens3] print, and what [json.loads]
    makes of them. *)
Definition ens3_link_json : text := txt "[{link ens3}]".
Definition ens3_addr_json : text := txt "[{addr ens3}]".

Definition ens3_link_obj : pyval :=
  PList [ PDict [ (txt "address", PStr (txt "02:00:17:0a:0b:0c"));
                  (txt "operstate", PStr (txt "UP"));
                  (txt "link_type", PStr (txt "ether")) ] ].

Definition ens3_addr_obj : pyval :=
  PList [ PDict [ (txt "ifname", PStr (txt "ens3"));
                  (txt "addr_info",
                   PList [ PDict [ (txt "family", PStr (txt "inet"));
                                   (txt "local", PStr (txt "10.0.0.5"));
                                   (txt "prefixlen", PInt 24);
                                   (txt "broadcast", PStr (txt "10.0.0.255")) ] ]) ] ].

(** A host without named namespaces, whose default namespace has the
    links [lo] and [ens3]; the queries about [lo] print nothing. *)
Definition quiet_lo_host : host :=
  Host
    (lookup_cmd
       [ (link_list_cmd (Str []),
          txt "1: lo: <LOOPBACK,UP,LOWER_UP> mtu 65536" ++ [LF]
          ++ txt "2: ens3: <BROADCAST,MULTICAST,UP,LOWER_UP> mtu 9000" ++ [LF]);
         (ip_link_cmd (Str []) (Bytes (txt "lo")), []);
         (ip_address_cmd (Str []) (Bytes (txt "lo")), []);
         (ip_link_cmd (Str []) (Bytes (txt "ens3")), ens3_link_json ++ [LF]);
         (ip_address_cmd (Str []) (Bytes (txt "ens3")), ens3_addr_json ++ [LF]) ])
    (lookup_cmd [ ([txt "/usr/sbin/ip"; txt "netns"; txt "list"], []) ])
    (fun s => or_raise JSONDecodeError
                (lookup_text [ (ens3_link_json, ens3_link_obj);
                               (ens3_addr_json, ens3_addr_obj) ] s))
    no_network
    (fun _ => None) (fun _ => None) (fun _ => None).

(** The same host at a moment when the link query about [lo] gives
    nothing back: [call_output] returns [None] for it. *)
Definition silent_lo_host : host :=
  Host
    (lookup_cmd
       [ (link_list_cmd (Str []),
          txt "1: lo: <LOOPBACK,UP,LOWER_UP> mtu 65536" ++ [LF]
          ++ txt "2: ens3: <BROADCAST,MULTICAST,UP,LOWER_UP> mtu 9000" ++ [LF]);
         (ip_link_cmd (Str []) (Bytes (txt "ens3")), ens3_link_json ++ [LF]);
         (ip_address_cmd (Str []) (Bytes (txt "ens3")), ens3_addr_json ++ [LF]) ])
    (lookup_cmd [ ([txt "/usr/sbin/ip"; txt "netns"; txt "list"], []) ])
    (fun s => or_raise JSONDecodeError
                (lookup_text [ (ens3_link_json, ens3_link_obj);
                               (ens3_addr_json, ens3_addr_obj) ] s))
    no_network
    (fun _ => None) (fun _ => None) (fun _ => None).

(** A host without named namespaces whose default namespace has the one
    link [ens3], a VLAN sub-interface with id 100. *)
Definition vlan_addr_obj : pyval :=
  PList [ PDict [ (txt "ifname", PStr (txt "ens3"));
                  (txt "addr_info",
                   PList [ PDict [ (txt "local", PStr (txt "10.0.0.5"));
                                   (txt "prefixlen", PInt 24);
                                   (txt "linkinfo",
                                    PDict [ (txt "info_kind", PStr (txt "vlan"));
                                            (txt "info_data",
                                             PDict [ (txt "id", PInt 100) ]) ]) ] ]) ] ].

Definition vlan_host : host :=
  Host
    (lookup_cmd
       [ (link_list_cmd (Str []),
          txt "2: ens3: <BROADCAST,MULTICAST,UP,LOWER_UP> mtu 9000" ++ [LF]);
         (ip_link_cmd (Str []) (Bytes (txt "ens3")), ens3_link_json ++ [LF]);
         (ip_address_cmd (Str []) (Bytes (txt "ens3")), ens3_addr_json ++ [LF]) ])
    (lookup_cmd [ ([txt "/usr/sbin/ip"; txt "netns"; txt "list"], []) ])
    (fun s => or_raise JSONDecodeError
                (lookup_text [ (ens3_link_json, ens3_link_obj);
                               (ens3_addr_json, vlan_addr_obj) ] s))
    no_network
    (fun _ => None) (fun _ => None) (fun _ => None).

Definition topology_of (h : host) : topology :=
  match get_network_namespace_infos h with
  | Return r => r
  | Raise _ => []
  end.

Definition interfaces_of (h : host) : list (text * iface_info) :=
  match get_interfaces h with
  | Return r => r
  | Raise _ => []
  end.

(** ** Vocabulary for further statements about the registry editor *)

(** A line the reading loop of [add_route_table] cannot take: it is not
    blank, does not start with [#], and its first token is not an
    integer. *)
Definition unreadable_entry (line : text) : Prop :=
  py_strip line ≠ []
  ∧ startswith [HASH] line = false
  ∧ ∃ tok rest, py_split line = tok :: rest ∧ py_int tok = Raise ValueError.

(** A line that ends with its terminator, which it holds nowhere else. *)
Definition terminated (line : text) : Prop :=
  ∃ body, line = body ++ [LF] ∧ (LF ∉ body).

(** A last line without terminator. *)
Definition unterminated (line : text) : Prop := line ≠ [] ∧ (LF ∉ line).

(** The lines of a text, as [readlines] cuts them: all terminated, but
    for the last one, which may lack its terminator. *)
Fixpoint cut_lines (ls : list text) : Prop :=
  match ls with
  | [] => True
  | l :: ls' => (terminated l ∨ (unterminated l ∧ ls' = [])) ∧ cut_lines ls'
  end.

(** The paths a helper call names. *)
Definition op_paths (op : sudo_op) : list string :=
  match op with
  | CopyFile src dst => [src; dst]
  | WriteToFile path _ => [path]
  | DeleteFile path => [path]
  end.

(** A registry with one entry for every number from 0 to 254. *)
Definition full_registry : text :=
  concat (map (fun k => table_line k (txt "t")) (seqZ 0 255)).

(** ["  # note\n"]: a comment that does not start its line. *)
Definition indented_comment : text := txt "  # note" ++ [LF].

#[export] Instance exn_eq_dec : EqDecision exn.
Proof. solve_decision. Defined.

#[export] Instance outcome_eq_dec {A} `{EqDecision A} : EqDecision (outcome A).
Proof. solve_decision. Defined.

(** ** Vocabulary for further statements about the inspector *)

(** An object of the address query with nothing to report: no
    [addr_info], an empty one, or one whose first element is empty. *)
Definition no_address (obj : pyval) : Prop :=
  ∃ d, obj = PDict d
       ∧ (dict_get (txt "addr_info") d = None
          ∨ dict_get (txt "addr_info") d = Some (PList [])
          ∨ ∃ rest, dict_get (txt "addr_info") d = Some (PList (PDict [] :: rest))).

(** An object whose [addr_info] starts with a non-empty element. *)
Definition has_address (obj : pyval) : Prop :=
  ∃ d kv a0 rest,
    obj = PDict d
    ∧ dict_get (txt "addr_info") d = Some (PList (PDict (kv :: a0) :: rest)).

(** The ['index'] and ['device'] of a record. *)
Definition link_tag (rec : pydict) : option pyval * option pyval :=
  (dict_get (txt "index") rec, dict_get (txt "device") rec).

(** The name of the namespace a line of [ip netns list] stands for. *)
Definition namespace_of_line (line : text) : pystring :=
  Bytes (hd [] (split_on SP line)).

(** A host with the namespace [blue], listed as [blue (id: 0)], that has
    the one link [lo], about which the queries print nothing; the
    default namespace has no link at all. *)
Definition blue_host : host :=
  Host
    (lookup_cmd
       [ (link_list_cmd (Str []), []);
         (link_list_cmd (Bytes (txt "blue")),
          txt "1: lo: <LOOPBACK> mtu 65536" ++ [LF]);
         (ip_link_cmd (Bytes (txt "blue")) (Bytes (txt "lo")), []);
         (ip_address_cmd (Bytes (txt "blue")) (Bytes (txt "lo")), []) ])
    (lookup_cmd [ ([txt "/usr/sbin/ip"; txt "netns"; txt "list"],
                   txt "blue (id: 0)" ++ [LF]) ])
    (fun _ => Raise JSONDecodeError)
    no_network
    (fun _ => None) (fun _ => None) (fun _ => None).

(** What the address query prints when the first object has an empty
    [addr_info]. *)
Definition skipping_addr_obj : pyval :=
  PList [ PDict [ (txt "addr_info", PList []) ];
          PDict [ (txt "addr_info", PList [ PDict [] ]) ];
          PDict [ (txt "addr_info",
                   PList [ PDict [ (txt "local", PStr (txt "10.0.0.5"));
                                   (txt "prefixlen", PInt 24) ] ]) ] ].

Definition skipping_host : host :=
  Host
    (lookup_cmd
       [ (ip_address_cmd (Str []) (Bytes (txt "ens3")), ens3_addr_json ++ [LF]) ])
    (fun _ => None)
    (fun s => or_raise JSONDecodeError
                (lookup_text [ (ens3_addr_json, skipping_addr_obj) ] s))
    no_network
    (fun _ => None) (fun _ => None) (fun _ => None).

(** ** Vocabulary for further statements about the enumerator *)

(** What sysfs says about the interface [n], as [get_interfaces] reads
    it: the link of the entry tells whether the interface is physical,
    the [address] file gives the MAC address; a physical interface has
    the last component of its [device] link as PCI id and then either
    a physical function, when [device/physfn] is a link, or a table of
    virtual functions; a virtual interface has none of these. *)
Definition sysfs_record (h : host) (n : text) (info : iface_info) : Prop :=
  let iface := _CLASS_NET_DIR ++ txt "/" ++ n in
  let dev := iface ++ txt "/device" in
  ∃ link content,
    readlink h iface = Some link
    ∧ read_file h (iface ++ txt "/address") = Some content
    ∧ physical info = negb (startswith (txt "../../devices/virtual") link)
    ∧ mac info = py_lower (py_strip (universal_newlines content))
    ∧ if physical info then
        ∃ target,
          readlink h dev = Some target
          ∧ pci info = Some (after_last_slash target)
          ∧ match readlink h (dev ++ txt "/physfn") with
            | Some pf => physfn info = Some (drop 3 pf) ∧ virtfns info = None
            | None => physfn info = None ∧ is_Some (virtfns info)
            end
      else pci info = None ∧ physfn info = None ∧ virtfns info = None.

(** The keys a record has: ['pci'] exactly for a physical interface,
    which has exactly one of ['physfn'] and ['virtfns']. *)
Definition well_shaped (info : iface_info) : Prop :=
  if physical info then
    is_Some (pci info) ∧ (is_Some (physfn info) ↔ virtfns info = None)
  else pci info = None ∧ physfn info = None ∧ virtfns info = None.

(** The interface [n] is physical and its [device] link ends in [p]. *)
Definition device_pci (h : host) (n p : text) : Prop :=
  let iface := _CLASS_NET_DIR ++ txt "/" ++ n in
  ∃ link target,
    readlink h iface = Some link
    ∧ startswith (txt "../../devices/virtual") link = false
    ∧ readlink h (iface ++ txt "/device") = Some target
    ∧ p = after_last_slash target.

(** What the first loop of [get_interfaces] maintains. *)
Definition enumeration_invariant (h : host) (st : ifaces) : Prop :=
  Forall (fun kv => sysfs_record h kv.1 kv.2) (ret st)
  ∧ (∀ p n, dict_get p (pci_id_to_iface st) = Some n →
            device_pci h n p ∧ is_Some (dict_get n (ret st)))
  ∧ Forall (fun kv => ∀ p, pci kv.2 = Some p → is_Some (dict_get p (pci_id_to_iface st)))
           (ret st).

(** A host with the physical function [eth0], which has the virtual
    function [0000:00:03.1], and the interface [eth1] on that very
    virtual function; [lo] is a virtual device and [bonding_masters] is
    a plain file. *)
Definition vf_pair_host : host :=
  let net := txt "/sys/class/net" in
  let eth0 := txt "/sys/class/net/eth0" in
  let eth1 := txt "/sys/class/net/eth1" in
  let lo := txt "/sys/class/net/lo" in
  Host
    (fun _ => None)
    (lookup_cmd
       [ ([txt "/usr/sbin/ip"; txt "link"; txt "show"; txt "eth0"],
          txt "2: eth0: <BROADCAST,UP> mtu 1500" ++ [LF]) ])
    (fun _ => Raise JSONDecodeError)
    no_network
    (lookup_text
       [ (net, [txt "bonding_masters"; txt "eth0"; txt "eth1"; txt "lo"]);
         (eth0 ++ txt "/device", [txt "driver"; txt "virtfn0"]) ])
    (lookup_text
       [ (eth0, txt "../../devices/pci0000:00/0000:00:03.0/net/eth0");
         (eth0 ++ txt "/device", txt "../../../0000:00:03.0");
         (eth0 ++ txt "/device/virtfn0", txt "../0000:00:03.1");
         (eth1, txt "../../devices/pci0000:00/0000:00:03.1/net/eth1");
         (eth1 ++ txt "/device", txt "../../../0000:00:03.1");
         (eth1 ++ txt "/device/physfn", txt "../0000:00:03.0");
         (lo, txt "../../devices/virtual/net/lo") ])
    (lookup_text
       [ (eth0 ++ txt "/address", txt "02:00:17:0A:0B:0C" ++ [LF]);
         (eth1 ++ txt "/address", txt "02:00:17:0A:0B:0D" ++ [LF]);
         (lo ++ txt "/address", txt "00:00:00:00:00:00" ++ [LF]) ]).

(** ** The NetworkManager exclusion files *)

Definition _NM_CONF_DIR : text := txt "/etc/NetworkManager/conf.d/".

Definition COLON : ascii := ascii_of_nat 58.
Definition SLASH : ascii := ascii_of_nat 47.

(** [s.replace(a, b)] for one-character strings [a] and [b]. *)
Definition py_replace_char (a b : ascii) (s : text) : text :=
  map (fun c => if bool_decide (c = a) then b else c) s.

(** ["%s.conf" % mac.replace(':', '_').upper()]. *)
Definition _compute_nm_conf_filename (mac : text) : text :=
  py_upper (py_replace_char COLON UNDERSCORE mac) ++ txt ".conf".

(** [os.path.join(a, b)]: [b] alone when it is absolute, otherwise [a]
    and [b] with one slash between them unless [a] is empty or ends
    with one. *)
Definition os_path_join (a b : text) : text :=
  if startswith [SLASH] b then b
  else if bool_decide (a = []) || bool_decide (last a = Some SLASH) then a ++ b
  else a ++ [SLASH] ++ b.

(** The file system as these functions see it: the files, with the
    outcomes of the helper calls still to come, and the directories. *)
Record nm_world : Type := NmWorld {
  nm_files : world;
  nm_dirs : list text
}.

Definition path_of (p : text) : string := string_of_list_ascii p.

(** [os.path.exists(path)]. *)
Definition path_exists (path : text) (w : nm_world) : bool :=
  bool_decide (is_Some (files (nm_files w) !! path_of path))
  || bool_decide (path ∈ nm_dirs w).

(** Modelled from the spec: [sudo_utils.create_dir(path)], which is not
    part of this module and whose result the module tests against zero
    (line 500).  It takes its outcome from the environment; with
    status zero the directory exists afterwards. *)
Definition create_dir (path : text) (w : nm_world) : Z * nm_world :=
  let '(a, rest) := next_attempt (nm_files w) in
  let fs := World (files (nm_files w)) rest (journal (nm_files w)) in
  if rc a =? 0 then (0, NmWorld fs (path :: nm_dirs w))
  else (rc a, NmWorld fs (nm_dirs w)).

(** Modelled from the spec: [sudo_utils.create_file(path)], tested
    against zero at line 505.  With status zero a file exists at [path]
    afterwards: the one that was there, or else an empty one. *)
Definition create_file (path : text) (w : nm_world) : Z * nm_world :=
  let '(a, rest) := next_attempt (nm_files w) in
  if rc a =? 0 then
    let content := default [] (files (nm_files w) !! path_of path) in
    (0, NmWorld (World (<[path_of path := content]> (files (nm_files w))) rest
                       (journal (nm_files w)))
                (nm_dirs w))
  else
    (rc a, NmWorld (World (leave (path_of path) (residue a) (files (nm_files w))) rest
                          (journal (nm_files w)))
                   (nm_dirs w)).

(** The helpers of the registry editor, on this file system. *)
Definition on_files {A} (m : io A) (w : nm_world) : outcome A * nm_world :=
  let '(r, fs) := m (nm_files w) in (r, NmWorld fs (nm_dirs w)).

(** The [Exception]s the two functions raise, by their message. *)
Inductive nm_failure : Type :=
| Invalid_MAC_address
| Cannot_create_directory (path : text)
| Cannot_create_file (path : text).

(** The two lines written at lines 511-512. *)
Definition nm_conf_text (mac : text) : text :=
  txt "[keyfile]" ++ [LF] ++ txt "unmanaged-devices+=mac" ++ mac ++ [LF].

(** [remove_mac_from_nm]: [None] when it returns, [Some] failure when
    it raises.  What [write_to_file] returns is not looked at. *)
Definition remove_mac_from_nm (mac : text) (w : nm_world)
    : option nm_failure * nm_world :=
  if bool_decide (mac = []) then (Some Invalid_MAC_address, w)
  else
    let '(made, w) :=
      if negb (path_exists _NM_CONF_DIR w) then
        let '(r, w) := create_dir _NM_CONF_DIR w in (bool_decide (r = 0), w)
      else (true, w) in
    if negb made then (Some (Cannot_create_directory _NM_CONF_DIR), w)
    else
      let _cf := os_path_join _NM_CONF_DIR (_compute_nm_conf_filename mac) in
      let '(r, w) := create_file _cf w in
      if negb (r =? 0) then (Some (Cannot_create_file _cf), w)
      else
        let '(_, w) := on_files (write_to_file (path_of _cf) (nm_conf_text mac)) w in
        (None, w).

(** [add_mac_to_nm]: the file of the address is deleted if it exists. *)
Definition add_mac_to_nm (mac : text) (w : nm_world) : nm_world :=
  let _cf := os_path_join _NM_CONF_DIR (_compute_nm_conf_filename mac) in
  if path_exists _cf w then (on_files (delete_file (path_of _cf)) w).2
  else w.

(** ** The pass-through mutators *)

(** [sep.join(items)]. *)
Fixpoint py_join (sep : text) (items : list text) : text :=
  match items with
  | [] => []
  | [x] => x
  | x :: rest => x ++ sep ++ py_join sep rest
  end.

(** [_out is not None and len(_out) > 0]. *)
Definition has_output (_out : option text) : bool :=
  match _out with
  | Some o => (0 <? length o)%nat
  | None => false
  end.

(** [script.write(' '.join(cmd)); script.write('\n')] on the sink given
    as [script], if one is given. *)
Definition record_to (script : option text) (cmd : list text) : option text :=
  match script with
  | Some buffer => Some (buffer ++ py_join [SP] cmd ++ [LF])
  | None => None
  end.

(** The three adders return the pair [(code, message)]; here with the
    sink as they leave it. *)
Definition add_static_ip_route (h : host) (args : list text) (script : option text)
    : (Z * pystring) * option text :=
  let routing_cmd := [txt "/usr/sbin/ip"; txt "route"; txt "add"] ++ args in
  let _out := call_output h routing_cmd in
  if has_output _out then ((1, Bytes (default [] _out)), script)
  else ((0, Str []), record_to script routing_cmd).

Definition add_static_ip_rule (h : host) (args : list text) (script : option text)
    : (Z * pystring) * option text :=
  let ip_rule_cmd := [txt "/usr/sbin/ip"; txt "rule"; txt "add"] ++ args in
  let _out := call_output h ip_rule_cmd in
  if has_output _out then ((1, Bytes (default [] _out)), script)
  else ((0, Str []), record_to script ip_rule_cmd).

Definition add_firewall_rule (h : host) (args : list text) (script : option text)
    : (Z * pystring) * option text :=
  let fw_rule_cmd := [txt "/usr/sbin/iptables"] ++ args in
  let _out := call_output h fw_rule_cmd in
  if has_output _out then ((1, Bytes (default [] _out)), script)
  else ((0, Str []), record_to script fw_rule_cmd).

Definition remove_firewall_rule (h : host) (args : list text) : Z * pystring :=
  let fw_rule_cmd := [txt "/usr/sbin/iptables"] ++ args in
  let _out := call_output h fw_rule_cmd in
  if has_output _out then (1, Bytes (default [] _out))
  else (0, Str []).

(** ** The removal of routes and rules *)

(** [bytes.split()] with no separator. *)
Fixpoint bytes_split (s : text) : list text :=
  match s with
  | [] => []
  | c :: s' =>
      if is_bspace c then bytes_split s'
      else match s' with
           | [] => [[c]]
           | d :: _ =>
               if is_bspace d then [c] :: bytes_split s'
               else match bytes_split s' with
                    | t :: ts => (c :: t) :: ts
                    | [] => [[c]]
                    end
           end
  end.

(** [x.split()]. *)
Definition pystring_split (x : pystring) : list pystring :=
  match x with
  | Str s => map Str (py_split s)
  | Bytes b => map Bytes (bytes_split b)
  end.

(** [x[:-1]]. *)
Definition pystring_removelast (x : pystring) : pystring :=
  match x with
  | Str s => Str (removelast s)
  | Bytes b => Bytes (removelast b)
  end.

(** The lines a listing command gives: those of its output, and none
    when the command fails ([CalledProcessError] is passed over). *)
Definition listing (h : host) (cmd : list text) : list pystring :=
  match check_output h cmd with
  | Some out => map Bytes (bytes_splitlines out)
  | None => []
  end.

(** The loop of [remove_static_ip_routes] (lines 443-448), with the
    commands given to [sudo_utils.call_output] so far. *)
Fixpoint remove_routes_loop (_lines : list pystring) (issued : list (list text))
    : outcome unit * list (list text) :=
  match _lines with
  | [] => (Return (), issued)
  | _line :: rest =>
      match split_by_space_str (pystring_strip _line) with
      | Raise e => (Raise e, issued)
      | Return ents =>
          let _command := [txt "/sbin/ip"; txt "route"; txt "del"] ++ ents in
          remove_routes_loop rest (issued ++ [_command])
      end
  end.

Definition remove_static_ip_routes (h : host) (link_name : text)
    : outcome unit * list (list text) :=
  let _lines :=
    listing h [txt "/sbin/ip"; txt "route"; txt "show"; txt "dev"; link_name] in
  remove_routes_loop _lines [].

(** [re.compile(pattern).split(s)] on a string, for the pattern of line
    605 (a decimal digit, a colon, a tab): [s] cut at every match. *)
Definition is_digit_char (c : ascii) : bool :=
  let n := nat_of_ascii c in ((48 <=? n) && (n <=? 57))%nat.

Fixpoint re_split_digit_colon_tab (s : text) : list text :=
  match s with
  | [] => [[]]
  | c :: s' =>
      let keep :=
        match re_split_digit_colon_tab s' with
        | l :: ls => (c :: l) :: ls
        | [] => [[c]]
        end in
      match s' with
      | c2 :: c3 :: s'' =>
          if is_digit_char c && bool_decide (c2 = COLON) && bool_decide (c3 = TAB)
          then [] :: re_split_digit_colon_tab s''
          else keep
      | _ => keep
      end
  end.

(** The same call on any line: a string pattern cannot be used on a
    bytes object. *)
Definition re_split_line (_line : pystring) : outcome (list text) :=
  match _line with
  | Str s => Return (re_split_digit_colon_tab s)
  | Bytes _ => Raise TypeError
  end.

(** [s.replace(old, new)] for a non-empty [old]; [fuel] bounds the
    number of characters still to look at. *)
Fixpoint replace_from (fuel : nat) (old new s : text) : text :=
  match fuel with
  | O => s
  | S fuel' =>
      if startswith old s then new ++ replace_from fuel' old new (drop (length old) s)
      else match s with
           | [] => []
           | c :: s' => c :: replace_from fuel' old new s'
           end
  end.

Definition py_replace (old new s : text) : text := replace_from (length s) old new s.

(** The loop of [remove_static_ip_rules] (lines 600-608), with the
    commands given to [sudo_utils.call_output] so far. *)
Fixpoint remove_rules_loop (_lines : list pystring) (issued : list (list text))
    : outcome unit * list (list text) :=
  match _lines with
  | [] => (Return (), issued)
  | _line :: rest =>
      match
        (parts ← re_split_line (pystring_strip _line);
         rule ← or_raise IndexError (parts !! 1%nat);
         Return (split_on SP (py_replace (txt "[detached] ") [] rule)))
      with
      | Raise e => (Raise e, issued)
      | Return ents =>
          let _command := [txt "/sbin/ip"; txt "rule"; txt "del"] ++ ents in
          remove_rules_loop rest (issued ++ [_command])
      end
  end.

Definition remove_static_ip_rules (h : host) (link_name : text)
    : outcome unit * list (list text) :=
  let _lines :=
    listing h [txt "/sbin/ip"; txt "rule"; txt "show"; txt "lookup"; link_name] in
  remove_rules_loop _lines [].

(** The comprehension and the loop of [remove_ip_addr_rules] (lines
    571-580): the lines that have [ip_addr] among their tokens, the
    first token of each without its last character, and one command for
    each. *)
Definition rule_matches (ip_addr : pystring) (_lines : list pystring) : list pystring :=
  List.filter (fun _line => bool_decide (ip_addr ∈ pystring_split _line)) _lines.

Fixpoint prio_nums (_matches : list pystring) : outcome (list pystring) :=
  match _matches with
  | [] => Return []
  | _l :: rest =>
      first ← or_raise IndexError (head (pystring_split _l));
      ps ← prio_nums rest;
      Return (pystring_removelast first :: ps)
  end.

Definition remove_ip_addr_rules (h : host) (ip_addr : pystring)
    : outcome unit * list (list text) :=
  let _lines := listing h [txt "/sbin/ip"; txt "rule"; txt "list"] in
  let _matches := rule_matches ip_addr _lines in
  match prio_nums _matches with
  | Raise e => (Raise e, [])
  | Return nums =>
      (Return (),
       map (fun prio_num => [txt "/sbin/ip"; txt "rule"; txt "del"; txt "pref";
                             payload prio_num]) nums)
  end.

(** A host whose rule listing has two rules from [10.0.0.5]. *)
Definition rules_host : host :=
  Host
    (fun _ => None)
    (lookup_cmd
       [ ([txt "/sbin/ip"; txt "rule"; txt "list"],
          txt "0:" ++ [TAB] ++ txt "from all lookup local" ++ [LF]
          ++ txt "32765:" ++ [TAB] ++ txt "from 10.0.0.5 lookup ort3" ++ [LF]
          ++ txt "32766:" ++ [TAB] ++ txt "from all lookup main" ++ [LF]);
         ([txt "/sbin/ip"; txt "route"; txt "show"; txt "dev"; txt "ens3"],
          txt "default via 10.0.0.1" ++ [LF]) ])
    (fun _ => Raise JSONDecodeError)
    no_network
    (fun _ => None) (fun _ => None) (fun _ => None).

(** A host on which every command prints nothing but [iptables], which
    complains. *)
Definition iptables_fails_host : host :=
  Host
    (fun cmd => if bool_decide (head cmd = Some (txt "/usr/sbin/iptables"))
                then Some (txt "iptables: No chain/target/match by that name.")
                else Some [])
    (fun _ => None)
    (fun _ => Raise JSONDecodeError)
    no_network
    (fun _ => None) (fun _ => None) (fun _ => None).

(** A file system with nothing in it. *)
Definition bare_world (outcomes : list attempt) : nm_world :=
  NmWorld (World ∅ outcomes []) [].

(** Vocabulary: the sink [after] is the sink [before] with one more
    line, which splits at its spaces into the command [cmd]. *)
Definition replayable (cmd : list text) (before after : option text) : Prop :=
  ∀ buffer, before = Some buffer →
    ∃ line, after = Some (buffer ++ line ++ [LF])
            ∧ (LF ∉ line)
            ∧ split_on SP line = cmd.

(** * Properties *)

(** ** The model on small inputs *)

Example py_split_sample :
  py_split (txt "  255" ++ [TAB] ++ txt "local  x " ++ [LF])
  = [txt "255"; txt "local"; txt "x"].
Proof. reflexivity. Qed.

Example readlines_sample :
  readlines (txt "a" ++ [CR; LF] ++ txt "b" ++ [LF; LF] ++ txt "c")
  = [txt "a" ++ [LF]; txt "b" ++ [LF]; [LF]; txt "c"].
Proof. reflexivity. Qed.

Example py_int_samples :
  py_int (txt "007") = Return 7
  ∧ py_int (txt "-1") = Return (-1)
  ∧ py_int (txt "1_0") = Return 10
  ∧ py_int (txt "#1") = Raise ValueError
  ∧ py_int (txt "") = Raise ValueError.
Proof. repeat split; reflexivity. Qed.

Example bytes_repr_sample :
  py_str (Bytes (txt "vf 0 MAC" ++ [TAB])) = txt "b'vf 0 MAC" ++ [BACKSLASH] ++ txt "t'".
Proof. reflexivity. Qed.

Example table_line_sample :
  table_line 3 (txt "bar") = txt "3" ++ [TAB] ++ txt "bar" ++ [LF].
Proof. reflexivity. Qed.

Example free_table_num_samples :
  free_table_num [255; 254; 253; 0] = 1 ∧ free_table_num [] = 0.
Proof. split; reflexivity. Qed.

(** ** The prefix/mask utility *)

Section PrefixToMask.

Lemma prefix_in_range (prefix : Z) :
  0 ≤ prefix ≤ 32 → prefix ∈ seqZ 0 33.
Proof. intros H. apply elem_of_seqZ; lia. Qed.

(** The shifted one is a power of two, so the value the code packs is
    the value the specification names. *)
Lemma mask_bits_value (prefix : Z) :
  0 ≤ prefix ≤ 32 →
  py_shiftl 1 (32 - prefix) = Return (2 ^ (32 - prefix)).
Proof.
  intros H. unfold py_shiftl.
  destruct (32 - prefix <? 0) eqn:E; [apply Z.ltb_lt in E; lia|].
  by rewrite Z.shiftl_1_l.
Qed.

Lemma cidr_mask_value_range (prefix : Z) :
  0 ≤ prefix ≤ 32 → 0 ≤ cidr_mask_value prefix ≤ 0xffffffff.
Proof.
  intros H. unfold cidr_mask_value.
  set (b := 2 ^ (32 - prefix) - 1).
  assert (0 < 2 ^ (32 - prefix) ≤ 2 ^ 32) as Hp.
  { split; [apply Z.pow_pos_nonneg; lia|apply Z.pow_le_mono_r; lia]. }
  assert (0 ≤ b < 2 ^ 32) as Hb by (unfold b; lia).
  assert (0 ≤ Z.lxor (2 ^ 32 - 1) b) as Hnn by (apply Z.lxor_nonneg; lia).
  split; [done|].
  destruct (decide (Z.lxor (2 ^ 32 - 1) b = 0)) as [->|Hne]; [done|].
  enough (Z.lxor (2 ^ 32 - 1) b < 2 ^ 32) by lia.
  apply Z.log2_lt_pow2; [lia|].
  pose proof (Z.log2_lxor (2 ^ 32 - 1) b ltac:(lia) ltac:(lia)) as Hl.
  assert (Z.log2 (2 ^ 32 - 1) = 31) as E by reflexivity.
  assert (Z.log2 b < 32).
  { destruct (decide (b = 0)) as [->|Hb0]; [done|].
    apply Z.log2_lt_pow2; lia. }
  lia.
Qed.

(** Shifting and masking, as [pack] does, picks the big-endian octets. *)
Lemma pack_be_I_octets (v : Z) :
  0 ≤ v ≤ 0xffffffff →
  pack_be_I v = Return [octet v 0; octet v 1; octet v 2; octet v 3].
Proof.
  intros H. unfold pack_be_I.
  destruct (0 <=? v) eqn:E1; [|apply Z.leb_gt in E1; lia].
  destruct (v <=? 0xffffffff) eqn:E2; [|apply Z.leb_gt in E2; lia].
  simpl. unfold octet. change 255 with (Z.ones 8).
  rewrite !Z.land_ones, !Z.shiftr_div_pow2 by lia.
  repeat f_equal. change (256 ^ (3 - 3)) with 1. by rewrite Z.div_1_r.
Qed.

(** The mask has exactly its [prefix] leading bits set. *)
Lemma cidr_mask_value_bits (prefix i : Z) :
  0 ≤ prefix ≤ 32 → 0 ≤ i < 32 →
  Z.testbit (cidr_mask_value prefix) i = (32 - prefix <=? i).
Proof.
  intros Hp Hi. unfold cidr_mask_value.
  rewrite !Z.sub_1_r, <- !Z.ones_equiv, Z.lxor_spec.
  rewrite !Z.testbit_ones_nonneg by lia.
  destruct (i <? 32) eqn:E1; [|apply Z.ltb_ge in E1; lia].
  destruct (i <? 32 - prefix) eqn:E2, (32 - prefix <=? i) eqn:E3; try done.
  - apply Z.ltb_lt in E2. apply Z.leb_le in E3. lia.
  - apply Z.ltb_ge in E2. apply Z.leb_gt in E3. lia.
Qed.

End PrefixToMask.

(** C4.  For every prefix length from 0 to 32, [network_prefix_to_mask]
    returns the canonical dotted-quad netmask: the big-endian rendering of
    0xffffffff XOR (2^(32-prefix) - 1), a 32-bit value whose set bits are
    exactly the [prefix] leading ones.  In particular 22, 24, 32 and 0 give
    255.255.252.0, 255.255.255.0, 255.255.255.255 and 0.0.0.0. *)
Theorem network_prefix_to_mask_canonical (prefix : Z) :
  0 ≤ prefix ≤ 32 →
  network_prefix_to_mask prefix = Return (render_be (cidr_mask_value prefix))
  ∧ 0 ≤ cidr_mask_value prefix < 2 ^ 32
  ∧ (∀ i, 0 ≤ i < 32 → Z.testbit (cidr_mask_value prefix) i = (32 - prefix <=? i))
  ∧ network_prefix_to_mask 22 = Return (txt "255.255.252.0")
  ∧ network_prefix_to_mask 24 = Return (txt "255.255.255.0")
  ∧ network_prefix_to_mask 32 = Return (txt "255.255.255.255")
  ∧ network_prefix_to_mask 0 = Return (txt "0.0.0.0").
Proof.
  intros H. pose proof (cidr_mask_value_range prefix H) as Hr.
  split; [|split; [|split]].
  - unfold network_prefix_to_mask. rewrite mask_bits_value by done. simpl.
    change (Z.lxor 4294967295 (2 ^ (32 - prefix) - 1)) with (cidr_mask_value prefix).
    rewrite pack_be_I_octets by done. reflexivity.
  - change (2 ^ 32) with 4294967296. lia.
  - intros i Hi. by apply cidr_mask_value_bits.
  - repeat split; vm_compute; reflexivity.
Qed.

Lemma network_prefix_to_mask_canonical_witness :
  network_prefix_to_mask 22 = Return (render_be (cidr_mask_value 22)).
Proof. apply (network_prefix_to_mask_canonical 22). lia. Defined.

(** ** Facts about the string methods *)

Section TextFacts.

Lemma concat_split_keepends (s : text) : concat (split_keepends s) = s.
Proof.
  induction s as [|c s IH]; [done|]. simpl.
  case_bool_decide; simpl; [by rewrite IH|].
  destruct (split_keepends s) as [|l ls] eqn:E; simpl in *.
  - by rewrite <- IH.
  - by rewrite <- IH.
Qed.

Lemma split_keepends_nil_inv (s : text) : split_keepends s = [] → s = [].
Proof.
  destruct s as [|c s]; [done|]. simpl.
  case_bool_decide; [done|]. by destruct (split_keepends s).
Qed.

(** A text that ends a line can be split before what follows it. *)
Lemma split_keepends_app (a b : text) :
  newline_terminated a →
  split_keepends (a ++ b) = split_keepends a ++ split_keepends b.
Proof.
  induction a as [|c a IH]; [done|]. intros [Hnil|Hlast]; [done|]. simpl.
  case_bool_decide as Hc.
  - simpl. f_equal. apply IH. destruct a as [|d a]; [by left|by right].
  - destruct a as [|d a].
    + simpl in Hlast. congruence.
    + rewrite IH by (by right).
      destruct (split_keepends (d :: a)) as [|l ls] eqn:E; [|done].
      by apply split_keepends_nil_inv in E.
Qed.

Lemma split_keepends_one_line (s : text) :
  LF ∉ s → split_keepends (s ++ [LF]) = [s ++ [LF]].
Proof.
  induction s as [|c s IH]; intros Hs; simpl.
  - reflexivity.
  - rewrite bool_decide_eq_false_2 by (intros ->; apply Hs; left).
    rewrite IH; [done|]. intros ?. apply Hs. by right.
Qed.

Lemma universal_newlines_id (s : text) : CR ∉ s → universal_newlines s = s.
Proof.
  induction s as [|c s IH]; [done|]. intros Hs. simpl.
  rewrite bool_decide_eq_false_2 by (intros ->; apply Hs; left).
  f_equal. apply IH. intros ?. apply Hs. by right.
Qed.

(** Without carriage returns, the lines read are the file, cut. *)
Lemma concat_readlines (s : text) : CR ∉ s → concat (readlines s) = s.
Proof.
  intros Hs. unfold readlines.
  by rewrite universal_newlines_id, concat_split_keepends.
Qed.

Lemma py_split_space (c : ascii) (s : text) :
  is_space c = true → py_split (c :: s) = py_split s.
Proof. intros H. simpl. by rewrite H. Qed.

(** A run of non-blank characters followed by a blank is the first
    token. *)
Lemma py_split_word (w : text) (c : ascii) (s : text) :
  w ≠ [] → Forall (fun x => is_space x = false) w → is_space c = true →
  py_split (w ++ c :: s) = w :: py_split s.
Proof.
  intros Hne Hw Hc. induction w as [|x w IH]; [done|].
  apply Forall_cons in Hw as [Hx Hw].
  destruct w as [|y w].
  - simpl. by rewrite Hx, Hc.
  - specialize (IH ltac:(done) Hw).
    change ((x :: y :: w) ++ c :: s) with (x :: ((y :: w) ++ c :: s)).
    cbn [py_split]. rewrite Hx.
    change ((y :: w) ++ c :: s) with (y :: (w ++ c :: s)) in *.
    apply Forall_cons in Hw as [Hy _].
    cbn iota. rewrite Hy, IH. done.
Qed.

Lemma py_split_blank (s : text) :
  Forall (fun x => is_space x = true) s → py_split s = [].
Proof.
  induction 1 as [|c s Hc _ IH]; [done|]. by rewrite py_split_space.
Qed.

Lemma lstrip_id (s : text) :
  Forall (fun x => is_space x = false) s → lstrip s = s.
Proof. destruct 1 as [|c s Hc _]; [done|]. simpl. by rewrite Hc. Qed.

Lemma py_strip_id (s : text) :
  Forall (fun x => is_space x = false) s → py_strip s = s.
Proof.
  intros H. unfold py_strip. rewrite (lstrip_id s H).
  rewrite lstrip_id by (by apply Forall_rev). apply rev_involutive.
Qed.

End TextFacts.

(** ** Decimal rendering and [int()] *)

Section DecimalFacts.

Lemma digit_not_space (c : ascii) : is_digit c → is_space c = false.
Proof.
  destruct c as [[] [] [] [] [] [] [] []]; intros [d Hd];
    try reflexivity; vm_compute in Hd; discriminate.
Qed.

Lemma uint_chars_digits (d : Decimal.uint) :
  Forall is_digit (txt (NilEmpty.string_of_uint d)).
Proof.
  induction d; simpl; [constructor|..];
    (constructor; [by eexists|done]).
Qed.

(** Reading back the digits of an unsigned decimal. *)
Lemma parse_digits_uint (d : Decimal.uint) (b : bool) :
  parse_digits b (txt (NilEmpty.string_of_uint d)) =
  match d with
  | Decimal.Nil => if b then Some Decimal.Nil else None
  | _ => Some d
  end.
Proof.
  revert b. induction d; intros b; [done|..];
    (simpl; rewrite IHd; by destruct d).
Qed.

Lemma parse_digits_nilzero (d : Decimal.uint) :
  ∃ d', parse_digits false (txt (NilZero.string_of_uint d)) = Some d'
        ∧ Z.of_uint d' = Z.of_uint d.
Proof.
  destruct d; [by eexists|..];
    match goal with
    | |- context [NilZero.string_of_uint ?x] =>
        exists x; split; [exact (parse_digits_uint x false)|done]
    end.
Qed.

Lemma nilzero_chars (d : Decimal.uint) :
  ∃ c s, txt (NilZero.string_of_uint d) = c :: s ∧ Forall is_digit (c :: s).
Proof.
  destruct d; [eexists _, _; split; [done|by repeat constructor; eexists]|..];
    match goal with
    | |- context [NilZero.string_of_uint ?x] =>
        eexists _, _; split; [done|exact (uint_chars_digits x)]
    end.
Qed.

(** What ['%d'] renders is a non-empty run of non-blank characters. *)
Lemma fmt_d_token (z : Z) :
  fmt_d z ≠ [] ∧ Forall (fun c => is_space c = false) (fmt_d z).
Proof.
  unfold fmt_d. destruct (Z.to_int z) as [d|d]; simpl.
  - destruct (nilzero_chars d) as (c & s & -> & Hd). split; [done|].
    eapply Forall_impl; [exact Hd|]. apply digit_not_space.
  - destruct (nilzero_chars d) as (c & s & -> & Hd). split; [done|].
    constructor; [done|]. eapply Forall_impl; [exact Hd|]. apply digit_not_space.
Qed.

(** [int] reads back what ['%d'] renders. *)
Lemma py_int_fmt_d (z : Z) : py_int (fmt_d z) = Return z.
Proof.
  unfold py_int. rewrite py_strip_id by apply fmt_d_token.
  rewrite <- (DecimalZ.of_to z) at 2. unfold fmt_d.
  destruct (Z.to_int z) as [d|d]; simpl.
  - destruct (parse_digits_nilzero d) as (d' & Hp & Hz).
    destruct (nilzero_chars d) as (c & s & Hcs & Hd). rewrite Hcs in *.
    apply Forall_cons in Hd as [[k Hk] _].
    rewrite !bool_decide_eq_false_2, Hp; simpl; [by rewrite Hz|..];
      intros ->; discriminate.
  - destruct (parse_digits_nilzero d) as (d' & Hp & Hz).
    rewrite Hp. simpl. by rewrite Hz.
Qed.

End DecimalFacts.

(** ** Facts about the registry editor *)

Section RegistryFacts.

Lemma rt_tables_neq : rt_tables ≠ rt_tables_bck.
Proof. discriminate. Qed.

(** The reading loop keeps every line. *)
Lemma scan_tables_lines (ls ls' : list text) (ns : list Z) :
  scan_tables ls = Return (ls', ns) → ls' = ls.
Proof.
  revert ls' ns. induction ls as [|l ls IH]; intros ls' ns; simpl.
  - by intros [= <- <-].
  - destruct (_ && _).
    + destruct (py_split l) as [|tok ?]; [done|].
      destruct (py_int tok); [|done]. simpl.
      destruct (scan_tables ls) as [[ls0 ns0]|]; [|done]. simpl.
      intros [= <- <-]. f_equal. by eapply IH.
    + destruct (scan_tables ls) as [[ls0 ns0]|]; [|done]. simpl.
      intros [= <- <-]. f_equal. by eapply IH.
Qed.

(** [find] over an ascending range stops at the least element that
    satisfies the test. *)
Lemma find_seqZ_least (f : Z → bool) (len : nat) (m : Z) :
  match List.find f (seqZ m (Z.of_nat len)) with
  | Some n => m ≤ n < m + Z.of_nat len ∧ f n = true ∧ ∀ k, m ≤ k < n → f k = false
  | None => ∀ k, m ≤ k < m + Z.of_nat len → f k = false
  end.
Proof.
  revert m. induction len as [|len IH]; intros m.
  - simpl. intros k Hk. lia.
  - rewrite Nat2Z.inj_succ, seqZ_cons by lia. simpl.
    destruct (f m) eqn:Hm.
    + split; [lia|]. split; [done|]. intros k Hk. lia.
    + replace (Z.pred (Z.succ (Z.of_nat len))) with (Z.of_nat len) by lia.
      specialize (IH (Z.succ m)).
      destruct (List.find f (seqZ (Z.succ m) (Z.of_nat len))) as [n|].
      * destruct IH as (Hn & Hfn & Hlt). split; [lia|]. split; [done|].
        intros k Hk. destruct (decide (k = m)) as [->|]; [done|]. apply Hlt. lia.
      * intros k Hk. destruct (decide (k = m)) as [->|]; [done|]. apply IH. lia.
Qed.

(** The number chosen is the least one in 0..254 that is not taken. *)
Lemma free_table_num_least (tables_num : list Z) :
  (∃ k, 0 ≤ k < 255 ∧ k ∉ tables_num) →
  0 ≤ free_table_num tables_num < 255
  ∧ (free_table_num tables_num ∉ tables_num)
  ∧ ∀ k, 0 ≤ k < free_table_num tables_num → k ∈ tables_num.
Proof.
  intros (k & Hk & Hfree). unfold free_table_num.
  pose proof (find_seqZ_least (fun n => bool_decide (n ∉ tables_num)) 255 0) as H.
  change (Z.of_nat 255) with 255 in H.
  destruct (List.find _ (seqZ 0 255)) as [n|].
  - destruct H as (Hn & Hfn & Hlt). split; [lia|]. split.
    + by apply bool_decide_eq_true in Hfn.
    + intros j Hj. specialize (Hlt j ltac:(lia)).
      apply bool_decide_eq_false in Hlt. by apply dec_stable.
  - specialize (H k ltac:(lia)). by apply bool_decide_eq_false in H.
Qed.

(** When every number of 0..254 is taken the code falls back on [-1]. *)
Lemma free_table_num_exhausted (tables_num : list Z) :
  (∀ k, 0 ≤ k < 255 → k ∈ tables_num) → free_table_num tables_num = -1.
Proof.
  intros Hall. unfold free_table_num.
  pose proof (find_seqZ_least (fun n => bool_decide (n ∉ tables_num)) 255 0) as H.
  change (Z.of_nat 255) with 255 in H.
  destruct (List.find _ (seqZ 0 255)) as [n|]; [|done].
  destruct H as (Hn & Hfn & _). apply bool_decide_eq_true in Hfn.
  destruct Hfn. apply Hall. lia.
Qed.

Lemma next_attempt_upcoming (w : world) :
  next_attempt w = (upcoming w 0, drop 1 (pending w)).
Proof. unfold next_attempt, upcoming. by destruct (pending w). Qed.

Lemma upcoming_drop (fs : gmap string text) (log : list sudo_op)
    (w : world) (k i : nat) :
  upcoming (World fs (drop k (pending w)) log) i = upcoming w (k + i).
Proof.
  unfold upcoming. cbn [pending]. revert k.
  induction (pending w) as [|a p IH]; intros k.
  - assert (∀ j, nth j ([] : list attempt) succeeds = succeeds) as Hn
      by (by intros []).
    by rewrite drop_nil, !Hn.
  - destruct k; [done|]. apply IH.
Qed.

Lemma io_bind_run {A B} (m : io A) (k : A → io B) (w w' : world) (a : A) :
  m w = (Return a, w') → (m ≫= k) w = k a w'.
Proof. intros H. unfold mbind, io_bind. by rewrite H. Qed.

(** One call of each helper, whatever the environment holds for it. *)
Lemma copy_file_run (src dst : string) (w : world) (c : text) :
  files w !! src = Some c →
  copy_file src dst w =
    (Return (rc (upcoming w 0)),
     World (if rc (upcoming w 0) =? 0 then <[dst := c]> (files w)
            else leave dst (residue (upcoming w 0)) (files w))
           (drop 1 (pending w))
           (journal w ++ [CopyFile src dst])).
Proof.
  intros Hc. unfold copy_file. rewrite next_attempt_upcoming, Hc.
  destruct (rc (upcoming w 0) =? 0) eqn:E; [|done].
  apply Z.eqb_eq in E. by rewrite E.
Qed.

Lemma write_to_file_run (path : string) (content : text) (w : world) :
  write_to_file path content w =
    (Return (rc (upcoming w 0)),
     World (if rc (upcoming w 0) =? 0 then <[path := content]> (files w)
            else leave path (residue (upcoming w 0)) (files w))
           (drop 1 (pending w))
           (journal w ++ [WriteToFile path content])).
Proof.
  unfold write_to_file. rewrite next_attempt_upcoming.
  destruct (rc (upcoming w 0) =? 0) eqn:E; [|done].
  apply Z.eqb_eq in E. by rewrite E.
Qed.

Lemma delete_file_run (path : string) (w : world) :
  delete_file path w =
    (Return 0,
     World (delete path (files w)) (pending w) (journal w ++ [DeleteFile path])).
Proof. reflexivity. Qed.

Lemma leave_lookup_ne (p q : string) (r : option text) (fs : gmap string text) :
  p ≠ q → leave p r fs !! q = fs !! q.
Proof.
  intros Hne. unfold leave. destruct r.
  - by rewrite lookup_insert_ne.
  - by rewrite lookup_delete_ne.
Qed.

Lemma leave_lookup_eq (p : string) (r : option text) (fs : gmap string text) :
  leave p r fs !! p = r.
Proof.
  unfold leave. destruct r.
  - by rewrite lookup_insert_eq.
  - by rewrite lookup_delete_eq.
Qed.

(** The three ways the backup, write, restore-or-delete steps can go,
    with the world each one leaves. *)
Lemma commit_backup_fails (ls : list text) (w : world) (c : text) :
  files w !! rt_tables = Some c →
  rc (upcoming w 0) ≠ 0 →
  commit_lines ls w =
    (Return false,
     World (leave rt_tables_bck (residue (upcoming w 0)) (files w))
           (drop 1 (pending w))
           (journal w ++ [CopyFile rt_tables rt_tables_bck])).
Proof.
  intros Hc H0. apply Z.eqb_neq in H0. unfold commit_lines.
  rewrite (io_bind_run _ _ _ _ _ (copy_file_run _ _ _ _ Hc)).
  by rewrite H0.
Qed.

Lemma commit_write_fails (ls : list text) (w : world) (c : text) :
  files w !! rt_tables = Some c →
  rc (upcoming w 0) = 0 →
  rc (upcoming w 1) ≠ 0 →
  commit_lines ls w =
    (Return false,
     World (let fs := leave rt_tables (residue (upcoming w 1))
                        (<[rt_tables_bck := c]> (files w)) in
            if rc (upcoming w 2) =? 0 then <[rt_tables := c]> fs
            else leave rt_tables (residue (upcoming w 2)) fs)
           (drop 3 (pending w))
           (journal w ++ [CopyFile rt_tables rt_tables_bck;
                          WriteToFile rt_tables (concat ls);
                          CopyFile rt_tables_bck rt_tables])).
Proof.
  intros Hc H0 H1. apply Z.eqb_eq in H0. apply Z.eqb_neq in H1.
  unfold commit_lines.
  rewrite (io_bind_run _ _ _ _ _ (copy_file_run _ _ _ _ Hc)).
  rewrite H0. cbn [negb].
  rewrite (io_bind_run _ _ _ _ _ (write_to_file_run _ _ _)).
  rewrite (upcoming_drop _ _ w 1 0). cbn [Nat.add files pending journal].
  rewrite H1. cbn [negb].
  erewrite io_bind_run; cycle 1.
  { apply copy_file_run. cbn [files].
    rewrite leave_lookup_ne by apply rt_tables_neq.
    apply lookup_insert_eq. }
  cbn [files pending journal]. rewrite !drop_drop. cbn [Nat.add].
  rewrite (upcoming_drop _ _ w 2 0), <- !(assoc_L (++)). reflexivity.
Qed.

Lemma commit_succeeds (ls : list text) (w : world) (c : text) :
  files w !! rt_tables = Some c →
  rc (upcoming w 0) = 0 →
  rc (upcoming w 1) = 0 →
  commit_lines ls w =
    (Return true,
     World (delete rt_tables_bck
              (<[rt_tables := concat ls]> (<[rt_tables_bck := c]> (files w))))
           (drop 2 (pending w))
           (journal w ++ [CopyFile rt_tables rt_tables_bck;
                          WriteToFile rt_tables (concat ls);
                          DeleteFile rt_tables_bck])).
Proof.
  intros Hc H0 H1. apply Z.eqb_eq in H0. apply Z.eqb_eq in H1.
  unfold commit_lines.
  rewrite (io_bind_run _ _ _ _ _ (copy_file_run _ _ _ _ Hc)).
  rewrite H0. cbn [negb].
  rewrite (io_bind_run _ _ _ _ _ (write_to_file_run _ _ _)).
  rewrite (upcoming_drop _ _ w 1 0). cbn [Nat.add files pending journal].
  rewrite H1. cbn [negb].
  rewrite (io_bind_run _ _ _ _ _ (delete_file_run _ _)).
  cbn [files pending journal]. rewrite !drop_drop. cbn [Nat.add].
  rewrite <- !(assoc_L (++)). reflexivity.
Qed.

End RegistryFacts.

(** ** The route-table registry editor *)

Section RegistryEditor.

Lemma open_readlines_run (w : world) (c : text) :
  files w !! rt_tables = Some c →
  open_readlines rt_tables w = (Return (readlines c), w).
Proof. intros Hc. unfold open_readlines. by rewrite Hc. Qed.

(** [add_route_table] is the reading loop followed by the commit of the
    lines read and the new entry. *)
Lemma add_route_table_run (table_name : text) (w : world) (c : text)
    (ls : list text) (nums : list Z) :
  files w !! rt_tables = Some c →
  scan_tables (readlines c) = Return (ls, nums) →
  add_route_table table_name w =
    commit_lines (readlines c ++ [table_line (free_table_num nums) table_name]) w.
Proof.
  intros Hc Hs. unfold add_route_table.
  rewrite (io_bind_run _ _ _ _ _ (open_readlines_run _ _ Hc)).
  unfold mbind at 1, io_bind, lift. rewrite Hs.
  by rewrite (scan_tables_lines _ _ _ Hs).
Qed.

Lemma add_route_table_raises (table_name : text) (w : world) (c : text) (e : exn) :
  files w !! rt_tables = Some c →
  scan_tables (readlines c) = Raise e →
  add_route_table table_name w = (Raise e, w).
Proof.
  intros Hc Hs. unfold add_route_table.
  rewrite (io_bind_run _ _ _ _ _ (open_readlines_run _ _ Hc)).
  unfold mbind at 1, io_bind, lift. by rewrite Hs.
Qed.

Lemma delete_route_table_run (table_name : text) (w : world) (c : text) :
  files w !! rt_tables = Some c →
  delete_route_table table_name w =
    commit_lines
      (List.filter (fun line => negb (names_table table_name line)) (readlines c)) w.
Proof.
  intros Hc. unfold delete_route_table.
  by rewrite (io_bind_run _ _ _ _ _ (open_readlines_run _ _ Hc)).
Qed.

(** Both editors either raise before touching anything or commit some
    list of lines. *)
Lemma edit_commits (edit : text → io bool) (table_name : text)
    (w : world) (c : text) :
  edit = add_route_table ∨ edit = delete_route_table →
  files w !! rt_tables = Some c →
  (∃ e, edit table_name w = (Raise e, w))
  ∨ (∃ ls, edit table_name w = commit_lines ls w).
Proof.
  intros [-> | ->] Hc.
  - destruct (scan_tables (readlines c)) as [[ls nums]|e] eqn:Hs.
    + right. eexists. by eapply add_route_table_run.
    + left. exists e. by eapply add_route_table_raises.
  - right. eexists. by apply delete_route_table_run.
Qed.

Lemma commit_lines_cases (ls : list text) (w : world) (c : text) :
  files w !! rt_tables = Some c →
  ∃ b w', commit_lines ls w = (Return b, w')
    ∧ (rc (upcoming w 0) ≠ 0 →
         b = false ∧ files w' !! rt_tables = Some c
         ∧ journal w' = journal w ++ [CopyFile rt_tables rt_tables_bck])
    ∧ (rc (upcoming w 0) = 0 → rc (upcoming w 1) ≠ 0 →
         b = false
         ∧ files w' !! rt_tables_bck = Some c
         ∧ (rc (upcoming w 2) = 0 → files w' !! rt_tables = Some c)
         ∧ journal w' = journal w ++ [CopyFile rt_tables rt_tables_bck;
                                      WriteToFile rt_tables (concat ls);
                                      CopyFile rt_tables_bck rt_tables])
    ∧ (rc (upcoming w 0) = 0 → rc (upcoming w 1) = 0 →
         b = true
         ∧ files w' !! rt_tables = Some (concat ls)
         ∧ files w' !! rt_tables_bck = None
         ∧ journal w' = journal w ++ [CopyFile rt_tables rt_tables_bck;
                                      WriteToFile rt_tables (concat ls);
                                      DeleteFile rt_tables_bck]).
Proof.
  intros Hc.
  destruct (decide (rc (upcoming w 0) = 0)) as [H0|H0];
    [destruct (decide (rc (upcoming w 1) = 0)) as [H1|H1]|].
  - eexists _, _. split; [exact (commit_succeeds ls w c Hc H0 H1)|].
    split; [done|]. split; [done|]. intros _ _. cbn [files journal].
    split; [done|]. split; [|split; [|done]].
    + rewrite lookup_delete_ne by (symmetry; apply rt_tables_neq).
      apply lookup_insert_eq.
    + apply lookup_delete_eq.
  - eexists _, _. split; [exact (commit_write_fails ls w c Hc H0 H1)|].
    split; [done|]. split; [|done]. intros _ _. cbn [files journal].
    split; [done|]. split; [|split; [|done]].
    + destruct (rc (upcoming w 2) =? 0).
      * rewrite lookup_insert_ne by apply rt_tables_neq.
        rewrite leave_lookup_ne by apply rt_tables_neq. apply lookup_insert_eq.
      * rewrite !leave_lookup_ne by apply rt_tables_neq. apply lookup_insert_eq.
    + intros ->. cbn. apply lookup_insert_eq.
  - eexists _, _. split; [exact (commit_backup_fails ls w c Hc H0)|].
    split; [|done]. intros _. cbn [files journal].
    split; [done|]. split; [|done].
    by rewrite leave_lookup_ne by (symmetry; apply rt_tables_neq).
Qed.

End RegistryEditor.

(** C1 (as stated).  With the backup done, the write failing and the
    restoring copy failing as well, the live file is not what it was:
    the status of the restoring copy is not looked at. *)
Lemma restore_invariant_fails_when_restore_fails :
  ¬ restore_invariant (delete_route_table (txt "bar"))
      (registry_of one_entry write_and_restore_fail).
Proof.
  intros H.
  destruct (H one_entry false
              (delete_route_table (txt "bar")
                 (registry_of one_entry write_and_restore_fail)).2
              ltac:(by vm_compute) ltac:(by vm_compute)) as (_ & Hw & _).
  destruct (Hw ltac:(done) ltac:(done)) as [_ Hlive].
  vm_compute in Hlive. discriminate.
Qed.

(** C1 (amended).  For [add_route_table] and [delete_route_table]: a call
    that raises touches nothing; if the backup copy fails the function
    returns False after that one step and the live file is unchanged; if
    the backup succeeds and the write fails, the restoring copy is made,
    the function returns False, and the live file has its content from
    before the call provided that the restoring copy succeeds; True is
    returned exactly when the backup and the write both succeed. *)
Theorem registry_edit_restores (edit : text → io bool) (table_name : text)
    (w : world) (c : text) :
  edit = add_route_table ∨ edit = delete_route_table →
  files w !! rt_tables = Some c →
  match edit table_name w with
  | (Raise _, w') => w' = w
  | (Return b, w') =>
      (rc (upcoming w 0) ≠ 0 →
         b = false ∧ files w' !! rt_tables = Some c
         ∧ journal w' = journal w ++ [CopyFile rt_tables rt_tables_bck])
      ∧ (rc (upcoming w 0) = 0 → rc (upcoming w 1) ≠ 0 →
           b = false
           ∧ last (journal w') = Some (CopyFile rt_tables_bck rt_tables)
           ∧ (rc (upcoming w 2) = 0 → files w' !! rt_tables = Some c))
      ∧ (b = true ↔ rc (upcoming w 0) = 0 ∧ rc (upcoming w 1) = 0)
  end.
Proof.
  intros Hedit Hc.
  destruct (edit_commits edit table_name w c Hedit Hc) as [[e ->]|[ls ->]]; [done|].
  destruct (commit_lines_cases ls w c Hc) as (b & w' & -> & Hb & Hw & Hok).
  split; [|split].
  - intros H0. by destruct (Hb H0) as (-> & ? & ?).
  - intros H0 H1. destruct (Hw H0 H1) as (-> & _ & Hlive & Hj).
    split; [done|]. split; [|done]. rewrite Hj.
    by rewrite last_app.
  - split.
    + intros ->.
      destruct (decide (rc (upcoming w 0) = 0)) as [H0|H0];
        [|by destruct (Hb H0)].
      destruct (decide (rc (upcoming w 1) = 0)) as [H1|H1]; [done|].
      by destruct (Hw H0 H1).
    + intros [H0 H1]. by destruct (Hok H0 H1).
Qed.

Lemma registry_edit_restores_witness :
  match delete_route_table (txt "bar") (registry_of one_entry write_fails) with
  | (Raise _, _) => False
  | (Return b, w') => b = false ∧ files w' !! rt_tables = Some one_entry
  end.
Proof.
  pose proof (registry_edit_restores delete_route_table (txt "bar")
                (registry_of one_entry write_fails) one_entry
                (or_intror eq_refl) ltac:(by vm_compute)) as H.
  destruct (delete_route_table (txt "bar") (registry_of one_entry write_fails))
    as [[b|e] w'] eqn:E.
  - destruct H as (_ & Hw & _).
    destruct (Hw ltac:(done) ltac:(done)) as (-> & _ & Hlive).
    split; [done|]. by apply Hlive.
  - vm_compute in E. discriminate.
Defined.

(** C9.  In [add_route_table] and [delete_route_table] the backup file is
    deleted on the success path only: the helper call that deletes it is
    made exactly when the function returns True; after a call in which
    the write fails the backup file holds the content the registry had
    before the call, whatever becomes of the restoring copy; and after a
    call in which the backup and the write both succeed the backup file
    no longer exists. *)
Theorem backup_deleted_on_success_only (edit : text → io bool) (table_name : text)
    (w w' : world) (c : text) (b : bool) :
  edit = add_route_table ∨ edit = delete_route_table →
  files w !! rt_tables = Some c →
  edit table_name w = (Return b, w') →
  (rc (upcoming w 0) = 0 → rc (upcoming w 1) ≠ 0 →
     files w' !! rt_tables_bck = Some c)
  ∧ (rc (upcoming w 0) = 0 → rc (upcoming w 1) = 0 →
       files w' !! rt_tables_bck = None)
  ∧ (∃ ops, journal w' = journal w ++ ops
            ∧ (DeleteFile rt_tables_bck ∈ ops ↔ b = true)).
Proof.
  intros Hedit Hc Hrun.
  destruct (edit_commits edit table_name w c Hedit Hc) as [[e He]|[ls Hls]];
    [congruence|].
  rewrite Hls in Hrun.
  destruct (commit_lines_cases ls w c Hc) as (b0 & w0 & Hrun0 & Hb & Hw & Hok).
  rewrite Hrun in Hrun0. injection Hrun0 as <- <-.
  split; [|split].
  - intros H0 H1. by destruct (Hw H0 H1) as (_ & ? & _).
  - intros H0 H1. by destruct (Hok H0 H1) as (_ & _ & Hgone & _).
  - destruct (decide (rc (upcoming w 0) = 0)) as [H0|H0];
      [destruct (decide (rc (upcoming w 1) = 0)) as [H1|H1]|].
    + destruct (Hok H0 H1) as (-> & _ & _ & Hj). eexists. split; [exact Hj|].
      split; [done|]. intros _. rewrite !elem_of_cons. auto.
    + destruct (Hw H0 H1) as (-> & _ & _ & Hj). eexists. split; [exact Hj|].
      split; [|done]. intros Hin.
      apply elem_of_cons in Hin as [?|Hin]; [done|].
      apply elem_of_cons in Hin as [?|Hin]; [done|].
      apply elem_of_cons in Hin as [Heq|Hin]; [done|].
      by apply elem_of_nil in Hin.
    + destruct (Hb H0) as (-> & _ & Hj). eexists. split; [exact Hj|].
      split; [|done]. intros Hin.
      apply elem_of_cons in Hin as [?|Hin]; [done|].
      by apply elem_of_nil in Hin.
Qed.

Lemma backup_deleted_on_success_only_witness :
  files (add_route_table (txt "bar") (registry_of one_entry [])).2 !! rt_tables_bck = None
  ∧ files (add_route_table (txt "bar") (registry_of one_entry write_fails)).2
      !! rt_tables_bck = Some one_entry.
Proof.
  split.
  - refine (proj1 (proj2 (backup_deleted_on_success_only add_route_table (txt "bar")
                    (registry_of one_entry []) _ one_entry true
                    (or_introl eq_refl) _ _)) _ _); by vm_compute.
  - refine (proj1 (backup_deleted_on_success_only add_route_table (txt "bar")
                    (registry_of one_entry write_fails) _ one_entry false
                    (or_introl eq_refl) _ _) _ _); by vm_compute.
Defined.

Section RegistryLines.

Lemma names_table_spec (table_name line : text) :
  names_table table_name line = true ↔ second_token_is table_name line.
Proof.
  unfold names_table, second_token_is. split.
  - destruct (py_split line) as [|t0 [|t1 rest]]; [done..|].
    intros ->%bool_decide_eq_true. by eexists _, _.
  - intros (t0 & rest & ->). by apply bool_decide_eq_true.
Qed.

Lemma commit_lines_true (ls : list text) (w w' : world) (c : text) :
  files w !! rt_tables = Some c →
  commit_lines ls w = (Return true, w') →
  files w' !! rt_tables = Some (concat ls).
Proof.
  intros Hc Hrun.
  destruct (commit_lines_cases ls w c Hc) as (b & w0 & Hrun0 & Hb & Hw & Hok).
  rewrite Hrun in Hrun0. injection Hrun0 as <- <-.
  destruct (decide (rc (upcoming w 0) = 0)) as [H0|H0]; [|by destruct (Hb H0)].
  destruct (decide (rc (upcoming w 1) = 0)) as [H1|H1]; [|by destruct (Hw H0 H1)].
  by destruct (Hok H0 H1) as (_ & ? & _).
Qed.

(** The first token of a registry entry is its number. *)
Lemma table_line_tokens (n : Z) (table_name : text) :
  py_split (table_line n table_name) = fmt_d n :: py_split (table_name ++ [LF]).
Proof.
  unfold table_line. destruct (fmt_d_token n) as [Hne Hsp].
  change ([TAB] ++ table_name ++ [LF]) with (TAB :: table_name ++ [LF]).
  by apply py_split_word.
Qed.

Lemma table_line_names (n : Z) (table_name : text) :
  one_token table_name → names_table table_name (table_line n table_name) = true.
Proof.
  intros [Hne Hsp]. apply names_table_spec. exists (fmt_d n), [].
  rewrite table_line_tokens. f_equal.
  rewrite (py_split_word table_name LF []) by done. done.
Qed.

Lemma not_space_not_in (c : ascii) (s : text) :
  is_space c = true → Forall (fun x => is_space x = false) s → c ∉ s.
Proof.
  intros Hc Hs Hin. rewrite Forall_forall in Hs. specialize (Hs c Hin). congruence.
Qed.

(** An entry with a one-token name is one line, free of carriage
    returns. *)
Lemma table_line_one_line (n : Z) (table_name : text) :
  one_token table_name →
  (CR ∉ table_line n table_name)
  ∧ split_keepends (table_line n table_name) = [table_line n table_name].
Proof.
  intros [Hne Hsp]. destruct (fmt_d_token n) as [_ Hd]. unfold table_line. split.
  - rewrite !elem_of_app, !list_elem_of_singleton.
    intros [Hin|[Heq|[Hin|Heq]]]; [|done| |done].
    + by apply (not_space_not_in CR (fmt_d n)).
    + by apply (not_space_not_in CR table_name).
  - rewrite !(assoc_L (++)). apply split_keepends_one_line.
    rewrite !elem_of_app, !list_elem_of_singleton.
    intros [[Hin|Heq]|Hin]; [|done|].
    + by apply (not_space_not_in LF (fmt_d n)).
    + by apply (not_space_not_in LF table_name).
Qed.

(** Reading the file again after the entry was added: the lines read
    before, then the entry. *)
Lemma readlines_with_entry (c : text) (n : Z) (table_name : text) :
  CR ∉ c → newline_terminated c → one_token table_name →
  readlines (c ++ table_line n table_name) = readlines c ++ [table_line n table_name].
Proof.
  intros Hcr Hnl Hname.
  destruct (table_line_one_line n table_name Hname) as [Hcr' Hone].
  unfold readlines.
  rewrite (universal_newlines_id c Hcr).
  rewrite universal_newlines_id by (rewrite elem_of_app; tauto).
  by rewrite split_keepends_app, Hone.
Qed.

Lemma filter_keeps_all {A} (f : A → bool) (l : list A) :
  (∀ x, x ∈ l → f x = true) → List.filter f l = l.
Proof.
  induction l as [|x l IH]; [done|]. intros H. simpl.
  rewrite (H x) by left. f_equal. apply IH. intros y Hy. apply H. by right.
Qed.

End RegistryLines.

(** C2 (as stated).  With ["1\tfoo\n"] in the registry, adding and then
    deleting [foo] both succeed and leave an empty file: the deletion
    takes the older entry of that name along. *)
Lemma add_delete_roundtrip_fails_on_existing_name :
  ¬ add_delete_roundtrip (txt "foo") (registry_of one_entry []).
Proof.
  intros H.
  specialize (H one_entry
                (add_route_table (txt "foo") (registry_of one_entry [])).2
                (delete_route_table (txt "foo")
                   (add_route_table (txt "foo") (registry_of one_entry [])).2).2
                ltac:(by vm_compute) ltac:(by vm_compute) ltac:(by vm_compute)).
  vm_compute in H. discriminate.
Qed.

(** C2 (amended).  If the registry holds no carriage return, is empty or
    ends with a newline, and has no line whose second token is the table
    name, and if the name is one non-empty token without whitespace, then
    a successful [add_route_table] followed at once by a successful
    [delete_route_table] of the same name leaves the registry file with
    exactly the content it had before. *)
Theorem add_then_delete_restores (table_name : text) (w w1 w2 : world) (c : text) :
  files w !! rt_tables = Some c →
  CR ∉ c →
  newline_terminated c →
  one_token table_name →
  (∀ line, line ∈ readlines c → ¬ second_token_is table_name line) →
  add_route_table table_name w = (Return true, w1) →
  delete_route_table table_name w1 = (Return true, w2) →
  files w2 !! rt_tables = Some c.
Proof.
  intros Hc Hcr Hnl Hname Hfresh Hadd Hdel.
  destruct (scan_tables (readlines c)) as [[ls nums]|e] eqn:Hs;
    [|rewrite (add_route_table_raises _ _ _ _ Hc Hs) in Hadd; discriminate].
  rewrite (add_route_table_run _ _ _ _ _ Hc Hs) in Hadd.
  apply (commit_lines_true _ _ _ _ Hc) in Hadd.
  rewrite concat_app, concat_readlines in Hadd by done.
  simpl in Hadd. rewrite app_nil_r in Hadd.
  rewrite (delete_route_table_run _ _ _ Hadd) in Hdel.
  apply (commit_lines_true _ _ _ _ Hadd) in Hdel.
  rewrite Hdel. f_equal.
  rewrite readlines_with_entry by done.
  rewrite List.filter_app. simpl.
  rewrite table_line_names by done. simpl. rewrite app_nil_r.
  rewrite filter_keeps_all; [by apply concat_readlines|].
  intros line Hline. apply negb_true_iff, not_true_is_false.
  intros Hn%names_table_spec. by apply (Hfresh line).
Qed.

Lemma add_then_delete_restores_witness :
  files (delete_route_table (txt "bar")
           (add_route_table (txt "bar") (registry_of one_entry [])).2).2
    !! rt_tables = Some one_entry.
Proof.
  apply (add_then_delete_restores (txt "bar") (registry_of one_entry [])
           (add_route_table (txt "bar") (registry_of one_entry [])).2).
  - by vm_compute.
  - vm_compute. intros H.
    repeat (apply elem_of_cons in H as [H|H]; [discriminate|]).
    by apply elem_of_nil in H.
  - right. by vm_compute.
  - split; [done|]. by repeat constructor.
  - intros line Hline (t0 & rest & Ht). vm_compute in Hline.
    apply elem_of_cons in Hline as [->|Hline]; [vm_compute in Ht; discriminate|].
    by apply elem_of_nil in Hline.
  - by vm_compute.
  - by vm_compute.
Defined.

(** Two more inputs on which the round trip fails, each for its own
    reason: a registry whose last line has no terminator, and a name
    that is not one token. *)
Lemma add_delete_roundtrip_needs_final_newline :
  ¬ add_delete_roundtrip (txt "bar") (registry_of (txt "1 foo") []).
Proof.
  intros H.
  specialize (H (txt "1 foo")
                (add_route_table (txt "bar") (registry_of (txt "1 foo") [])).2
                (delete_route_table (txt "bar")
                   (add_route_table (txt "bar") (registry_of (txt "1 foo") [])).2).2
                ltac:(by vm_compute) ltac:(by vm_compute) ltac:(by vm_compute)).
  vm_compute in H. discriminate.
Qed.

Lemma add_delete_roundtrip_needs_one_token :
  ¬ add_delete_roundtrip (txt "my table") (registry_of one_entry []).
Proof.
  intros H.
  specialize (H one_entry
                (add_route_table (txt "my table") (registry_of one_entry [])).2
                (delete_route_table (txt "my table")
                   (add_route_table (txt "my table") (registry_of one_entry [])).2).2
                ltac:(by vm_compute) ltac:(by vm_compute) ltac:(by vm_compute)).
  vm_compute in H. discriminate.
Qed.

(** C3.  When the numbers read from the lines that are neither blank nor
    start with [#] leave at least one integer of 0..254 free,
    [add_route_table] commits the lines read followed by exactly one new
    entry, whose number is the least free integer: it is in 0..254, it is
    not among the numbers read, every smaller one is, and it is the
    number [int] reads back from the first token of the new line.  A
    successful call leaves the old text followed by that entry in the
    file.  With 0, 1 and 2 taken the entry gets 3. *)
Theorem add_route_table_least_free (table_name : text) (w : world) (c : text)
    (ls : list text) (nums : list Z) :
  files w !! rt_tables = Some c →
  scan_tables (readlines c) = Return (ls, nums) →
  (∃ k, 0 ≤ k < 255 ∧ k ∉ nums) →
  let n := free_table_num nums in
  0 ≤ n < 255
  ∧ (n ∉ nums)
  ∧ (∀ k, 0 ≤ k < n → k ∈ nums)
  ∧ add_route_table table_name w =
      commit_lines (readlines c ++ [table_line n table_name]) w
  ∧ (∀ w', add_route_table table_name w = (Return true, w') →
           files w' !! rt_tables
           = Some (concat (readlines c) ++ table_line n table_name))
  ∧ (∃ rest, py_split (table_line n table_name) = fmt_d n :: rest)
  ∧ py_int (fmt_d n) = Return n
  ∧ free_table_num [0; 1; 2] = 3.
Proof.
  intros Hc Hs Hfree n.
  destruct (free_table_num_least nums Hfree) as (Hrange & Hnot & Hleast).
  pose proof (add_route_table_run table_name w c ls nums Hc Hs) as Hrun.
  split; [done|]. split; [done|]. split; [done|]. split; [done|].
  split; [|split; [|split]].
  - intros w' Hadd. rewrite Hrun in Hadd.
    apply (commit_lines_true _ _ _ _ Hc) in Hadd.
    rewrite Hadd, concat_app. simpl. by rewrite app_nil_r.
  - eexists. apply table_line_tokens.
  - apply py_int_fmt_d.
  - by vm_compute.
Qed.

Lemma add_route_table_least_free_witness :
  free_table_num [0; 1; 2] = 3
  ∧ files (add_route_table (txt "bar") (registry_of three_entries [])).2 !! rt_tables
    = Some (concat (readlines three_entries) ++ table_line 3 (txt "bar")).
Proof.
  destruct (add_route_table_least_free (txt "bar") (registry_of three_entries [])
              three_entries (readlines three_entries) [0; 1; 2])
    as (_ & _ & _ & _ & Hfile & _ & _ & Hthree).
  - by vm_compute.
  - by vm_compute.
  - exists 3. split; [lia|]. intros H.
    repeat (apply elem_of_cons in H as [H|H]; [discriminate|]).
    by apply elem_of_nil in H.
  - split; [exact Hthree|]. apply Hfile. by vm_compute.
Defined.

Section DeleteLines.

Lemma lstrip_nil (s : text) :
  lstrip s = [] → Forall (fun c => is_space c = true) s.
Proof.
  induction s as [|c s IH]; [done|]. simpl.
  destruct (is_space c) eqn:Hc; [|done]. intros H. constructor; auto.
Qed.

Lemma lstrip_head (s : text) (c : ascii) (s' : text) :
  lstrip s = c :: s' → is_space c = false.
Proof.
  induction s as [|d s IH]; [done|]. simpl.
  destruct (is_space d) eqn:Hd; [done|]. by intros [= <- <-].
Qed.

(** A line that [strip] empties is made of whitespace only, and has no
    token. *)
Lemma blank_line_no_token (line : text) :
  py_strip line = [] → py_split line = [].
Proof.
  unfold py_strip. intros H. apply py_split_blank.
  destruct (lstrip line) as [|c s] eqn:Hl; [by apply lstrip_nil|].
  apply (f_equal (@rev ascii)) in H. rewrite rev_involutive in H. simpl in H.
  apply lstrip_nil in H. apply lstrip_head in Hl.
  apply Forall_rev in H. rewrite rev_app_distr, rev_involutive in H.
  apply Forall_cons in H as [Hc _]. congruence.
Qed.

Lemma filter_sublist {A} (f : A → bool) (l : list A) :
  List.filter f l `sublist_of` l.
Proof.
  induction l as [|x l IH]; [done|]. simpl. destruct (f x); by constructor.
Qed.

End DeleteLines.

(** What [delete_route_table] does to the lines: it removes exactly those
    whose second whitespace-delimited token is the table name and keeps
    every other line as it was read, in order: every line with fewer than
    two tokens, so every blank line, and every line with another second
    token.  A successful call leaves the kept lines, joined, in the
    file. *)
Lemma delete_route_table_filters (table_name : text) (w : world) (c : text) :
  files w !! rt_tables = Some c →
  ∃ kept,
    delete_route_table table_name w = commit_lines kept w
    ∧ kept `sublist_of` readlines c
    ∧ (∀ line, line ∈ kept ↔
               line ∈ readlines c ∧ ¬ second_token_is table_name line)
    ∧ (∀ line, line ∈ readlines c → (length (py_split line) < 2)%nat → line ∈ kept)
    ∧ (∀ line, line ∈ readlines c → py_strip line = [] → line ∈ kept)
    ∧ (∀ w', delete_route_table table_name w = (Return true, w') →
             files w' !! rt_tables = Some (concat kept)).
Proof.
  intros Hc.
  set (kept := List.filter (fun line => negb (names_table table_name line)) (readlines c)).
  assert (∀ line, line ∈ kept ↔
                  line ∈ readlines c ∧ ¬ second_token_is table_name line) as Hkept.
  { intros line. unfold kept. rewrite !list_elem_of_In, List.filter_In.
    by rewrite negb_true_iff, <- not_true_iff_false, names_table_spec. }
  assert (∀ line, (length (py_split line) < 2)%nat →
                  ¬ second_token_is table_name line) as Hshort.
  { intros line Hlen (t0 & rest & Ht). rewrite Ht in Hlen. simpl in Hlen. lia. }
  exists kept. split; [by apply delete_route_table_run|].
  split; [|split; [done|split; [|split]]].
  - apply filter_sublist.
  - intros line Hin Hlen. apply Hkept. split; [done|]. by apply Hshort.
  - intros line Hin Hblank. apply Hkept. split; [done|]. apply Hshort.
    rewrite (blank_line_no_token line Hblank). simpl. lia.
  - intros w' Hdel. rewrite (delete_route_table_run _ _ _ Hc) in Hdel.
    by apply (commit_lines_true _ _ _ _ Hc) in Hdel.
Qed.

Example delete_route_table_keeps_other_entries :
  ∃ w', delete_route_table (txt "b") (registry_of three_entries [])
        = (Return true, w')
        ∧ files w' !! rt_tables
          = Some (txt "0" ++ [TAB] ++ txt "a" ++ [LF] ++ txt "2" ++ [TAB] ++ txt "c" ++ [LF]).
Proof. eexists. split; by vm_compute. Qed.

(** C5 (the code at the failing input).  In a registry made of the
    comment line ["# foo\n"] and the entry ["1\tfoo\n"], a successful
    [delete_route_table] of [foo] writes an empty file: the comment
    line, whose second token is [foo], is taken for an entry of that
    table and removed with it. *)
Theorem delete_route_table_drops_comment :
  comment_line (txt "# foo" ++ [LF])
  ∧ txt "# foo" ++ [LF] ∈ readlines comment_and_entry
  ∧ second_token_is (txt "foo") (txt "# foo" ++ [LF])
  ∧ ∃ w', delete_route_table (txt "foo") (registry_of comment_and_entry [])
            = (Return true, w')
          ∧ files w' !! rt_tables = Some [].
Proof.
  split; [by vm_compute|]. split; [vm_compute; by left|]. split.
  - exists (txt "#"), []. by vm_compute.
  - eexists. split; by vm_compute.
Qed.

(** ** Facts about the namespace inspector *)

Section InspectorFacts.

Context (h : host).

Lemma bind_Return_inv {A B} (m : outcome A) (k : A → outcome B) (b : B) :
  m ≫= k = Return b → ∃ a, m = Return a ∧ k a = Return b.
Proof. destruct m as [a|e]; [|done]. intros H. by exists a. Qed.

Lemma upper_char_not_lower (c : ascii) : is_lower_char (upper_char c) = false.
Proof. by destruct c as [[] [] [] [] [] [] [] []]. Qed.

Lemma lower_char_not_upper (c : ascii) : is_upper_char (lower_char c) = false.
Proof. by destruct c as [[] [] [] [] [] [] [] []]. Qed.

Lemma py_upper_uppercase (s : text) : uppercase (py_upper s).
Proof. apply Forall_map, Forall_forall. intros c _. apply upper_char_not_lower. Qed.

Lemma py_lower_lowercase (s : text) : lowercase (py_lower s).
Proof. apply Forall_map, Forall_forall. intros c _. apply lower_char_not_upper. Qed.

Lemma py_upper_method_uppercase (v v' : pyval) :
  py_upper_method v = Return v' → uppercase_value v'.
Proof.
  destruct v; try done; intros [= <-]; eexists; (split; [|apply py_upper_uppercase]); auto.
Qed.

Lemma link_record_shape (obj : pyval) (link : pydict) :
  link_record obj = Return link → link_shape link.
Proof.
  unfold link_record. intros H.
  apply bind_Return_inv in H as (address & _ & H).
  apply bind_Return_inv in H as (m & Hm & H).
  apply bind_Return_inv in H as (o & _ & H).
  apply bind_Return_inv in H as (t & _ & H).
  injection H as <-. right. exists m, o, t. split; [done|].
  by eapply py_upper_method_uppercase.
Qed.

Lemma fetch_link_info_shape (namespace devname : pystring) (link : pydict) :
  _fetch_link_info h namespace devname = Return link → link_shape link.
Proof.
  unfold _fetch_link_info. intros H.
  apply bind_Return_inv in H as (raw & _ & H).
  case_bool_decide; [injection H as <-; by left|].
  apply bind_Return_inv in H as (j & _ & H).
  apply bind_Return_inv in H as (objs & _ & H).
  destruct objs as [|obj ?]; [injection H as <-; by left|].
  by eapply link_record_shape.
Qed.

(** The test of line 69 succeeds only on an object whose link metadata
    names the kind [vlan]. *)
Lemma reports_vlan_true (obj : pyval) :
  reports_vlan obj = Return true → kind_is_vlan obj.
Proof.
  unfold reports_vlan, addr_info0. intros H.
  apply bind_Return_inv in H as (a0 & Ha0 & H).
  apply bind_Return_inv in Ha0 as (ai & Hai & Ha0).
  apply bind_Return_inv in H as (li & Hli & H).
  destruct (py_truthy li); [|done]. cbn [negb] in H.
  apply bind_Return_inv in H as (a0' & Ha0' & H).
  apply bind_Return_inv in Ha0' as (ai' & Hai' & Ha0').
  rewrite Hai in Hai'. injection Hai' as <-.
  rewrite Ha0 in Ha0'. injection Ha0' as <-.
  apply bind_Return_inv in H as (li' & Hli' & H).
  rewrite Hli in Hli'. injection Hli' as <-.
  apply bind_Return_inv in H as (kind & Hkind & H).
  injection H as Hvlan.
  destruct li as [| | | | | |?|li]; try (by cbn in Hkind).
  unfold py_getitem in Hkind.
  destruct (dict_get (txt "info_kind") li) as [k|] eqn:Hk; [|done].
  injection Hkind as ->.
  destruct kind; try (by cbn in Hvlan).
  apply bool_decide_eq_true in Hvlan as ->.
  destruct a0 as [| | | | | |?|a0]; try (by cbn in Hli).
  unfold py_get in Hli.
  destruct (dict_get (txt "linkinfo") a0) as [li'|] eqn:Hl; [|by cbn in Hli].
  injection Hli as ->.
  destruct ai as [| | | |[|? ?]|[|? ?]|[|x rest]|?]; try (by cbn in Ha0).
  injection Ha0 as ->.
  destruct obj as [| | | | | |?|d]; try (by cbn in Hai).
  unfold py_getitem in Hai.
  destruct (dict_get (txt "addr_info") d) as [ai'|] eqn:Hd; [|done].
  injection Hai as ->.
  by exists d, rest, a0, li.
Qed.

Lemma ip_record_shape (obj : pyval) (ip : pydict) :
  ip_record h obj = Return ip → ip_shape [obj] ip.
Proof.
  unfold ip_record. intros H.
  apply bind_Return_inv in H as (vlan & Hvlan & H).
  apply bind_Return_inv in H as (vid & Hvid & H).
  repeat (apply bind_Return_inv in H as (? & _ & H)).
  injection H as <-. right. eexists obj, vid, _, _, _, _.
  split; [by left|]. split; [done|].
  destruct vlan.
  - intros _. by apply reports_vlan_true.
  - by injection Hvid as <-.
Qed.

Lemma ip_shape_mono (objs objs' : list pyval) (ip : pydict) :
  objs ⊆ objs' → ip_shape objs ip → ip_shape objs' ip.
Proof.
  intros Hsub [->|(obj & vid & b & p & a & s & Hin & -> & Hv)]; [by left|].
  right. exists obj, vid, b, p, a, s. split; [by apply Hsub|done].
Qed.

Lemma first_ip_record_shape (objs : list pyval) (ip : pydict) :
  first_ip_record h objs = Return ip → ip_shape objs ip.
Proof.
  induction objs as [|obj objs IH]; simpl.
  - intros [= <-]. by left.
  - intros H. apply bind_Return_inv in H as (sel & _ & H). destruct sel.
    + eapply ip_shape_mono; [|by apply ip_record_shape].
      intros x ->%list_elem_of_singleton. by left.
    + eapply ip_shape_mono; [|by apply IH]. intros x Hx. by right.
Qed.

Lemma fetch_ip_info_shape (namespace ifname : pystring) (ip : pydict) :
  _fetch_ip_info h namespace ifname = Return ip →
  ip = [] ∨ ∃ objs, address_query_objects h namespace ifname objs ∧ ip_shape objs ip.
Proof.
  unfold _fetch_ip_info.
  destruct (call_output h (ip_address_cmd namespace ifname)) as [raw|] eqn:Hraw;
    [|intros [= <-]; by left].
  case_bool_decide as Hempty; [intros [= <-]; by left|]. intros Hrun.
  apply bind_Return_inv in Hrun as (j & Hj & Hrun).
  apply bind_Return_inv in Hrun as (objs & Hobjs & Hrun).
  right. exists objs. split; [by exists raw, j|by apply first_ip_record_shape].
Qed.

Lemma assemble_fields (objs : list pyval) (link ip : pydict) (idx name : pystring) :
  link_shape link → ip_shape objs ip →
  dict_get (txt "vlanid") (assemble link ip idx name) = dict_get (txt "vlanid") ip
  ∧ dict_get (txt "mac") (assemble link ip idx name) = dict_get (txt "mac") link
  ∧ dict_get (txt "device") (assemble link ip idx name) = Some (pystring_val name).
Proof.
  intros [->|(m & o & t & -> & _)] [->|(obj & vid & b & p & a & s & _ & -> & _)];
    by vm_compute.
Qed.

Lemma namespace_links_elem (_ns : pystring) (_nsls : list (pystring * pystring))
    (recs : list pydict) (rec : pydict) :
  namespace_links h _ns _nsls = Return recs → rec ∈ recs →
  ∃ idx name link ip,
    (idx, name) ∈ _nsls
    ∧ _fetch_link_info h _ns name = Return link
    ∧ _fetch_ip_info h _ns name = Return ip
    ∧ rec = assemble link ip idx name.
Proof.
  revert recs. induction _nsls as [|[idx name] rest IH]; intros recs; simpl.
  - intros [= <-] Hin. by apply elem_of_nil in Hin.
  - intros H Hin.
    apply bind_Return_inv in H as (link & Hlink & H).
    apply bind_Return_inv in H as (ip & Hip & H).
    destruct (_ =? _)%nat.
    + destruct (IH _ H Hin) as (i & n & l & p & Hi & ?).
      exists i, n, l, p. split; [by right|done].
    + apply bind_Return_inv in H as (recs' & Hrest & H). injection H as <-.
      apply elem_of_cons in Hin as [->|Hin].
      * exists idx, name, link, ip. split; [by left|done].
      * destruct (IH _ Hrest Hin) as (i & n & l & p & Hi & ?).
        exists i, n, l, p. split; [by right|done].
Qed.

Lemma result_set_elem (_ns k : pystring) (recs v : list pydict) (r : topology) :
  (k, v) ∈ result_set _ns recs r → (k, v) ∈ r ∨ (k, v) = (_ns, recs).
Proof.
  induction r as [|[k' v'] r IH]; simpl.
  - intros Hin%list_elem_of_singleton. by right.
  - case_bool_decide; intros Hin%elem_of_cons.
    + destruct Hin as [Heq|Hin]; [right; congruence|left; by right].
    + destruct Hin as [->|Hin]; [left; by left|].
      destruct (IH Hin); [left; by right|by right].
Qed.

(** Every list of records in the result is what the inner loop gave for
    its namespace. *)
Lemma namespaces_loop_entries (_ns_list : list pystring) (acc result : topology)
    (k : pystring) (v : list pydict) :
  namespaces_loop h _ns_list acc = Return result →
  (k, v) ∈ result →
  (k, v) ∈ acc ∨ ∃ _nsls, namespace_links h k _nsls = Return v.
Proof.
  revert acc. induction _ns_list as [|_ns rest IH]; intros acc; simpl.
  - intros [= <-]. by left.
  - intros H Hin.
    apply bind_Return_inv in H as (_nsls & _ & H).
    apply bind_Return_inv in H as (recs & Hrecs & H).
    destruct (IH _ H Hin) as [Hacc|?]; [|by right].
    apply result_set_elem in Hacc as [?|[= -> ->]]; [by left|].
    right. by exists _nsls.
Qed.

Lemma topology_records (result : topology) (k : pystring)
    (recs : list pydict) (rec : pydict) :
  get_network_namespace_infos h = Return result →
  (k, recs) ∈ result → rec ∈ recs →
  ∃ idx name link ip,
    _fetch_link_info h k name = Return link
    ∧ _fetch_ip_info h k name = Return ip
    ∧ rec = assemble link ip idx name.
Proof.
  unfold get_network_namespace_infos. intros H Hk Hrec.
  apply bind_Return_inv in H as (_ns_list & _ & H).
  destruct (namespaces_loop_entries _ _ _ _ _ H Hk) as [Hnil|[_nsls Hl]];
    [by apply elem_of_nil in Hnil|].
  destruct (namespace_links_elem _ _ _ _ Hl Hrec) as (i & n & l & p & _ & ?).
  by exists i, n, l, p.
Qed.

End InspectorFacts.

Section EmptyOutput.

Context (h : host).

Lemma dict_update_nil_shape (objs : list pyval) (ip : pydict) :
  ip_shape objs ip → dict_update [] ip = ip.
Proof. by intros [->|(obj & vid & b & p & a & s & _ & -> & _)]. Qed.

Lemma fetch_link_info_empty (namespace devname : pystring) :
  call_output h (ip_link_cmd namespace devname) = Some [] →
  _fetch_link_info h namespace devname = Return [].
Proof. intros H. unfold _fetch_link_info. by rewrite H. Qed.

Lemma fetch_ip_info_empty (namespace ifname : pystring) :
  call_output h (ip_address_cmd namespace ifname) = Some [] →
  _fetch_ip_info h namespace ifname = Return [].
Proof. intros H. unfold _fetch_ip_info. by rewrite H. Qed.

(** A link query that fails, so that [call_output] gives [None], is
    another matter: the definition in force calls [strip] on it. *)
Lemma fetch_link_info_none (namespace devname : pystring) :
  call_output h (ip_link_cmd namespace devname) = None →
  _fetch_link_info h namespace devname = Raise AttributeError
  ∧ _fetch_link_info_first h namespace devname = Return [].
Proof.
  intros H. unfold _fetch_link_info, _fetch_link_info_first. by rewrite H.
Qed.

Lemma fetch_ip_info_none (namespace ifname : pystring) :
  call_output h (ip_address_cmd namespace ifname) = None →
  _fetch_ip_info h namespace ifname = Return [].
Proof. intros H. unfold _fetch_ip_info. by rewrite H. Qed.

Lemma namespace_links_cons (_ns idx name : pystring)
    (rest : list (pystring * pystring)) (link ip : pydict) :
  _fetch_link_info h _ns name = Return link →
  _fetch_ip_info h _ns name = Return ip →
  namespace_links h _ns ((idx, name) :: rest) =
    if bool_decide (dict_update link ip = []) then namespace_links h _ns rest
    else recs ← namespace_links h _ns rest;
         Return (tagged idx name (dict_update link ip) :: recs).
Proof.
  intros Hl Hi. cbn [namespace_links]. rewrite Hl, Hi. cbn [mbind outcome_bind].
  by destruct (dict_update link ip).
Qed.

End EmptyOutput.

(** When the command of a query prints nothing and [call_output] gives
    empty bytes, the query gives the empty record: the link then gets
    its fields from the other query alone, or is passed over when that
    one gives nothing either, and the loop goes on with the remaining
    links. *)
Theorem empty_output_is_empty_result (h : host) (_ns idx name : pystring)
    (rest : list (pystring * pystring)) :
  (call_output h (ip_link_cmd _ns name) = Some [] →
     _fetch_link_info h _ns name = Return []
     ∧ ∀ ip, _fetch_ip_info h _ns name = Return ip →
         namespace_links h _ns ((idx, name) :: rest) =
           if bool_decide (ip = []) then namespace_links h _ns rest
           else recs ← namespace_links h _ns rest;
                Return (tagged idx name ip :: recs))
  ∧ (call_output h (ip_address_cmd _ns name) = Some [] →
       _fetch_ip_info h _ns name = Return []
       ∧ ∀ link, _fetch_link_info h _ns name = Return link →
           namespace_links h _ns ((idx, name) :: rest) =
             if bool_decide (link = []) then namespace_links h _ns rest
             else recs ← namespace_links h _ns rest;
                  Return (tagged idx name link :: recs))
  ∧ (call_output h (ip_link_cmd _ns name) = Some [] →
     call_output h (ip_address_cmd _ns name) = Some [] →
       namespace_links h _ns ((idx, name) :: rest) = namespace_links h _ns rest).
Proof.
  split; [|split].
  - intros Hl%fetch_link_info_empty. split; [done|]. intros ip Hi.
    rewrite (namespace_links_cons h _ _ _ _ _ _ Hl Hi).
    destruct (fetch_ip_info_shape h _ _ _ Hi) as [->|(objs & _ & Hs)]; [done|].
    by rewrite (dict_update_nil_shape objs).
  - intros Hi%fetch_ip_info_empty. split; [done|]. intros link Hl.
    by rewrite (namespace_links_cons h _ _ _ _ _ _ Hl Hi).
  - intros Hl%fetch_link_info_empty Hi%fetch_ip_info_empty.
    by rewrite (namespace_links_cons h _ _ _ _ _ _ Hl Hi).
Qed.

Lemma empty_output_is_empty_result_witness :
  namespace_links quiet_lo_host (Str [])
    [(Bytes (txt "1"), Bytes (txt "lo")); (Bytes (txt "2"), Bytes (txt "ens3"))]
  = namespace_links quiet_lo_host (Str []) [(Bytes (txt "2"), Bytes (txt "ens3"))].
Proof.
  apply (empty_output_is_empty_result quiet_lo_host (Str []) (Bytes (txt "1"))
           (Bytes (txt "lo")) [(Bytes (txt "2"), Bytes (txt "ens3"))]);
    by vm_compute.
Defined.

(** C6 (the code at the failing input).  On a host where the link query
    about [lo] gives nothing back, so that [call_output] returns [None],
    [_fetch_link_info] raises [AttributeError] (it calls [strip] on the
    result before testing it) and so does the whole of
    [get_network_namespace_infos]: [ens3], the next link, is never
    looked at.  On the same result [_fetch_ip_info] returns the empty
    record, and so does the first definition of [_fetch_link_info],
    which tests the result before it strips it. *)
Theorem silent_link_query_aborts_inspection :
  call_output silent_lo_host (ip_link_cmd (Str []) (Bytes (txt "lo"))) = None
  ∧ _fetch_link_info silent_lo_host (Str []) (Bytes (txt "lo")) = Raise AttributeError
  ∧ get_network_namespace_infos silent_lo_host = Raise AttributeError
  ∧ _fetch_link_info_first silent_lo_host (Str []) (Bytes (txt "lo")) = Return []
  ∧ _fetch_ip_info silent_lo_host (Str []) (Bytes (txt "lo")) = Return []
  ∧ (∀ h namespace devname,
       call_output h (ip_link_cmd namespace devname) = None →
       _fetch_link_info h namespace devname = Raise AttributeError).
Proof.
  repeat split; try (by vm_compute).
  intros h namespace devname H. by apply fetch_link_info_none.
Qed.

(** C7.  In every link record that [get_network_namespace_infos] returns,
    a VLAN id is there (['vlanid'] bound to something other than [None])
    only when the address query of that link gave an object whose link
    metadata reports the kind [vlan]; for every other link ['vlanid'] is
    [None] or unbound. *)
Theorem vlan_id_only_for_vlan_kind (h : host) (result : topology)
    (k : pystring) (recs : list pydict) (rec : pydict) :
  get_network_namespace_infos h = Return result →
  (k, recs) ∈ result →
  rec ∈ recs →
  vlan_id_present rec →
  ∃ name objs obj,
    dict_get (txt "device") rec = Some (pystring_val name)
    ∧ address_query_objects h k name objs
    ∧ obj ∈ objs
    ∧ kind_is_vlan obj.
Proof.
  intros Hrun Hk Hrec (v & Hv & Hnone).
  destruct (topology_records h _ _ _ _ Hrun Hk Hrec)
    as (idx & name & link & ip & Hl & Hi & ->).
  pose proof (fetch_link_info_shape h _ _ _ Hl) as Hls.
  destruct (fetch_ip_info_shape h _ _ _ Hi) as [->|(objs & Hq & His)].
  - destruct (assemble_fields [] link [] idx name Hls ltac:(by left)) as (Hvid & _).
    rewrite Hvid in Hv. discriminate.
  - destruct (assemble_fields objs link ip idx name Hls His) as (Hvid & _ & Hdev).
    rewrite Hvid in Hv.
    destruct His as [->|(obj & vid & b & p & a & s & Hin & -> & Hkind)]; [done|].
    injection Hv as ->. exists name, objs, obj. auto.
Qed.

Lemma vlan_id_only_for_vlan_kind_witness :
  ∃ name objs obj,
    dict_get (txt "device") (default [] (head (default [] (snd <$> head (topology_of vlan_host)))))
      = Some (pystring_val name)
    ∧ address_query_objects vlan_host (Str []) name objs
    ∧ obj ∈ objs
    ∧ kind_is_vlan obj.
Proof.
  apply (vlan_id_only_for_vlan_kind vlan_host (topology_of vlan_host) (Str [])
           (default [] (snd <$> head (topology_of vlan_host)))).
  - by vm_compute.
  - vm_compute. by left.
  - vm_compute. by left.
  - exists (PInt 100). split; [by vm_compute|done].
Defined.

(** ** Facts about the interface enumerator *)

Section InterfaceFacts.

Context (h : host).

(** The [str] of a bytes object starts with the letter b and a quote:
    it never starts with ["vf "]. *)
Lemma bytes_str_not_vf (b : text) :
  startswith (txt "vf ") (py_str (Bytes b)) = false.
Proof. reflexivity. Qed.

(** So the scraping loop passes over every line of the command output. *)
Lemma scrape_vf_macs_bytes (lines : list text) (virt_ifaces : gmap Z vf_info) :
  scrape_vf_macs (map Bytes lines) virt_ifaces = Return virt_ifaces.
Proof.
  induction lines as [|l lines IH]; [done|].
  cbn [map scrape_vf_macs pystring_strip]. by rewrite bytes_str_not_vf.
Qed.

Lemma scan_virtfns_no_mac (dev : text) (dirs : list text)
    (vi vi' : gmap Z vf_info) :
  scan_virtfns h dev dirs vi = Return vi' →
  map_Forall (fun _ v => vf_mac v = None) vi →
  map_Forall (fun _ v => vf_mac v = None) vi'.
Proof.
  revert vi. induction dirs as [|d dirs IH]; intros vi; simpl.
  - by intros [= <-].
  - destruct (negb _); [apply IH|]. intros H Hvi.
    apply bind_Return_inv in H as (target & _ & H).
    apply bind_Return_inv in H as (k & _ & H).
    apply (IH _ H). by apply map_Forall_insert_2.
Qed.

Lemma dict_get_elem {A} (k : text) (d : list (text * A)) (v : A) :
  dict_get k d = Some v → (k, v) ∈ d.
Proof.
  induction d as [|[k' v'] d IH]; [done|]. simpl.
  case_bool_decide as Hk.
  - intros [= <-]. subst. by left.
  - intros Hd. right. by apply IH.
Qed.

Lemma Forall_dict_set {A} (P : text * A → Prop) (k : text) (v : A)
    (d : list (text * A)) :
  P (k, v) → Forall P d → Forall P (dict_set k v d).
Proof.
  intros Hv. induction 1 as [|[k' v'] d Hx Hd IH]; simpl.
  - by constructor.
  - case_bool_decide; by constructor.
Qed.

Lemma dict_get_map {A B} (f : A → B) (k : text) (d : list (text * A)) :
  dict_get k (map (fun kv => (kv.1, f kv.2)) d) = f <$> dict_get k d.
Proof.
  induction d as [|[k' v'] d IH]; [done|]. simpl. by case_bool_decide.
Qed.

(** One step of the first loop keeps every interface [enumerated]. *)
Lemma enumerate_iface_enumerated (n : text) (st st' : ifaces) :
  enumerate_iface h n st = Return st' →
  Forall (fun kv => enumerated kv.2) (ret st) →
  Forall (fun kv => enumerated kv.2) (ret st').
Proof.
  unfold enumerate_iface. intros H Hst.
  destruct (readlink h (_CLASS_NET_DIR ++ txt "/" ++ n)) as [link|];
    [|by injection H as <-].
  apply bind_Return_inv in H as (content & _ & H).
  destruct (negb (negb _)).
  { injection H as <-. apply Forall_dict_set; [|done].
    split; [apply py_lower_lowercase|done]. }
  apply bind_Return_inv in H as (target & _ & H).
  destruct (readlink h _) as [pf|].
  { injection H as <-. apply Forall_dict_set; [|done].
    split; [apply py_lower_lowercase|done]. }
  apply bind_Return_inv in H as (dirs & _ & H).
  apply bind_Return_inv in H as (vi & Hvi & H).
  apply bind_Return_inv in H as (out & _ & H).
  rewrite scrape_vf_macs_bytes in H. injection H as <-.
  apply Forall_dict_set; [|done].
  split; [apply py_lower_lowercase|]. intros vfs k v [= <-] Hk.
  by apply (scan_virtfns_no_mac _ _ _ _ Hvi (map_Forall_empty _) k v).
Qed.

Lemma enumerate_ifaces_enumerated (names : list text) (st st' : ifaces) :
  enumerate_ifaces h names st = Return st' →
  Forall (fun kv => enumerated kv.2) (ret st) →
  Forall (fun kv => enumerated kv.2) (ret st').
Proof.
  revert st. induction names as [|n names IH]; intros st; simpl.
  - by intros [= <-].
  - intros H Hst. apply bind_Return_inv in H as (st1 & H1 & H).
    apply (IH _ H). by eapply enumerate_iface_enumerated.
Qed.

(** After the reconciliation a virtual function has a MAC address only
    when its PCI id led to an interface, whose address it then has. *)
Lemma reconcile_vf_mac (st : ifaces) (v : vf_info) (m : text) :
  vf_mac v = None →
  vf_mac (reconcile_vf st v) = Some m →
  ∃ n info, dict_get (vf_pci_id v) (pci_id_to_iface st) = Some n
            ∧ dict_get n (ret st) = Some info ∧ m = mac info.
Proof.
  intros Hnone. unfold reconcile_vf.
  destruct (dict_get (vf_pci_id v) (pci_id_to_iface st)) as [n|]; [|congruence].
  destruct (dict_get n (ret st)) as [info|] eqn:Hn; [|congruence].
  intros [= <-]. by exists n, info.
Qed.

Lemma get_interfaces_macs (ifs : list (text * iface_info)) (n : text)
    (info : iface_info) :
  get_interfaces h = Return ifs →
  (n, info) ∈ ifs →
  lowercase (mac info)
  ∧ ∀ vfs k v m, virtfns info = Some vfs → vfs !! k = Some v →
                 vf_mac v = Some m → lowercase m.
Proof.
  unfold get_interfaces. intros H Hn.
  apply bind_Return_inv in H as (names & _ & H).
  apply bind_Return_inv in H as (st & Hst & H). injection H as <-.
  pose proof (enumerate_ifaces_enumerated _ _ _ Hst (Forall_nil_2 _)) as Hall.
  rewrite Forall_forall in Hall.
  apply list_elem_of_fmap in Hn as ([n0 info0] & [= -> ->] & Hn0).
  destruct (Hall _ Hn0) as [Hlow Hvf]. cbn [fst snd] in *. unfold reconcile.
  destruct (negb (physical info0)); [split; [done|]|].
  { intros vfs k v m Hv Hk Hm. by rewrite (Hvf vfs k v Hv Hk) in Hm. }
  destruct (virtfns info0) as [vfs0|] eqn:Hv0; [|split; [done|]].
  - split; [done|]. cbn [virtfns]. intros vfs k v m [= <-] Hk Hm.
    rewrite lookup_fmap in Hk.
    destruct (vfs0 !! k) as [v0|] eqn:Hk0; [|done]. injection Hk as <-.
    destruct (reconcile_vf_mac st v0 m (Hvf vfs0 k v0 eq_refl Hk0) Hm)
      as (n' & info' & _ & Hn' & ->).
    apply dict_get_elem in Hn'. by destruct (Hall _ Hn').
  - intros vfs k v m Hv. by rewrite Hv0 in Hv.
Qed.

End InterfaceFacts.

(** C10.  MAC addresses come out in different cases: every ['mac'] in
    what [get_interfaces] returns, that of an interface and that of a
    virtual function alike, is lowercase, and every ['mac'] in the link
    records of [get_network_namespace_infos] is uppercase. *)
Theorem mac_casing (h : host) :
  (∀ ifs n info,
     get_interfaces h = Return ifs → (n, info) ∈ ifs →
     lowercase (mac info)
     ∧ ∀ vfs k v m, virtfns info = Some vfs → vfs !! k = Some v →
                    vf_mac v = Some m → lowercase m)
  ∧ (∀ result k recs rec v,
       get_network_namespace_infos h = Return result →
       (k, recs) ∈ result → rec ∈ recs →
       dict_get (txt "mac") rec = Some v →
       uppercase_value v).
Proof.
  split.
  - intros ifs n info. apply get_interfaces_macs.
  - intros result k recs rec v Hrun Hk Hrec Hv.
    destruct (topology_records h _ _ _ _ Hrun Hk Hrec)
      as (idx & name & link & ip & Hl & Hi & ->).
    pose proof (fetch_link_info_shape h _ _ _ Hl) as Hls.
    assert (∃ objs, ip_shape objs ip) as [objs His].
    { destruct (fetch_ip_info_shape h _ _ _ Hi) as [->|(objs & _ & ?)];
        [exists []; by left|by exists objs]. }
    destruct (assemble_fields objs link ip idx name Hls His) as (_ & Hmac & _).
    rewrite Hmac in Hv.
    destruct Hls as [->|(m & o & t & -> & Hup)]; [done|].
    by injection Hv as <-.
Qed.

Lemma mac_casing_witness :
  Forall (fun kv => lowercase (mac kv.2)) (interfaces_of sriov_host)
  ∧ Forall (fun entry =>
              Forall (fun rec => ∀ v, dict_get (txt "mac") rec = Some v →
                                      uppercase_value v) entry.2)
           (topology_of vlan_host).
Proof.
  destruct (mac_casing sriov_host) as [Hlow _].
  destruct (mac_casing vlan_host) as [_ Hup].
  split.
  - apply Forall_forall. intros [n info] Hn.
    exact (proj1 (Hlow (interfaces_of sriov_host) n info ltac:(by vm_compute) Hn)).
  - apply Forall_forall. intros [k recs] Hk.
    apply Forall_forall. intros rec Hrec v Hv.
    exact (Hup (topology_of vlan_host) k recs rec v ltac:(by vm_compute) Hk Hrec Hv).
Defined.

(** C8 (the code at the failing input).  On a host whose [eth0] has one
    virtual function, with a PCI id that belongs to no interface, and
    whose link-show output has the line
    [vf 0 MAC 52:54:00:12:34:56, ...], the record of that virtual
    function comes back without a MAC address: the test of line 268 is
    made on the [str] of a bytes object, which starts with the letter b
    and a quote for every line, so no line is ever selected. *)
Theorem vf_mac_is_not_scraped :
  (∃ out, check_output sriov_host [txt "/usr/sbin/ip"; txt "link"; txt "show"; txt "eth0"]
          = Some out
          ∧ vf_line ∈ bytes_splitlines out
          ∧ startswith (txt "vf ") (bytes_strip vf_line) = true)
  ∧ get_interfaces sriov_host
    = Return [ (txt "eth0",
                IfaceInfo true (txt "02:00:17:0a:0b:0c") (Some (txt "0000:00:03.0")) None
                  (Some {[ 0 := VfInfo (txt "0000:00:03.1") None ]})) ]
  ∧ (∀ b, startswith (txt "vf ") (py_str (Bytes b)) = false)
  ∧ (∀ lines virt_ifaces,
       scrape_vf_macs (map Bytes lines) virt_ifaces = Return virt_ifaces).
Proof.
  split; [|split; [|split]].
  - eexists. split; [by vm_compute|]. split; [|by vm_compute].
    vm_compute. do 2 right. by left.
  - by vm_compute.
  - apply bytes_str_not_vf.
  - apply scrape_vf_macs_bytes.
Qed.

(** * Further properties *)

(** ** The registry editor: edge cases and composition *)

Section RegistryMore.

Lemma py_split_nil_blank (s : text) :
  py_split s = [] → Forall (fun c => is_space c = true) s.
Proof.
  induction s as [|c s IH]; [done|]. simpl.
  destruct (is_space c) eqn:Hc.
  - intros H. constructor; auto.
  - destruct s as [|d s]; [done|]. destruct (is_space d); [done|].
    by destruct (py_split (d :: s)).
Qed.

Lemma lstrip_blank (s : text) :
  Forall (fun c => is_space c = true) s → lstrip s = [].
Proof. induction 1 as [|c s Hc _ IH]; [done|]. simpl. by rewrite Hc. Qed.

Lemma py_strip_blank (s : text) :
  Forall (fun c => is_space c = true) s → py_strip s = [].
Proof. intros H. unfold py_strip. by rewrite (lstrip_blank s H). Qed.

(** A line is blank exactly when it has no token. *)
Lemma blank_iff_no_token (line : text) :
  py_strip line = [] ↔ py_split line = [].
Proof.
  split; [apply blank_line_no_token|].
  intros H. by apply py_strip_blank, py_split_nil_blank.
Qed.

Lemma py_int_raises (s : text) (e : exn) : py_int s = Raise e → e = ValueError.
Proof. unfold py_int. destruct (match py_strip s with [] => _ | _ => _ end); congruence. Qed.

(** The reading loop raises nothing but [ValueError], and raises it
    exactly when some line is an entry it cannot read. *)
Lemma scan_tables_raises (ls : list text) :
  (∀ e, scan_tables ls = Raise e → e = ValueError)
  ∧ (scan_tables ls = Raise ValueError ↔ ∃ line, line ∈ ls ∧ unreadable_entry line).
Proof.
  induction ls as [|line ls [IHe IH]].
  - split; [done|]. split; [done|]. intros (l & Hl & _). by apply elem_of_nil in Hl.
  - cbn [scan_tables].
    destruct (0 <? length (py_strip line))%nat eqn:Hlen;
      [destruct (startswith [HASH] line) eqn:Hhash|]; cbn [andb negb].
    + (* a comment line *)
      split.
      * intros e. destruct (scan_tables ls) as [[? ?]|e']; [done|].
        intros [= <-]. by apply IHe.
      * split.
        -- destruct (scan_tables ls) as [[? ?]|e'] eqn:Hs; [done|].
           intros [= ->]. destruct (proj1 IH eq_refl) as (l & Hl & Hu).
           exists l. split; [by right|done].
        -- intros (l & Hl & Hu). apply elem_of_cons in Hl as [->|Hl].
           ++ destruct Hu as (_ & Hh & _). congruence.
           ++ rewrite (proj2 IH (ex_intro _ l (conj Hl Hu))). done.
    + (* an entry *)
      assert (py_strip line ≠ []) as Hne.
      { intros Hb. rewrite Hb in Hlen. done. }
      destruct (py_split line) as [|tok rest] eqn:Hsplit.
      { destruct Hne. by apply blank_iff_no_token. }
      destruct (py_int tok) as [n|e0] eqn:Hint; cbn [mbind outcome_bind].
      * split.
        -- intros e. destruct (scan_tables ls) as [[? ?]|e']; [done|].
           intros [= <-]. by apply IHe.
        -- split.
           ++ destruct (scan_tables ls) as [[? ?]|e'] eqn:Hs; [done|].
              intros [= ->]. destruct (proj1 IH eq_refl) as (l & Hl & Hu).
              exists l. split; [by right|done].
           ++ intros (l & Hl & Hu). apply elem_of_cons in Hl as [->|Hl].
              ** destruct Hu as (_ & _ & tok' & rest' & Hs' & Hi').
                 rewrite Hsplit in Hs'. injection Hs' as <- <-. congruence.
              ** rewrite (proj2 IH (ex_intro _ l (conj Hl Hu))). done.
      * apply py_int_raises in Hint as Heq. subst e0. split.
        -- by intros e [= <-].
        -- split; [|done]. intros _. exists line. split; [by left|].
           split; [done|]. split; [done|]. by exists tok, rest.
    + (* a blank line *)
      assert (py_strip line = []) as Hb.
      { destruct (py_strip line); [done|]. done. }
      split.
      * intros e. destruct (scan_tables ls) as [[? ?]|e']; [done|].
        intros [= <-]. by apply IHe.
      * split.
        -- destruct (scan_tables ls) as [[? ?]|e'] eqn:Hs; [done|].
           intros [= ->]. destruct (proj1 IH eq_refl) as (l & Hl & Hu).
           exists l. split; [by right|done].
        -- intros (l & Hl & Hu). apply elem_of_cons in Hl as [->|Hl].
           ++ destruct Hu as (Hne & _). done.
           ++ rewrite (proj2 IH (ex_intro _ l (conj Hl Hu))). done.
Qed.

End RegistryMore.

Section RegistryErrors.

Lemma open_readlines_missing (w : world) :
  files w !! rt_tables = None →
  open_readlines rt_tables w = (Raise FileNotFoundError, w).
Proof. intros H. unfold open_readlines. by rewrite H. Qed.

Lemma add_route_table_missing (table_name : text) (w : world) :
  files w !! rt_tables = None →
  add_route_table table_name w = (Raise FileNotFoundError, w).
Proof.
  intros H. unfold add_route_table, mbind, io_bind.
  by rewrite (open_readlines_missing w H).
Qed.

Lemma delete_route_table_missing (table_name : text) (w : world) :
  files w !! rt_tables = None →
  delete_route_table table_name w = (Raise FileNotFoundError, w).
Proof.
  intros H. unfold delete_route_table, mbind, io_bind.
  by rewrite (open_readlines_missing w H).
Qed.

Lemma commit_lines_returns (ls : list text) (w : world) (c : text) :
  files w !! rt_tables = Some c → ∃ b w', commit_lines ls w = (Return b, w').
Proof.
  intros Hc. destruct (commit_lines_cases ls w c Hc) as (b & w' & H & _).
  by exists b, w'.
Qed.

End RegistryErrors.

(** X1.  [add_route_table] raises exactly in two cases, and then before
    any helper is called, the world being as it was: [FileNotFoundError]
    when the registry file does not exist, and [ValueError] when the
    file exists and one of its lines is neither blank nor starts with
    [#] while its first token is not an integer (an indented comment,
    for one).  In every other case it returns a boolean. *)
Theorem add_route_table_raises_iff (table_name : text) (w : world) :
  (∀ e w', add_route_table table_name w = (Raise e, w') →
           w' = w ∧ (e = FileNotFoundError ∨ e = ValueError))
  ∧ ((∃ w', add_route_table table_name w = (Raise FileNotFoundError, w'))
     ↔ files w !! rt_tables = None)
  ∧ ((∃ w', add_route_table table_name w = (Raise ValueError, w'))
     ↔ ∃ c line, files w !! rt_tables = Some c
                 ∧ line ∈ readlines c ∧ unreadable_entry line)
  ∧ add_route_table table_name
      (registry_of indented_comment []) = (Raise ValueError, registry_of indented_comment []).
Proof.
  destruct (files w !! rt_tables) as [c|] eqn:Hc.
  - destruct (scan_tables_raises (readlines c)) as [Hexn Hiff].
    destruct (scan_tables (readlines c)) as [[ls nums]|e0] eqn:Hs.
    + pose proof (add_route_table_run table_name w c ls nums Hc Hs) as Hrun.
      destruct (commit_lines_returns
                  (readlines c ++ [table_line (free_table_num nums) table_name]) w c Hc)
        as (b & w0 & Hcommit).
      rewrite Hcommit in Hrun.
      split; [intros e w'; rewrite Hrun; discriminate|].
      split; [split; [intros [w' H]; rewrite Hrun in H; discriminate|discriminate]|].
      split; [|by vm_compute].
      split; [intros [w' H]; rewrite Hrun in H; discriminate|].
      intros (c' & line & [= <-] & Hl & Hu).
      assert (Return (ls, nums) = Raise ValueError) as Hbad
        by (apply Hiff; by exists line).
      discriminate.
    + pose proof (add_route_table_raises table_name w c e0 Hc Hs) as Hrun.
      assert (e0 = ValueError) as -> by (by apply Hexn).
      split; [intros e w'; rewrite Hrun; intros [= <- <-]; auto|].
      split; [split; [intros [w' H]; rewrite Hrun in H; discriminate|discriminate]|].
      split; [|by vm_compute].
      split; [|by intros _; exists w].
      intros _. destruct (proj1 Hiff eq_refl) as (line & Hl & Hu).
      by exists c, line.
  - pose proof (add_route_table_missing table_name w Hc) as Hrun.
    split; [intros e w'; rewrite Hrun; intros [= <- <-]; auto|].
    split; [split; [done|by intros _; exists w]|].
    split; [|by vm_compute].
    split; [intros [w' H]; rewrite Hrun in H; discriminate|].
    by intros (c' & line & [=] & _).
Qed.

Section RegistryFrame.

Lemma paths_in (ops : list sudo_op) :
  forallb (fun op => forallb (fun p => bool_decide (p = rt_tables)
                                       || bool_decide (p = rt_tables_bck))
                             (op_paths op)) ops = true →
  Forall (fun op => op_paths op ⊆ [rt_tables; rt_tables_bck]) ops.
Proof.
  rewrite forallb_forall, Forall_forall. intros H op Hop p Hp.
  specialize (H op (proj1 (list_elem_of_In _ _) Hop)).
  rewrite forallb_forall in H. specialize (H p (proj1 (list_elem_of_In _ _) Hp)).
  apply orb_true_iff in H as [H|H]; apply bool_decide_eq_true in H; subst p.
  - left.
  - right. left.
Qed.

Lemma commit_lines_frame (ls : list text) (w : world) (c : text) :
  files w !! rt_tables = Some c →
  ∃ b w' ops,
    commit_lines ls w = (Return b, w')
    ∧ (∀ path, path ≠ rt_tables → path ≠ rt_tables_bck →
               files w' !! path = files w !! path)
    ∧ journal w' = journal w ++ ops
    ∧ (1 ≤ length ops ≤ 3)%nat
    ∧ Forall (fun op => op_paths op ⊆ [rt_tables; rt_tables_bck]) ops.
Proof.
  intros Hc.
  destruct (decide (rc (upcoming w 0) = 0)) as [H0|H0];
    [destruct (decide (rc (upcoming w 1) = 0)) as [H1|H1]|].
  - eexists _, _, _. split; [by apply (commit_succeeds ls w c)|]. simpl.
    split; [|split; [done|split; [simpl; lia|]]].
    + intros path Hp Hb.
      by rewrite lookup_delete_ne, lookup_insert_ne, lookup_insert_ne.
    + by apply paths_in.
  - eexists _, _, _. split; [by apply (commit_write_fails ls w c)|]. simpl.
    split; [|split; [done|split; [simpl; lia|]]].
    + intros path Hp Hb. destruct (rc (upcoming w 2) =? 0).
      * by rewrite lookup_insert_ne, leave_lookup_ne, lookup_insert_ne.
      * by rewrite !leave_lookup_ne, lookup_insert_ne.
    + by apply paths_in.
  - eexists _, _, _. split; [by apply (commit_backup_fails ls w c)|]. simpl.
    split; [|split; [done|split; [simpl; lia|]]].
    + intros path Hp Hb. by rewrite leave_lookup_ne.
    + by apply paths_in.
Qed.

End RegistryFrame.

(** X2.  Whatever [add_route_table] and [delete_route_table] return or
    raise, and whichever of the helper calls fail, every file other
    than the registry and its backup is as it was, and the call made at
    most three helper calls, each naming only these two paths. *)
Theorem editors_touch_only_registry (edit : text → io bool) (table_name : text)
    (w w' : world) (r : outcome bool) :
  edit = add_route_table ∨ edit = delete_route_table →
  edit table_name w = (r, w') →
  (∀ path, path ≠ rt_tables → path ≠ rt_tables_bck →
           files w' !! path = files w !! path)
  ∧ ∃ ops, journal w' = journal w ++ ops
           ∧ (length ops ≤ 3)%nat
           ∧ Forall (fun op => op_paths op ⊆ [rt_tables; rt_tables_bck]) ops.
Proof.
  intros Hedit Hrun.
  assert (w' = w ∨ ∃ ls c, files w !! rt_tables = Some c
                           ∧ commit_lines ls w = (r, w')) as [->|(ls & c & Hc & Hcommit)].
  { destruct (files w !! rt_tables) as [c|] eqn:Hc.
    - destruct (edit_commits edit table_name w c Hedit Hc) as [[e He]|[ls Hls]].
      + left. rewrite He in Hrun. by injection Hrun as _ <-.
      + right. exists ls, c. split; [done|]. by rewrite <- Hls.
    - left. destruct Hedit as [-> | ->].
      + rewrite (add_route_table_missing _ _ Hc) in Hrun. by injection Hrun as _ <-.
      + rewrite (delete_route_table_missing _ _ Hc) in Hrun. by injection Hrun as _ <-. }
  - split; [done|]. exists []. rewrite app_nil_r.
    split; [done|]. split; [simpl; lia|constructor].
  - destruct (commit_lines_frame ls w c Hc) as (b & w0 & ops & H0 & Hframe & Hj & Hlen & Hops).
    rewrite Hcommit in H0. injection H0 as -> ->.
    split; [done|]. exists ops. split; [done|]. split; [lia|done].
Qed.

Lemma editors_touch_only_registry_witness :
  files (add_route_table (txt "bar") (registry_of one_entry write_fails)).2 !! "/etc/hosts"%string
  = None.
Proof.
  pose proof (editors_touch_only_registry add_route_table (txt "bar")
                (registry_of one_entry write_fails)
                (add_route_table (txt "bar") (registry_of one_entry write_fails)).2
                (add_route_table (txt "bar") (registry_of one_entry write_fails)).1
                (or_introl eq_refl) ltac:(by vm_compute)) as [H _].
  rewrite (H "/etc/hosts"%string) by done. by vm_compute.
Defined.

Section CutLines.

Lemma split_keepends_line (body rest : text) :
  LF ∉ body →
  split_keepends (body ++ LF :: rest) = (body ++ [LF]) :: split_keepends rest.
Proof.
  induction body as [|c body IH]; intros Hb; simpl.
  - done.
  - rewrite bool_decide_eq_false_2 by (intros ->; apply Hb; left).
    rewrite IH; [done|]. intros ?. apply Hb. by right.
Qed.

Lemma split_keepends_unterminated (line : text) :
  unterminated line → split_keepends line = [line].
Proof.
  intros [Hne Hlf]. induction line as [|c line IH]; [done|]. simpl.
  rewrite bool_decide_eq_false_2 by (intros ->; apply Hlf; left).
  destruct line as [|d line]; [done|].
  rewrite IH; [done|done|]. intros ?. apply Hlf. by right.
Qed.

(** What [readlines] returns is cut as lines are. *)
Lemma cut_lines_split (s : text) : cut_lines (split_keepends s).
Proof.
  induction s as [|c s IH]; [done|]. simpl. case_bool_decide as Hc.
  - subst c. split; [|done]. left. exists []. split; [done|]. apply not_elem_of_nil.
  - destruct (split_keepends s) as [|l ls].
    + split; [|done]. right. split; [|done]. split; [done|].
      intros H. apply elem_of_cons in H as [H|H]; [congruence|].
      by apply elem_of_nil in H.
    + destruct IH as [Hl Hls]. split; [|done].
      destruct Hl as [(body & -> & Hb)|[[Hne Hlf] ->]].
      * left. exists (c :: body). split; [done|].
        intros H. apply elem_of_cons in H as [H|H]; [congruence|done].
      * right. split; [|done]. split; [done|].
        intros H. apply elem_of_cons in H as [H|H]; [congruence|done].
Qed.

(** Lines cut that way are the lines of their concatenation. *)
Lemma split_keepends_concat (ls : list text) :
  cut_lines ls → split_keepends (concat ls) = ls.
Proof.
  induction ls as [|l ls IH]; [done|]. intros [Hl Hls]. simpl.
  destruct Hl as [(body & -> & Hb)|[Hu ->]].
  - rewrite <- (assoc_L (++)). simpl. rewrite split_keepends_line by done.
    by rewrite IH.
  - simpl. rewrite app_nil_r. by apply split_keepends_unterminated.
Qed.

Lemma cut_lines_filter (f : text → bool) (ls : list text) :
  cut_lines ls → cut_lines (List.filter f ls).
Proof.
  induction ls as [|l ls IH]; [done|]. intros [Hl Hls]. simpl.
  destruct (f l); [|by apply IH]. split; [|by apply IH].
  destruct Hl as [Hl|[Hu ->]]; [by left|by right].
Qed.

Lemma universal_newlines_cons (c : ascii) (s : text) :
  universal_newlines (c :: s) =
    if bool_decide (c = CR) then
      match s with
      | d :: s'' =>
          if bool_decide (d = LF) then LF :: universal_newlines s''
          else LF :: universal_newlines s
      | [] => [LF]
      end
    else c :: universal_newlines s.
Proof. done. Qed.

Lemma universal_newlines_no_CR (s : text) : CR ∉ universal_newlines s.
Proof.
  assert (CR ≠ LF) as Hne by done.
  induction s as [s IH] using (induction_ltof1 _ (@length ascii)).
  destruct s as [|c [|d s]].
  - apply not_elem_of_nil.
  - simpl. case_bool_decide.
    + intros H0. apply elem_of_cons in H0 as [H0|H0]; [done|by apply elem_of_nil in H0].
    + intros H0. apply elem_of_cons in H0 as [H0|H0]; [done|by apply elem_of_nil in H0].
  - rewrite universal_newlines_cons. cbv beta iota. case_bool_decide as Hc.
    + case_bool_decide as Hd.
      * intros H0. apply elem_of_cons in H0 as [H0|H0]; [done|].
        revert H0. apply IH. unfold ltof. simpl. lia.
      * intros H0. apply elem_of_cons in H0 as [H0|H0]; [done|].
        revert H0. apply IH. unfold ltof. simpl. lia.
    + intros H0. apply elem_of_cons in H0 as [H0|H0]; [done|].
      revert H0. apply IH. unfold ltof. simpl. lia.
Qed.

Lemma concat_filter_elem {A} (f : list A → bool) (ls : list (list A)) (x : A) :
  x ∈ concat (List.filter f ls) → x ∈ concat ls.
Proof.
  induction ls as [|l ls IH]; [done|]. simpl. destruct (f l); simpl.
  - rewrite !elem_of_app. intros [H|H]; [by left|right; by apply IH].
  - rewrite elem_of_app. intros H. right. by apply IH.
Qed.

(** Writing back a selection of the lines read and reading again gives
    that selection. *)
Lemma readlines_concat_filter (f : text → bool) (c : text) :
  readlines (concat (List.filter f (readlines c))) = List.filter f (readlines c).
Proof.
  unfold readlines at 1. rewrite universal_newlines_id.
  - apply split_keepends_concat, cut_lines_filter, cut_lines_split.
  - intros H. apply concat_filter_elem in H. unfold readlines in H.
    rewrite concat_split_keepends in H. by apply universal_newlines_no_CR in H.
Qed.

Lemma filter_filter_same {A} (f : A → bool) (l : list A) :
  List.filter f (List.filter f l) = List.filter f l.
Proof.
  induction l as [|x l IH]; [done|]. simpl. destruct (f x) eqn:E; [|done].
  simpl. by rewrite E, IH.
Qed.

End CutLines.

(** X3.  After a successful [delete_route_table], the registry read
    again gives the lines read before without those naming the table,
    so no line has the table name as its second token any more; and a
    second successful [delete_route_table] of the same name leaves the
    file as the first one left it. *)
Theorem delete_route_table_idempotent (table_name : text) (w w1 : world) (c : text) :
  files w !! rt_tables = Some c →
  delete_route_table table_name w = (Return true, w1) →
  ∃ c1, files w1 !! rt_tables = Some c1
    ∧ readlines c1
      = List.filter (fun line => negb (names_table table_name line)) (readlines c)
    ∧ (∀ line, line ∈ readlines c1 → ¬ second_token_is table_name line)
    ∧ ∀ w2, delete_route_table table_name w1 = (Return true, w2) →
            files w2 !! rt_tables = Some c1.
Proof.
  intros Hc Hdel.
  rewrite (delete_route_table_run _ _ _ Hc) in Hdel.
  apply (commit_lines_true _ _ _ _ Hc) in Hdel.
  eexists. split; [exact Hdel|].
  rewrite readlines_concat_filter. split; [done|]. split.
  - intros line Hl Hsec. apply list_elem_of_In, filter_In in Hl as [_ Hl].
    apply names_table_spec in Hsec. by rewrite Hsec in Hl.
  - intros w2 Hdel2.
    rewrite (delete_route_table_run _ _ _ Hdel) in Hdel2.
    apply (commit_lines_true _ _ _ _ Hdel) in Hdel2.
    by rewrite readlines_concat_filter, filter_filter_same in Hdel2.
Qed.

Lemma delete_route_table_idempotent_witness :
  ∃ c1, files (delete_route_table (txt "b") (registry_of three_entries [])).2
          !! rt_tables = Some c1
        ∧ files (delete_route_table (txt "b")
                   (delete_route_table (txt "b") (registry_of three_entries [])).2).2
            !! rt_tables = Some c1.
Proof.
  destruct (delete_route_table_idempotent (txt "b") (registry_of three_entries [])
              (delete_route_table (txt "b") (registry_of three_entries [])).2
              three_entries ltac:(by vm_compute) ltac:(by vm_compute))
    as (c1 & Hc1 & _ & _ & Hagain).
  exists c1. split; [done|]. apply Hagain. by vm_compute.
Defined.

(** X4.  Deleting a name that no line of the registry has as its second
    token rewrites the registry with the text it had, when that text
    holds no carriage return; with carriage returns, every one of them
    (alone or before a newline) comes back as a newline. *)
Theorem delete_route_table_absent_name (table_name : text) (w w' : world) (c : text) :
  files w !! rt_tables = Some c →
  (∀ line, line ∈ readlines c → ¬ second_token_is table_name line) →
  delete_route_table table_name w = (Return true, w') →
  files w' !! rt_tables = Some (universal_newlines c)
  ∧ (CR ∉ c → files w' !! rt_tables = Some c).
Proof.
  intros Hc Hfresh Hdel.
  rewrite (delete_route_table_run _ _ _ Hc) in Hdel.
  apply (commit_lines_true _ _ _ _ Hc) in Hdel.
  rewrite filter_keeps_all in Hdel.
  - unfold readlines in Hdel. rewrite concat_split_keepends in Hdel.
    split; [done|]. intros Hcr. by rewrite universal_newlines_id in Hdel.
  - intros line Hl. apply negb_true_iff, not_true_is_false.
    intros Hn. apply names_table_spec in Hn. by apply (Hfresh line).
Qed.

Lemma delete_route_table_absent_name_witness :
  files (delete_route_table (txt "zz") (registry_of three_entries [])).2 !! rt_tables
  = Some three_entries.
Proof.
  refine (proj2 (delete_route_table_absent_name (txt "zz") (registry_of three_entries [])
           (delete_route_table (txt "zz") (registry_of three_entries [])).2
           three_entries ltac:(by vm_compute) _ ltac:(by vm_compute)) _).
  - intros line Hl (t0 & rest & Hs). vm_compute in Hl.
    repeat (apply elem_of_cons in Hl as [->|Hl]; [vm_compute in Hs; discriminate|]).
    by apply elem_of_nil in Hl.
  - vm_compute. intros H.
    repeat (apply elem_of_cons in H as [H|H]; [discriminate|]).
    by apply elem_of_nil in H.
Defined.

(** X5.  When every number from 0 to 254 is taken, the search of
    [add_route_table] for a free one finds none and the call goes on
    with the number it started from: it commits the lines read followed
    by an entry numbered [-1], and reports success when the helpers
    do. *)
Theorem add_route_table_exhausted (table_name : text) (w : world) (c : text)
    (ls : list text) (nums : list Z) :
  files w !! rt_tables = Some c →
  scan_tables (readlines c) = Return (ls, nums) →
  (∀ k, 0 ≤ k < 255 → k ∈ nums) →
  add_route_table table_name w =
    commit_lines (readlines c ++ [txt "-1" ++ [TAB] ++ table_name ++ [LF]]) w
  ∧ (rc (upcoming w 0) = 0 → rc (upcoming w 1) = 0 →
     ∃ w', add_route_table table_name w = (Return true, w')
           ∧ files w' !! rt_tables
             = Some (concat (readlines c) ++ txt "-1" ++ [TAB] ++ table_name ++ [LF])).
Proof.
  intros Hc Hs Hall.
  pose proof (add_route_table_run table_name w c ls nums Hc Hs) as Hrun.
  rewrite (free_table_num_exhausted nums Hall) in Hrun.
  change (table_line (-1) table_name)
    with (txt "-1" ++ [TAB] ++ table_name ++ [LF]) in Hrun.
  split; [done|]. intros H0 H1. eexists. split.
  - rewrite Hrun. by apply (commit_succeeds _ w c).
  - simpl. rewrite lookup_delete_ne by done. rewrite lookup_insert_eq.
    rewrite concat_app. simpl. by rewrite app_nil_r.
Qed.

Lemma add_route_table_exhausted_witness :
  add_route_table (txt "new") (registry_of full_registry []) =
    commit_lines (readlines full_registry ++ [txt "-1" ++ [TAB] ++ txt "new" ++ [LF]])
      (registry_of full_registry []).
Proof.
  refine (proj1 (add_route_table_exhausted (txt "new") (registry_of full_registry [])
                   full_registry (readlines full_registry) (seqZ 0 255)
                   ltac:(by vm_compute) ltac:(by vm_compute) _)).
  intros k Hk. apply elem_of_seqZ. lia.
Defined.

Section ReadBack.

Lemma scan_tables_app (a b : list text) :
  scan_tables (a ++ b) =
    '(la, na) ← scan_tables a;
    '(lb, nb) ← scan_tables b;
    Return (la ++ lb, na ++ nb).
Proof.
  induction a as [|line a IH]; simpl.
  - by destruct (scan_tables b) as [[lb nb]|e].
  - destruct (_ && _).
    + destruct (py_split line) as [|tok rest]; [done|].
      destruct (py_int tok) as [n|e]; [|done]. simpl. rewrite IH.
      destruct (scan_tables a) as [[la na]|e]; [|done]. simpl.
      by destruct (scan_tables b) as [[lb nb]|e].
    + rewrite IH. destruct (scan_tables a) as [[la na]|e]; [|done]. simpl.
      by destruct (scan_tables b) as [[lb nb]|e].
Qed.

Lemma digit_not_hash (c : ascii) : is_digit c → c ≠ HASH.
Proof. intros [d Hd] ->. by vm_compute in Hd. Qed.

Lemma fmt_d_head (z : Z) : ∃ c s, fmt_d z = c :: s ∧ c ≠ HASH.
Proof.
  unfold fmt_d. destruct (Z.to_int z) as [d|d]; simpl.
  - destruct (nilzero_chars d) as (c & s & -> & Hd). exists c, s. split; [done|].
    apply Forall_cons in Hd as [Hc _]. by apply digit_not_hash.
  - by eexists _, _.
Qed.

(** The reading loop takes a rendered entry for what it is. *)
Lemma scan_tables_entry (n : Z) (table_name : text) :
  scan_tables [table_line n table_name] = Return ([table_line n table_name], [n]).
Proof.
  cbn [scan_tables].
  assert (py_strip (table_line n table_name) ≠ []) as Hne.
  { intros H. apply blank_iff_no_token in H. by rewrite table_line_tokens in H. }
  assert ((0 <? length (py_strip (table_line n table_name)))%nat = true) as ->.
  { destruct (py_strip (table_line n table_name)); [done|]. done. }
  assert (startswith [HASH] (table_line n table_name) = false) as ->.
  { unfold table_line. destruct (fmt_d_head n) as (c & s & -> & Hc). simpl.
    by rewrite bool_decide_eq_false_2 by congruence. }
  cbn [andb negb]. rewrite table_line_tokens, py_int_fmt_d. done.
Qed.

End ReadBack.

(** X6.  After a successful [add_route_table] on a registry without
    carriage returns that is empty or ends with a newline, with a name of
    one token, the registry reads back as before with one more entry:
    the reading loop accepts it and finds the numbers it found before
    followed by the number given to the new table.  If the numbers were
    pairwise distinct and one of 0..254 was free, they still are
    pairwise distinct. *)
Theorem add_route_table_reads_back (table_name : text) (w w1 : world) (c : text)
    (ls : list text) (nums : list Z) :
  files w !! rt_tables = Some c →
  CR ∉ c →
  newline_terminated c →
  one_token table_name →
  scan_tables (readlines c) = Return (ls, nums) →
  add_route_table table_name w = (Return true, w1) →
  let n := free_table_num nums in
  ∃ c1, files w1 !! rt_tables = Some c1
    ∧ readlines c1 = readlines c ++ [table_line n table_name]
    ∧ scan_tables (readlines c1) = Return (readlines c1, nums ++ [n])
    ∧ ((∃ k, 0 ≤ k < 255 ∧ k ∉ nums) → NoDup nums → NoDup (nums ++ [n])).
Proof.
  intros Hc Hcr Hnl Hname Hs Hadd n.
  rewrite (add_route_table_run _ _ _ _ _ Hc Hs) in Hadd.
  apply (commit_lines_true _ _ _ _ Hc) in Hadd.
  rewrite concat_app, concat_readlines in Hadd by done.
  simpl in Hadd. rewrite app_nil_r in Hadd.
  eexists. split; [exact Hadd|].
  rewrite readlines_with_entry by done. split; [done|]. split.
  - rewrite scan_tables_app, Hs, scan_tables_entry. simpl.
    by rewrite (scan_tables_lines _ _ _ Hs).
  - intros Hfree Hnd. destruct (free_table_num_least nums Hfree) as (_ & Hnot & _).
    apply NoDup_app. split; [done|]. split.
    + intros x Hx Hx'. apply list_elem_of_singleton in Hx'. by subst x.
    + apply NoDup_singleton.
Qed.

Lemma add_route_table_reads_back_witness :
  ∃ c1, files (add_route_table (txt "bar") (registry_of three_entries [])).2
          !! rt_tables = Some c1
        ∧ scan_tables (readlines c1) = Return (readlines c1, [0; 1; 2] ++ [3]).
Proof.
  destruct (add_route_table_reads_back (txt "bar") (registry_of three_entries [])
              (add_route_table (txt "bar") (registry_of three_entries [])).2
              three_entries (readlines three_entries) [0; 1; 2])
    as (c1 & Hc1 & _ & Hscan & _).
  - by vm_compute.
  - vm_compute. intros H.
    repeat (apply elem_of_cons in H as [H|H]; [discriminate|]).
    by apply elem_of_nil in H.
  - right. by vm_compute.
  - split; [done|]. by repeat constructor.
  - by vm_compute.
  - by vm_compute.
  - exists c1. split; [done|]. exact Hscan.
Defined.

(** ** The prefix conversion outside its range, and its injectivity *)

(** X7.  [network_prefix_to_mask] returns a mask exactly for the prefix
    lengths 0..32: above 32 the shift count is negative and the shift
    raises [ValueError]; below 0 the value has more than 32 bits and
    [pack] raises [struct.error]. *)
Theorem network_prefix_to_mask_domain (prefix : Z) :
  (32 < prefix → network_prefix_to_mask prefix = Raise ValueError)
  ∧ (prefix < 0 → network_prefix_to_mask prefix = Raise StructError)
  ∧ ((∃ mask, network_prefix_to_mask prefix = Return mask) ↔ 0 ≤ prefix ≤ 32).
Proof.
  assert (32 < prefix → network_prefix_to_mask prefix = Raise ValueError) as Hhigh.
  { intros H. unfold network_prefix_to_mask, py_shiftl.
    destruct (32 - prefix <? 0) eqn:E; [done|]. apply Z.ltb_ge in E. lia. }
  assert (prefix < 0 → network_prefix_to_mask prefix = Raise StructError) as Hlow.
  { intros H. unfold network_prefix_to_mask, py_shiftl.
    destruct (32 - prefix <? 0) eqn:E; [apply Z.ltb_lt in E; lia|]. simpl.
    rewrite Z.shiftl_1_l.
    set (b := 2 ^ (32 - prefix) - 1).
    assert (Z.testbit (Z.lxor 4294967295 b) 32 = true) as Hbit.
    { rewrite Z.lxor_spec. unfold b. rewrite Z.sub_1_r, <- Z.ones_equiv.
      rewrite Z.testbit_ones_nonneg by lia.
      destruct (32 <? 32 - prefix) eqn:E2; [done|]. apply Z.ltb_ge in E2. lia. }
    assert (0 ≤ b) as Hb.
    { unfold b. pose proof (Z.pow_pos_nonneg 2 (32 - prefix)). lia. }
    assert (0 ≤ Z.lxor 4294967295 b) as Hnn by (apply Z.lxor_nonneg; lia).
    assert (¬ Z.lxor 4294967295 b ≤ 4294967295) as Hbig.
    { intros Hle.
      destruct (decide (Z.lxor 4294967295 b = 0)) as [E0|E0];
        [rewrite E0 in Hbit; by rewrite Z.bits_0 in Hbit|].
      rewrite Z.bits_above_log2 in Hbit; [done|done|].
      apply Z.log2_lt_pow2; [lia|]. change (2 ^ 32) with 4294967296. lia. }
    unfold pack_be_I. destruct (0 <=? _); [|done].
    destruct (Z.lxor 4294967295 b <=? 4294967295) eqn:E3; [|done].
    apply Z.leb_le in E3. done. }
  split; [done|]. split; [done|]. split.
  - intros [mask Hm].
    destruct (decide (prefix < 0)) as [H|H]; [rewrite Hlow in Hm; done|].
    destruct (decide (32 < prefix)) as [H'|H']; [rewrite Hhigh in Hm; done|]. lia.
  - intros H. exists (render_be (cidr_mask_value prefix)).
    unfold network_prefix_to_mask. rewrite mask_bits_value by done. simpl.
    change (Z.lxor 4294967295 (2 ^ (32 - prefix) - 1)) with (cidr_mask_value prefix).
    by rewrite pack_be_I_octets by (by apply cidr_mask_value_range).
Qed.

(** X8.  Two different prefix lengths of 0..32 have different
    netmasks: the netmask determines the prefix length. *)
Theorem network_prefix_to_mask_injective (p q : Z) :
  0 ≤ p ≤ 32 → 0 ≤ q ≤ 32 → p ≠ q →
  network_prefix_to_mask p ≠ network_prefix_to_mask q.
Proof.
  intros Hp Hq Hne Heq. apply Hne.
  assert (forallb (fun a => forallb (fun b =>
            implb (bool_decide (network_prefix_to_mask a = network_prefix_to_mask b))
                  (a =? b)) (seqZ 0 33)) (seqZ 0 33) = true) as Hall
    by (vm_compute; reflexivity).
  rewrite forallb_forall in Hall.
  specialize (Hall p (proj1 (list_elem_of_In _ _) (prefix_in_range p Hp))).
  rewrite forallb_forall in Hall.
  specialize (Hall q (proj1 (list_elem_of_In _ _) (prefix_in_range q Hq))).
  rewrite bool_decide_eq_true_2 in Hall by done. by apply Z.eqb_eq.
Qed.

Lemma network_prefix_to_mask_injective_witness :
  network_prefix_to_mask 8 ≠ network_prefix_to_mask 16.
Proof. apply (network_prefix_to_mask_injective 8 16); lia. Defined.

(** ** The namespace inspector: keys, tags and parsing *)

Section InspectorMore.

Context (h : host).

Lemma result_set_keys (_ns : pystring) (recs : list pydict) (r : topology) :
  (∀ k, k ∈ map fst (result_set _ns recs r) ↔ k = _ns ∨ k ∈ map fst r)
  ∧ (NoDup (map fst r) → NoDup (map fst (result_set _ns recs r))).
Proof.
  induction r as [|[k' v'] r [IHk IHn]]; simpl.
  - split.
    + intros k. rewrite list_elem_of_singleton, elem_of_nil. tauto.
    + intros _. apply NoDup_singleton.
  - case_bool_decide as Hk; simpl.
    + subst k'. split; [|done]. intros k. rewrite elem_of_cons. tauto.
    + split.
      * intros k. rewrite !elem_of_cons, IHk. tauto.
      * intros [Hnot Hnd]%NoDup_cons. apply NoDup_cons. split; [|by apply IHn].
        rewrite IHk. intros [?|?]; [congruence|done].
Qed.

Lemma namespaces_loop_keys (_ns_list : list pystring) (acc result : topology) :
  namespaces_loop h _ns_list acc = Return result →
  (∀ k, k ∈ map fst result ↔ k ∈ _ns_list ∨ k ∈ map fst acc)
  ∧ (NoDup (map fst acc) → NoDup (map fst result)).
Proof.
  revert acc. induction _ns_list as [|_ns rest IH]; intros acc; simpl.
  - intros [= <-]. split; [|done]. intros k. rewrite elem_of_nil. tauto.
  - intros H.
    apply bind_Return_inv in H as (_nsls & _ & H).
    apply bind_Return_inv in H as (recs & _ & H).
    destruct (IH _ H) as [IHk IHn].
    destruct (result_set_keys _ns recs acc) as [Hk Hn]. split.
    + intros k. rewrite IHk, Hk, elem_of_cons. tauto.
    + intros Hnd. by apply IHn, Hn.
Qed.

(** Every list of records in the result comes from the links listed for
    its namespace. *)
Lemma namespaces_loop_links (_ns_list : list pystring) (acc result : topology)
    (k : pystring) (v : list pydict) :
  namespaces_loop h _ns_list acc = Return result →
  (k, v) ∈ result →
  (k, v) ∈ acc
  ∨ ∃ _nsls, _get_link_names h k = Return _nsls
             ∧ namespace_links h k _nsls = Return v.
Proof.
  revert acc. induction _ns_list as [|_ns rest IH]; intros acc; simpl.
  - intros [= <-]. by left.
  - intros H Hin.
    apply bind_Return_inv in H as (_nsls & Hnames & H).
    apply bind_Return_inv in H as (recs & Hrecs & H).
    destruct (IH _ H Hin) as [Hacc|?]; [|by right].
    apply result_set_elem in Hacc as [?|[= -> ->]]; [by left|].
    right. by exists _nsls.
Qed.

Lemma dict_get_set_eq {A} (k : text) (v : A) (d : list (text * A)) :
  dict_get k (dict_set k v d) = Some v.
Proof.
  induction d as [|[k' v'] d IH]; simpl.
  - by rewrite bool_decide_eq_true_2.
  - case_bool_decide as Hk; simpl.
    + by rewrite bool_decide_eq_true_2.
    + by rewrite bool_decide_eq_false_2.
Qed.

Lemma dict_get_set_ne {A} (k k' : text) (v : A) (d : list (text * A)) :
  k' ≠ k → dict_get k (dict_set k' v d) = dict_get k d.
Proof.
  intros Hne. induction d as [|[k0 v0] d IH]; simpl.
  - by rewrite bool_decide_eq_false_2.
  - case_bool_decide as Hk; simpl.
    + subst k0. by rewrite !bool_decide_eq_false_2.
    + case_bool_decide; [done|apply IH].
Qed.

Lemma link_tag_tagged (idx name : pystring) (rec : pydict) :
  link_tag (tagged idx name rec)
  = (Some (pystring_val idx), Some (pystring_val name)).
Proof.
  unfold link_tag, tagged. f_equal.
  - rewrite dict_get_set_ne by done. apply dict_get_set_eq.
  - apply dict_get_set_eq.
Qed.

(** The records of a namespace carry the tags of its links, in the
    order of the links, at most one record for a link. *)
Lemma namespace_links_tags (_ns : pystring) (_nsls : list (pystring * pystring))
    (recs : list pydict) :
  namespace_links h _ns _nsls = Return recs →
  map link_tag recs
  `sublist_of` map (fun p => (Some (pystring_val p.1), Some (pystring_val p.2))) _nsls.
Proof.
  revert recs. induction _nsls as [|[idx name] rest IH]; intros recs;
    cbn [namespace_links map fst snd].
  - by intros [= <-].
  - intros H.
    apply bind_Return_inv in H as (link & _ & H).
    apply bind_Return_inv in H as (ip & _ & H).
    destruct (_ =? _)%nat.
    + apply sublist_cons. by apply IH.
    + apply bind_Return_inv in H as (recs' & Hrecs & H). injection H as <-.
      cbn [map].
      match goal with
      | |- _ :: ?l `sublist_of` ?b =>
          change (link_tag (tagged idx name (dict_update link ip)) :: l `sublist_of` b)
      end.
      rewrite link_tag_tagged. apply sublist_skip. by apply IH.
Qed.

Lemma split_on_word (sep : ascii) (a b : text) :
  sep ∉ a → split_on sep (a ++ sep :: b) = a :: split_on sep b.
Proof.
  induction a as [|c a IH]; intros Ha; simpl.
  - by rewrite bool_decide_eq_true_2.
  - rewrite bool_decide_eq_false_2 by (intros ->; apply Ha; left).
    rewrite IH; [done|]. intros ?. apply Ha. by right.
Qed.

Lemma split_on_no_sep (sep : ascii) (a : text) :
  sep ∉ a → split_on sep a = [a].
Proof.
  induction a as [|c a IH]; intros Ha; simpl; [done|].
  rewrite bool_decide_eq_false_2 by (intros ->; apply Ha; left).
  rewrite IH; [done|]. intros ?. apply Ha. by right.
Qed.

Lemma split_on_head (sep : ascii) (s : text) :
  ∃ a rest, split_on sep s = a :: rest.
Proof.
  induction s as [|c s (a & rest & IH)]; simpl; [by eexists _, _|].
  case_bool_decide; [by eexists _, _|]. rewrite IH. by eexists _, _.
Qed.

End InspectorMore.

(** X9.  The keys of what [get_network_namespace_infos] returns are the
    empty string, for the default namespace, and for every line of
    [ip netns list] the bytes before its first space; each key is there
    once, however often a namespace is listed. *)
Theorem namespace_keys (h : host) (result : topology) :
  get_network_namespace_infos h = Return result →
  NoDup (map fst result)
  ∧ ∃ out, check_output h [txt "/usr/sbin/ip"; txt "netns"; txt "list"] = Some out
      ∧ ∀ k, k ∈ map fst result ↔
             k = Str [] ∨ ∃ line, line ∈ bytes_splitlines out ∧ k = namespace_of_line line.
Proof.
  unfold get_network_namespace_infos, _get_namespaces. intros H.
  apply bind_Return_inv in H as (_ns_list & Hns & H).
  apply bind_Return_inv in Hns as (out & Hout & Hns). injection Hns as <-.
  destruct (check_output h _) as [out'|] eqn:Hcheck; [|done]. injection Hout as ->.
  destruct (namespaces_loop_keys h _ _ _ H) as [Hk Hn].
  split; [apply Hn, NoDup_nil_2|]. exists out. split; [done|].
  intros k. rewrite Hk, elem_of_app, list_elem_of_singleton, list_elem_of_fmap.
  rewrite elem_of_nil. unfold namespace_of_line. split.
  - intros [[(line & -> & Hl)| ->]|Hnil]; [right; by exists line|by left|done].
  - intros [-> |(line & Hl & ->)]; left; [by right|left; by exists line].
Qed.

Lemma namespace_keys_witness :
  map fst (topology_of blue_host) = [Bytes (txt "blue"); Str []]
  ∧ NoDup (map fst (topology_of blue_host)).
Proof.
  split; [by vm_compute|].
  exact (proj1 (namespace_keys blue_host (topology_of blue_host) ltac:(by vm_compute))).
Defined.

(** X10.  In what [get_network_namespace_infos] returns, the records of
    a namespace follow the links listed for it: every record has the
    ['index'] and ['device'] of a link of the listing, the records come
    in the order of the listing, and no link has more than one
    record. *)
Theorem records_follow_links (h : host) (result : topology)
    (k : pystring) (recs : list pydict) :
  get_network_namespace_infos h = Return result →
  (k, recs) ∈ result →
  ∃ _nsls, _get_link_names h k = Return _nsls
    ∧ map link_tag recs
      `sublist_of` map (fun p => (Some (pystring_val p.1), Some (pystring_val p.2))) _nsls
    ∧ (length recs ≤ length _nsls)%nat.
Proof.
  unfold get_network_namespace_infos. intros H Hk.
  apply bind_Return_inv in H as (_ns_list & _ & H).
  destruct (namespaces_loop_links h _ _ _ _ _ H Hk) as [Hnil|(_nsls & Hnames & Hl)];
    [by apply elem_of_nil in Hnil|].
  exists _nsls. split; [done|].
  pose proof (namespace_links_tags h _ _ _ Hl) as Hsub. split; [done|].
  apply sublist_length in Hsub. by rewrite !length_map in Hsub.
Qed.

Lemma records_follow_links_witness :
  ∃ _nsls, _get_link_names quiet_lo_host (Str []) = Return _nsls
    ∧ map link_tag (default [] (snd <$> head (topology_of quiet_lo_host)))
      `sublist_of` map (fun p => (Some (pystring_val p.1), Some (pystring_val p.2))) _nsls.
Proof.
  destruct (records_follow_links quiet_lo_host (topology_of quiet_lo_host) (Str [])
              (default [] (snd <$> head (topology_of quiet_lo_host)))
              ltac:(by vm_compute) ltac:(vm_compute; by left))
    as (_nsls & Hnames & Hsub & _).
  by exists _nsls.
Defined.

(** X11.  The link listing is parsed by position: a line that starts
    with an index and a name, each followed by a colon and a space,
    gives that index and that name, whatever follows; a line with no
    space at all makes [_get_link_names] raise [IndexError]. *)
Theorem link_name_pair_parses (idx name rest : text) :
  SP ∉ idx → SP ∉ name →
  link_name_pair (idx ++ txt ": " ++ name ++ txt ": " ++ rest)
  = Return (Bytes idx, Bytes name)
  ∧ (∀ h namespace out line,
       call_output h (link_list_cmd namespace) = Some out →
       bytes_splitlines out = [line] → SP ∉ line →
       _get_link_names h namespace = Raise IndexError).
Proof.
  intros Hi Hn. split.
  - unfold link_name_pair.
    assert (SP ∉ idx ++ [":"%char]) as Hi'.
    { rewrite elem_of_app, list_elem_of_singleton. intros [?|?]; done. }
    assert (SP ∉ name ++ [":"%char]) as Hn'.
    { rewrite elem_of_app, list_elem_of_singleton. intros [?|?]; done. }
    change (idx ++ txt ": " ++ name ++ txt ": " ++ rest)
      with (idx ++ [":"%char] ++ SP :: name ++ [":"%char] ++ SP :: rest).
    rewrite (assoc_L (++) idx), split_on_word by done.
    rewrite (assoc_L (++) name), split_on_word by done.
    cbv iota. by rewrite !removelast_last.
  - intros h namespace out line Hout Hlines Hline.
    unfold _get_link_names. rewrite Hout. simpl. rewrite Hlines. simpl.
    unfold link_name_pair. by rewrite split_on_no_sep.
Qed.

Lemma link_name_pair_parses_witness :
  link_name_pair (txt "2" ++ txt ": " ++ txt "ens3" ++ txt ": "
                  ++ txt "<BROADCAST,MULTICAST,UP,LOWER_UP> mtu 9000")
  = Return (Bytes (txt "2"), Bytes (txt "ens3")).
Proof.
  refine (proj1 (link_name_pair_parses (txt "2") (txt "ens3")
                   (txt "<BROADCAST,MULTICAST,UP,LOWER_UP> mtu 9000") _ _)).
  - vm_compute. intros H.
    repeat (apply elem_of_cons in H as [H|H]; [discriminate|]).
    by apply elem_of_nil in H.
  - vm_compute. intros H.
    repeat (apply elem_of_cons in H as [H|H]; [discriminate|]).
    by apply elem_of_nil in H.
Defined.

Section AddressSelection.

Context (h : host).

Lemma has_addr_info_no_address (obj : pyval) :
  no_address obj → has_addr_info obj = Return false.
Proof.
  intros (d & -> & [H|[H|[rest H]]]);
    unfold has_addr_info, py_contains, py_getitem; rewrite !H.
  - rewrite bool_decide_eq_false_2; [done|]. by intros [? ?].
  - by rewrite bool_decide_eq_true_2 by (by eexists).
  - by rewrite bool_decide_eq_true_2 by (by eexists).
Qed.

Lemma has_addr_info_has_address (obj : pyval) :
  has_address obj → has_addr_info obj = Return true.
Proof.
  intros (d & kv & a0 & rest & -> & H).
  unfold has_addr_info, py_contains, py_getitem. rewrite !H.
  by rewrite bool_decide_eq_true_2 by (by eexists).
Qed.

Lemma first_ip_record_skips (skipped rest : list pyval) :
  Forall no_address skipped →
  first_ip_record h (skipped ++ rest) = first_ip_record h rest.
Proof.
  induction 1 as [|obj skipped Hobj _ IH]; [done|]. simpl.
  by rewrite has_addr_info_no_address.
Qed.

End AddressSelection.

(** X12.  [_fetch_ip_info] passes over the objects of the address query
    that have no [addr_info], an empty one, or one whose first element
    is empty, and builds its record from the first object whose
    [addr_info] starts with a non-empty element; when every object is
    passed over, the record is empty. *)
Theorem fetch_ip_info_first_address (h : host) (namespace ifname : pystring)
    (raw : text) (skipped : list pyval) :
  call_output h (ip_address_cmd namespace ifname) = Some raw →
  raw ≠ [] →
  Forall no_address skipped →
  (json_loads h (bytes_strip raw) = Return (PList skipped) →
   _fetch_ip_info h namespace ifname = Return [])
  ∧ (∀ obj rest,
       json_loads h (bytes_strip raw) = Return (PList (skipped ++ obj :: rest)) →
       has_address obj →
       _fetch_ip_info h namespace ifname = ip_record h obj).
Proof.
  intros Hraw Hne Hskip. unfold _fetch_ip_info. rewrite Hraw.
  rewrite bool_decide_eq_false_2 by done. split.
  - intros ->. simpl.
    rewrite <- (app_nil_r skipped). by rewrite first_ip_record_skips.
  - intros obj rest -> Hobj. simpl. rewrite first_ip_record_skips by done.
    simpl. by rewrite has_addr_info_has_address.
Qed.

Lemma fetch_ip_info_first_address_witness :
  dict_get (txt "address")
    (match _fetch_ip_info skipping_host (Str []) (Bytes (txt "ens3")) with
     | Return r => r | Raise _ => [] end)
  = Some (PStr (txt "10.0.0.5")).
Proof.
  assert (Forall no_address
            [ PDict [ (txt "addr_info", PList []) ];
              PDict [ (txt "addr_info", PList [ PDict [] ]) ] ]) as Hskip.
  { repeat constructor.
    - eexists. split; [done|]. right. by left.
    - eexists. split; [done|]. right. right. by eexists. }
  assert (has_address
            (PDict [ (txt "addr_info",
                      PList [ PDict [ (txt "local", PStr (txt "10.0.0.5"));
                                      (txt "prefixlen", PInt 24) ] ]) ])) as Hobj
    by (by eexists _, _, _, _).
  rewrite (proj2 (fetch_ip_info_first_address skipping_host (Str []) (Bytes (txt "ens3"))
                    (ens3_addr_json ++ [LF]) _
                    ltac:(by vm_compute) ltac:(done) Hskip)
             _ [] ltac:(by vm_compute) Hobj).
  by vm_compute.
Defined.

(** ** The interface enumerator: records, names and virtual functions *)

Section EnumeratorMore.

Context (h : host).

Lemma dict_set_keys {A} (k : text) (v : A) (d : list (text * A)) :
  (∀ k', k' ∈ map fst (dict_set k v d) ↔ k' = k ∨ k' ∈ map fst d)
  ∧ (NoDup (map fst d) → NoDup (map fst (dict_set k v d))).
Proof.
  induction d as [|[k0 v0] d [IHk IHn]]; simpl.
  - split.
    + intros k'. rewrite list_elem_of_singleton, elem_of_nil. tauto.
    + intros _. apply NoDup_singleton.
  - case_bool_decide as Hk; simpl.
    + subst k0. split; [|done]. intros k'. rewrite elem_of_cons. tauto.
    + split.
      * intros k'. rewrite !elem_of_cons, IHk. tauto.
      * intros [Hnot Hnd]%NoDup_cons. apply NoDup_cons. split; [|by apply IHn].
        rewrite IHk. intros [?|?]; [congruence|done].
Qed.

Lemma dict_get_is_Some {A} (k : text) (d : list (text * A)) :
  is_Some (dict_get k d) ↔ k ∈ map fst d.
Proof.
  induction d as [|[k0 v0] d IH]; simpl.
  - rewrite elem_of_nil. split; [by intros [? ?]|done].
  - rewrite elem_of_cons. case_bool_decide as Hk.
    + split; [by left|by eexists].
    + rewrite IH. split; [by right|]. intros [?|?]; [congruence|done].
Qed.

Lemma dict_get_set_is_Some {A} (k k' : text) (v : A) (d : list (text * A)) :
  is_Some (dict_get k d) → is_Some (dict_get k (dict_set k' v d)).
Proof.
  rewrite !dict_get_is_Some. intros H. apply (dict_set_keys k' v d). by right.
Qed.

(** Storing the record of an interface keeps the invariant, when the
    record is what sysfs says and its PCI id, if any, has just been
    mapped to the interface. *)
Lemma invariant_store (n : text) (info : iface_info) (st : ifaces)
    (p2i : list (text * text)) :
  enumeration_invariant h st →
  sysfs_record h n info →
  (∀ p, is_Some (dict_get p (pci_id_to_iface st)) → is_Some (dict_get p p2i)) →
  (∀ p n', dict_get p p2i = Some n' →
           dict_get p (pci_id_to_iface st) = Some n' ∨ (n' = n ∧ device_pci h n p)) →
  (∀ p, pci info = Some p → is_Some (dict_get p p2i)) →
  (∀ p, device_pci h n p → physical info = true ∧ pci info = Some p) →
  enumeration_invariant h (Ifaces (dict_set n info (ret st)) p2i).
Proof.
  intros (Hrec & Hmap & Hpci) Hinfo Hgrow Hnew Hown Hdev.
  split; [|split]; cbn [ret pci_id_to_iface].
  - by apply Forall_dict_set.
  - intros p n' Hp. destruct (Hnew p n' Hp) as [Hold|[-> Hd]].
    + destruct (Hmap p n' Hold) as [Hd Hn']. split; [done|].
      by apply dict_get_set_is_Some.
    + split; [done|]. rewrite dict_get_set_eq. by eexists.
  - apply Forall_dict_set; [done|].
    eapply Forall_impl; [exact Hpci|]. intros kv Hkv p Hp. by apply Hgrow, Hkv.
Qed.

Lemma enumerate_iface_invariant (n : text) (st st' : ifaces) :
  enumerate_iface h n st = Return st' →
  enumeration_invariant h st → enumeration_invariant h st'.
Proof.
  unfold enumerate_iface. intros H Hst.
  destruct (readlink h (_CLASS_NET_DIR ++ txt "/" ++ n)) as [link|] eqn:Hlink;
    [|by injection H as <-].
  apply bind_Return_inv in H as (content & Hcontent & H).
  destruct (read_file h _) as [content'|] eqn:Hread; [|done].
  injection Hcontent as ->.
  destruct (startswith (txt "../../devices/virtual") link) eqn:Hvirt; cbn [negb] in H.
  { (* a virtual device *)
    injection H as <-. apply invariant_store; try done.
    - exists link, content. cbn [physical mac pci physfn virtfns].
      rewrite Hvirt. by repeat split.
    - intros p n' Hp. by left.
    - intros p (link' & target & Hl' & Hv' & _). congruence. }
  apply bind_Return_inv in H as (target & Htarget & H).
  destruct (readlink h ((_CLASS_NET_DIR ++ txt "/" ++ n) ++ txt "/device"))
    as [target'|] eqn:Hdev; [|done].
  injection Htarget as ->.
  assert (∀ p, is_Some (dict_get p (pci_id_to_iface st)) →
               is_Some (dict_get p (dict_set (after_last_slash target) n
                                      (pci_id_to_iface st)))) as Hgrow.
  { intros p. apply dict_get_set_is_Some. }
  assert (∀ p n', dict_get p (dict_set (after_last_slash target) n (pci_id_to_iface st))
                  = Some n' →
                  dict_get p (pci_id_to_iface st) = Some n'
                  ∨ (n' = n ∧ device_pci h n p)) as Hnew.
  { intros p n' Hp.
    destruct (decide (after_last_slash target = p)) as [<-|Hne].
    - rewrite dict_get_set_eq in Hp. injection Hp as <-. right. split; [done|].
      by exists link, target.
    - rewrite dict_get_set_ne in Hp by done. by left. }
  assert (∀ p, device_pci h n p → p = after_last_slash target) as Hdevp.
  { intros p (link' & target' & Hl' & _ & Ht' & ->). congruence. }
  destruct (readlink h (((_CLASS_NET_DIR ++ txt "/" ++ n) ++ txt "/device") ++ txt "/physfn"))
    as [pf|] eqn:Hpf.
  { (* a virtual function *)
    injection H as <-. apply invariant_store; try done.
    - exists link, content. cbn [physical mac pci physfn virtfns].
      rewrite Hvirt. cbn [negb]. split; [done|]. split; [done|].
      split; [done|]. split; [done|]. exists target. by rewrite Hpf.
    - cbn [pci]. intros p [= <-]. rewrite dict_get_set_eq. by eexists.
    - intros p Hp. cbn [physical pci]. by rewrite (Hdevp p Hp). }
  (* a physical function *)
  apply bind_Return_inv in H as (dirs & _ & H).
  apply bind_Return_inv in H as (vi & Hvi & H).
  apply bind_Return_inv in H as (out & _ & H).
  rewrite scrape_vf_macs_bytes in H. injection H as <-.
  apply invariant_store; try done.
  - exists link, content. cbn [physical mac pci physfn virtfns].
    rewrite Hvirt. cbn [negb]. split; [done|]. split; [done|].
    split; [done|]. split; [done|]. exists target. rewrite Hpf.
    split; [done|]. split; [done|]. split; [done|]. by eexists.
  - cbn [pci]. intros p [= <-]. rewrite dict_get_set_eq. by eexists.
  - intros p Hp. cbn [physical pci]. by rewrite (Hdevp p Hp).
Qed.

Lemma enumerate_ifaces_invariant (names : list text) (st st' : ifaces) :
  enumerate_ifaces h names st = Return st' →
  enumeration_invariant h st → enumeration_invariant h st'.
Proof.
  revert st. induction names as [|n names IH]; intros st; simpl.
  - by intros [= <-].
  - intros H Hst. apply bind_Return_inv in H as (st1 & H1 & H).
    apply (IH _ H). by eapply enumerate_iface_invariant.
Qed.

Lemma invariant_empty : enumeration_invariant h (Ifaces [] []).
Proof. split; [constructor|]. split; [done|constructor]. Qed.

(** The reconciliation changes nothing but the MAC addresses of the
    virtual functions. *)
Lemma reconcile_fields (st : ifaces) (info : iface_info) :
  physical (reconcile st info) = physical info
  ∧ mac (reconcile st info) = mac info
  ∧ pci (reconcile st info) = pci info
  ∧ physfn (reconcile st info) = physfn info
  ∧ (virtfns (reconcile st info) = None ↔ virtfns info = None)
  ∧ (∀ vfs, virtfns (reconcile st info) = Some vfs →
       ∃ vfs0, virtfns info = Some vfs0
               ∧ (physical info = true → vfs = reconcile_vf st <$> vfs0)).
Proof.
  unfold reconcile. destruct info as [ph m p pf [vfs0|]]; destruct ph; simpl.
  - repeat split; try done. intros vfs [= <-]. by exists vfs0.
  - repeat split; try done. intros vfs [= <-]. by exists vfs0.
  - repeat split; done.
  - repeat split; done.
Qed.

Lemma sysfs_record_reconcile (st : ifaces) (n : text) (info : iface_info) :
  sysfs_record h n info → sysfs_record h n (reconcile st info).
Proof.
  destruct (reconcile_fields st info) as (Hph & Hmac & Hpci & Hpf & Hnone & _).
  intros (link & content & Hl & Hc & Hp & Hm & Hrest).
  exists link, content. rewrite Hph, Hmac, Hpci, Hpf.
  split; [done|]. split; [done|]. split; [done|]. split; [done|].
  destruct (physical info).
  - destruct Hrest as (target & Ht & Hpci' & Hfn). exists target.
    split; [done|]. split; [done|].
    destruct (readlink h (_ ++ txt "/physfn")) as [pf|].
    + destruct Hfn as [? Hv]. split; [done|]. by apply Hnone.
    + destruct Hfn as [? Hv]. split; [done|].
      destruct (virtfns (reconcile st info)) as [?|]; [by eexists|].
      rewrite (proj1 Hnone eq_refl) in Hv. by destruct Hv.
  - destruct Hrest as (? & ? & Hv). split; [done|]. split; [done|]. by apply Hnone.
Qed.

Lemma sysfs_record_well_shaped (n : text) (info : iface_info) :
  sysfs_record h n info → well_shaped info.
Proof.
  intros (link & content & _ & _ & _ & _ & Hrest). unfold well_shaped.
  destruct (physical info); [|done].
  destruct Hrest as (target & _ & Hpci & Hfn). split; [by eexists|].
  destruct (readlink h (_ ++ txt "/physfn")) as [pf|]; destruct Hfn as [Hpf Hv].
  - split; [done|]. by eexists.
  - split.
    + rewrite Hpf. by intros [? ?].
    + intros Hnone. rewrite Hnone in Hv. by destruct Hv.
Qed.

Lemma enumerate_iface_keys (n : text) (st st' : ifaces) :
  enumerate_iface h n st = Return st' →
  (∀ k, k ∈ map fst (ret st') ↔
        (k = n ∧ is_Some (readlink h (_CLASS_NET_DIR ++ txt "/" ++ n)))
        ∨ k ∈ map fst (ret st))
  ∧ (NoDup (map fst (ret st)) → NoDup (map fst (ret st'))).
Proof.
  unfold enumerate_iface. intros H.
  destruct (readlink h (_CLASS_NET_DIR ++ txt "/" ++ n)) as [link|] eqn:Hlink.
  - assert (∀ info p2i, st' = Ifaces (dict_set n info (ret st)) p2i →
            (∀ k, k ∈ map fst (ret st') ↔
                  (k = n ∧ is_Some (Some link)) ∨ k ∈ map fst (ret st))
            ∧ (NoDup (map fst (ret st)) → NoDup (map fst (ret st')))) as Hset.
    { intros info p2i ->. cbn [ret].
      destruct (dict_set_keys n info (ret st)) as [Hk Hn]. split; [|done].
      intros k. rewrite Hk. split; (intros [?|?]; [left|by right]).
      - split; [done|by eexists].
      - tauto. }
    apply bind_Return_inv in H as (content & _ & H).
    destruct (negb (negb _)); [injection H as <-; by eapply Hset|].
    apply bind_Return_inv in H as (target & _ & H).
    destruct (readlink h (_ ++ txt "/physfn")) as [pf|];
      [injection H as <-; by eapply Hset|].
    apply bind_Return_inv in H as (dirs & _ & H).
    apply bind_Return_inv in H as (vi & _ & H).
    apply bind_Return_inv in H as (out & _ & H).
    apply bind_Return_inv in H as (vi' & _ & H).
    injection H as <-. by eapply Hset.
  - injection H as <-. split; [|done]. intros k. split; [by right|].
    intros [[_ [? ?]]|?]; done.
Qed.

Lemma enumerate_ifaces_keys (names : list text) (st st' : ifaces) :
  enumerate_ifaces h names st = Return st' →
  (∀ k, k ∈ map fst (ret st') ↔
        (k ∈ names ∧ is_Some (readlink h (_CLASS_NET_DIR ++ txt "/" ++ k)))
        ∨ k ∈ map fst (ret st))
  ∧ (NoDup (map fst (ret st)) → NoDup (map fst (ret st'))).
Proof.
  revert st. induction names as [|n names IH]; intros st; simpl.
  - intros [= <-]. split; [|done]. intros k. rewrite elem_of_nil. tauto.
  - intros H. apply bind_Return_inv in H as (st1 & H1 & H).
    destruct (IH _ H) as [IHk IHn].
    destruct (enumerate_iface_keys _ _ _ H1) as [Hk Hn]. split.
    + intros k. rewrite IHk, Hk, elem_of_cons. split.
      * intros [[? ?]|[[-> ?]|?]]; [left|left|by right]; split; auto.
      * intros [[[->|?] ?]|?]; [right; left|left|right; right]; auto.
    + intros Hnd. by apply IHn, Hn.
Qed.

Lemma reconciled_keys (st : ifaces) :
  map fst (map (fun kv : text * iface_info => (kv.1, reconcile st kv.2)) (ret st))
  = map fst (ret st).
Proof. rewrite map_map. by apply map_ext. Qed.

Lemma scan_virtfns_table (dev : text) (dirs : list text) (acc m : gmap Z vf_info) :
  scan_virtfns h dev dirs acc = Return m →
  (∀ k v, m !! k = Some v →
          acc !! k = Some v
          ∨ ∃ d target, d ∈ dirs
              ∧ startswith (txt "virtfn") d = true
              ∧ py_int (drop 6 d) = Return k
              ∧ readlink h (dev ++ txt "/" ++ d) = Some target
              ∧ v = VfInfo (drop 3 target) None)
  ∧ (∀ k, is_Some (acc !! k) → is_Some (m !! k))
  ∧ (∀ d, d ∈ dirs → startswith (txt "virtfn") d = true →
          ∃ k, py_int (drop 6 d) = Return k ∧ is_Some (m !! k)).
Proof.
  revert acc. induction dirs as [|d dirs IH]; intros acc; cbn [scan_virtfns].
  - intros [= <-]. split; [by left|]. split; [done|].
    intros d Hd. by apply elem_of_nil in Hd.
  - destruct (startswith (txt "virtfn") d) eqn:Hstart; cbn [negb].
    + intros H.
      apply bind_Return_inv in H as (target & Htarget & H).
      destruct (readlink h (dev ++ txt "/" ++ d)) as [target'|] eqn:Hlink; [|done].
      injection Htarget as ->.
      apply bind_Return_inv in H as (k0 & Hk0 & H).
      destruct (IH _ H) as (Hfrom & Hkeep & Hall). split; [|split].
      * intros k v Hk. destruct (Hfrom k v Hk) as [Hacc|(d' & t' & Hd' & ?)].
        -- destruct (decide (k0 = k)) as [<-|Hne].
           ++ rewrite lookup_insert_eq in Hacc. injection Hacc as <-.
              right. exists d, target. split; [by left|done].
           ++ rewrite lookup_insert_ne in Hacc by done. by left.
        -- right. exists d', t'. split; [by right|done].
      * intros k Hk. apply Hkeep.
        destruct (decide (k0 = k)) as [<-|Hne].
        -- rewrite lookup_insert_eq. by eexists.
        -- by rewrite lookup_insert_ne.
      * intros d' Hd' Hs'. apply elem_of_cons in Hd' as [->|Hd'].
        -- exists k0. split; [done|]. apply Hkeep. rewrite lookup_insert_eq. by eexists.
        -- by apply Hall.
    + intros H. destruct (IH _ H) as (Hfrom & Hkeep & Hall). split; [|split].
      * intros k v Hk. destruct (Hfrom k v Hk) as [?|(d' & t' & Hd' & ?)]; [by left|].
        right. exists d', t'. split; [by right|done].
      * done.
      * intros d' Hd' Hs'. apply elem_of_cons in Hd' as [->|Hd']; [congruence|].
        by apply Hall.
Qed.

End EnumeratorMore.

(** X13.  Every record [get_interfaces] returns is what sysfs says
    about its interface: the link of the entry decides ['physical'],
    the [address] file, stripped and in lowercase, is the ['mac'], a
    physical interface has the last component of its [device] link as
    ['pci'] and exactly one of ['physfn'] and ['virtfns'], and a virtual
    one has none of the three. *)
Theorem interface_records (h : host) (ifs : list (text * iface_info))
    (n : text) (info : iface_info) :
  get_interfaces h = Return ifs →
  (n, info) ∈ ifs →
  sysfs_record h n info ∧ well_shaped info.
Proof.
  unfold get_interfaces. intros H Hn.
  apply bind_Return_inv in H as (names & _ & H).
  apply bind_Return_inv in H as (st & Hst & H). injection H as <-.
  destruct (enumerate_ifaces_invariant h _ _ _ Hst (invariant_empty h)) as (Hrec & _).
  rewrite Forall_forall in Hrec.
  apply list_elem_of_fmap in Hn as ([n0 info0] & [= -> ->] & Hn0).
  pose proof (sysfs_record_reconcile h st _ _ (Hrec _ Hn0)) as Hr.
  split; [done|]. by eapply sysfs_record_well_shaped.
Qed.

Lemma interface_records_witness :
  Forall (fun kv => sysfs_record vf_pair_host kv.1 kv.2 ∧ well_shaped kv.2)
         (interfaces_of vf_pair_host).
Proof.
  apply Forall_forall. intros [n info] Hn.
  exact (interface_records vf_pair_host (interfaces_of vf_pair_host) n info
           ltac:(by vm_compute) Hn).
Defined.

(** X14.  The interfaces [get_interfaces] returns are the entries of
    [/sys/class/net] that are symbolic links, each one once: an entry
    whose link cannot be read is passed over. *)
Theorem interface_names (h : host) (ifs : list (text * iface_info)) :
  get_interfaces h = Return ifs →
  NoDup (map fst ifs)
  ∧ ∃ names, listdir h _CLASS_NET_DIR = Some names
      ∧ ∀ n, n ∈ map fst ifs ↔
             n ∈ names ∧ is_Some (readlink h (_CLASS_NET_DIR ++ txt "/" ++ n)).
Proof.
  unfold get_interfaces. intros H.
  apply bind_Return_inv in H as (names & Hnames & H).
  destruct (listdir h _CLASS_NET_DIR) as [names'|]; [|done]. injection Hnames as ->.
  apply bind_Return_inv in H as (st & Hst & H). injection H as <-.
  destruct (enumerate_ifaces_keys h _ _ _ Hst) as [Hk Hnd].
  rewrite reconciled_keys. split; [apply Hnd, NoDup_nil_2|].
  exists names. split; [done|]. intros n. rewrite Hk. cbn [ret map].
  rewrite elem_of_nil. tauto.
Qed.

Lemma interface_names_witness :
  map fst (interfaces_of vf_pair_host) = [txt "eth0"; txt "eth1"; txt "lo"]
  ∧ NoDup (map fst (interfaces_of vf_pair_host)).
Proof.
  split; [by vm_compute|].
  exact (proj1 (interface_names vf_pair_host (interfaces_of vf_pair_host)
                  ltac:(by vm_compute))).
Defined.

(** X15.  In what [get_interfaces] returns, a virtual function has a
    MAC address exactly when one of the returned interfaces has the PCI
    id of the virtual function as its ['pci'], and the address is then
    the ['mac'] of such an interface. *)
Theorem vf_mac_from_interface (h : host) (ifs : list (text * iface_info))
    (n : text) (info : iface_info) (vfs : gmap Z vf_info) (k : Z) (v : vf_info) :
  get_interfaces h = Return ifs →
  (n, info) ∈ ifs →
  virtfns info = Some vfs →
  vfs !! k = Some v →
  match vf_mac v with
  | Some m => ∃ n' info', (n', info') ∈ ifs
                          ∧ pci info' = Some (vf_pci_id v) ∧ mac info' = m
  | None => ∀ n' info', (n', info') ∈ ifs → pci info' ≠ Some (vf_pci_id v)
  end.
Proof.
  unfold get_interfaces. intros H Hn Hvfs Hk.
  apply bind_Return_inv in H as (names & _ & H).
  apply bind_Return_inv in H as (st & Hst & H). injection H as <-.
  destruct (enumerate_ifaces_invariant h _ _ _ Hst (invariant_empty h))
    as (Hrec & Hmap & Hpci).
  pose proof (enumerate_ifaces_enumerated h _ _ _ Hst (Forall_nil_2 _)) as Henum.
  rewrite Forall_forall in Hrec, Hpci, Henum.
  apply list_elem_of_fmap in Hn as ([n0 info0] & [= -> ->] & Hn0).
  cbn [fst snd] in *.
  destruct (reconcile_fields st info0) as (_ & _ & _ & _ & _ & Hvf).
  destruct (Hvf vfs Hvfs) as (vfs0 & Hvfs0 & Hmapped).
  assert (physical info0 = true) as Hphys.
  { destruct (Hrec _ Hn0) as (? & ? & _ & _ & _ & _ & Hrest). cbn [fst snd] in Hrest.
    destruct (physical info0); [done|]. destruct Hrest as (_ & _ & Hnone). congruence. }
  rewrite (Hmapped Hphys), lookup_fmap in Hk.
  destruct (vfs0 !! k) as [v0|] eqn:Hk0; [|done]. injection Hk as <-.
  pose proof (proj2 (Henum _ Hn0) vfs0 k v0 Hvfs0 Hk0) as Hnomac.
  unfold reconcile_vf.
  destruct (dict_get (vf_pci_id v0) (pci_id_to_iface st)) as [n'|] eqn:Hp2i.
  - destruct (Hmap _ _ Hp2i) as [(link & target & Hl & Hv & Ht & Hp) [info' Hinfo']].
    rewrite Hinfo'. cbn [vf_mac vf_pci_id].
    exists n', (reconcile st info').
    destruct (reconcile_fields st info') as (_ & Hmac & Hpci' & _).
    apply dict_get_elem in Hinfo'. split; [|split; [|done]].
    + apply list_elem_of_fmap. by exists (n', info').
    + rewrite Hpci'.
      destruct (Hrec _ Hinfo') as (link' & ? & Hl' & _ & Hph' & _ & Hrest).
      cbn [fst snd] in *. rewrite Hl in Hl'. injection Hl' as <-.
      rewrite Hv in Hph'. cbn [negb] in Hph'. rewrite Hph' in Hrest.
      destruct Hrest as (target' & Ht' & -> & _). congruence.
  - rewrite Hnomac. intros n' info' Hin Hpci'.
    apply list_elem_of_fmap in Hin as ([n1 info1] & [= -> ->] & Hn1).
    cbn [fst snd] in *.
    destruct (reconcile_fields st info1) as (_ & _ & Hp1 & _).
    rewrite Hp1 in Hpci'. destruct (Hpci _ Hn1 _ Hpci') as [? Hsome]. congruence.
Qed.

Lemma vf_mac_from_interface_witness :
  ∃ n' info', (n', info') ∈ interfaces_of vf_pair_host
              ∧ pci info' = Some (txt "0000:00:03.1")
              ∧ mac info' = txt "02:00:17:0a:0b:0d".
Proof.
  exact (vf_mac_from_interface vf_pair_host (interfaces_of vf_pair_host)
           (txt "eth0")
           (IfaceInfo true (txt "02:00:17:0a:0b:0c") (Some (txt "0000:00:03.0")) None
              (Some {[ 0 := VfInfo (txt "0000:00:03.1") (Some (txt "02:00:17:0a:0b:0d")) ]}))
           {[ 0 := VfInfo (txt "0000:00:03.1") (Some (txt "02:00:17:0a:0b:0d")) ]}
           0 (VfInfo (txt "0000:00:03.1") (Some (txt "02:00:17:0a:0b:0d")))
           ltac:(by vm_compute) ltac:(vm_compute; by left) eq_refl ltac:(by vm_compute)).
Defined.

(** X16.  The table of virtual functions is read from the entries of
    the device directory whose name starts with [virtfn]: every such
    entry gives a key, the integer that follows these six letters, and
    every key comes from such an entry, with what follows the first
    three characters of the entry's link as PCI id and no MAC address;
    other entries are passed over. *)
Theorem virtfn_table (h : host) (dev : text) (dirs : list text) (m : gmap Z vf_info) :
  scan_virtfns h dev dirs ∅ = Return m →
  (∀ k v, m !! k = Some v →
          ∃ d target, d ∈ dirs
            ∧ startswith (txt "virtfn") d = true
            ∧ py_int (drop 6 d) = Return k
            ∧ readlink h (dev ++ txt "/" ++ d) = Some target
            ∧ v = VfInfo (drop 3 target) None)
  ∧ (∀ d, d ∈ dirs → startswith (txt "virtfn") d = true →
          ∃ k, py_int (drop 6 d) = Return k ∧ is_Some (m !! k)).
Proof.
  intros H. destruct (scan_virtfns_table h _ _ _ _ H) as (Hfrom & _ & Hall).
  split; [|done]. intros k v Hk. by destruct (Hfrom k v Hk) as [?|?].
Qed.

Lemma virtfn_table_witness :
  ∃ d target, d ∈ [txt "driver"; txt "virtfn0"]
    ∧ startswith (txt "virtfn") d = true
    ∧ py_int (drop 6 d) = Return 0
    ∧ readlink sriov_host (txt "/sys/class/net/eth0/device" ++ txt "/" ++ d) = Some target
    ∧ VfInfo (txt "0000:00:03.1") None = VfInfo (drop 3 target) None.
Proof.
  exact (proj1 (virtfn_table sriov_host (txt "/sys/class/net/eth0/device")
                  [txt "driver"; txt "virtfn0"]
                  {[ 0 := VfInfo (txt "0000:00:03.1") None ]} ltac:(by vm_compute))
           0 (VfInfo (txt "0000:00:03.1") None) ltac:(by vm_compute)).
Defined.

(** ** The NetworkManager exclusion files *)

Section ExclusionFiles.

Lemma upper_char_colon (c : ascii) : upper_char c = COLON → c = COLON.
Proof.
  destruct c as [[] [] [] [] [] [] [] []]; vm_compute; intros H;
    first [reflexivity | discriminate H].
Qed.

Lemma upper_char_underscore (c : ascii) : upper_char c = UNDERSCORE → c = UNDERSCORE.
Proof.
  destruct c as [[] [] [] [] [] [] [] []]; vm_compute; intros H;
    first [reflexivity | discriminate H].
Qed.


Lemma upper_char_idem (c : ascii) : upper_char (upper_char c) = upper_char c.
Proof. by destruct c as [[] [] [] [] [] [] [] []]. Qed.

(** Replacing the colons and mapping to upper case commute. *)
Lemma upper_replace_char (c : ascii) :
  upper_char (if bool_decide (c = COLON) then UNDERSCORE else c)
  = (if bool_decide (upper_char c = COLON) then UNDERSCORE else upper_char c).
Proof.
  case_bool_decide as Hc.
  - subst c. by vm_compute.
  - rewrite bool_decide_eq_false_2; [done|]. intros H. by apply upper_char_colon in H.
Qed.

Lemma nm_conf_stem_upper (mac : text) :
  py_upper (py_replace_char COLON UNDERSCORE mac)
  = py_replace_char COLON UNDERSCORE (py_upper mac).
Proof.
  unfold py_upper, py_replace_char. rewrite !map_map.
  apply map_ext. intros c. apply upper_replace_char.
Qed.

Lemma nm_conf_stem_inj (m1 m2 : text) :
  UNDERSCORE ∉ m1 → UNDERSCORE ∉ m2 →
  py_upper (py_replace_char COLON UNDERSCORE m1)
  = py_upper (py_replace_char COLON UNDERSCORE m2) →
  py_upper m1 = py_upper m2.
Proof.
  revert m2. induction m1 as [|c1 m1 IH]; intros [|c2 m2] H1 H2; try done.
  unfold py_upper, py_replace_char. cbn [map]. intros [= Hc Hrest].
  assert (c1 ≠ UNDERSCORE) as Hu1 by (intros ->; apply H1; left).
  assert (c2 ≠ UNDERSCORE) as Hu2 by (intros ->; apply H2; left).
  f_equal.
  - revert Hc. case_bool_decide as E1; case_bool_decide as E2; subst.
    + done.
    + intros Hc. symmetry in Hc. by apply upper_char_underscore in Hc.
    + intros Hc. by apply upper_char_underscore in Hc.
    + done.
  - apply IH; [| |done].
    + intros ?. apply H1. by right.
    + intros ?. apply H2. by right.
Qed.


Lemma create_dir_run (path : text) (w : nm_world) :
  create_dir path w =
    (rc (upcoming (nm_files w) 0),
     NmWorld (World (files (nm_files w)) (drop 1 (pending (nm_files w)))
                    (journal (nm_files w)))
             (if rc (upcoming (nm_files w) 0) =? 0 then path :: nm_dirs w
              else nm_dirs w)).
Proof.
  unfold create_dir. rewrite next_attempt_upcoming.
  destruct (rc (upcoming (nm_files w) 0) =? 0) eqn:E; [|done].
  apply Z.eqb_eq in E. by rewrite E.
Qed.

Lemma create_file_run (path : text) (w : nm_world) :
  create_file path w =
    (rc (upcoming (nm_files w) 0),
     NmWorld (World (if rc (upcoming (nm_files w) 0) =? 0
                     then <[path_of path :=
                              default [] (files (nm_files w) !! path_of path)]>
                            (files (nm_files w))
                     else leave (path_of path) (residue (upcoming (nm_files w) 0))
                            (files (nm_files w)))
                    (drop 1 (pending (nm_files w)))
                    (journal (nm_files w)))
             (nm_dirs w)).
Proof.
  unfold create_file. rewrite next_attempt_upcoming.
  destruct (rc (upcoming (nm_files w) 0) =? 0) eqn:E; [|done].
  apply Z.eqb_eq in E. by rewrite E.
Qed.

(** What a call of [remove_mac_from_nm] that returns leaves behind. *)
Lemma remove_mac_from_nm_returns (mac : text) (w w' : nm_world) :
  remove_mac_from_nm mac w = (None, w') →
  let _cf := path_of (os_path_join _NM_CONF_DIR (_compute_nm_conf_filename mac)) in
  let write := upcoming (nm_files w) (if path_exists _NM_CONF_DIR w then 1 else 2) in
  mac ≠ []
  ∧ files (nm_files w') !! _cf
    = (if rc write =? 0 then Some (nm_conf_text mac) else residue write)
  ∧ (∀ p, p ≠ _cf → files (nm_files w') !! p = files (nm_files w) !! p).
Proof.
  unfold remove_mac_from_nm. case_bool_decide as Hmac; [done|].
  intros H. cbv zeta. split; [done|].
  set (_cf := os_path_join _NM_CONF_DIR (_compute_nm_conf_filename mac)) in *.
  destruct (path_exists _NM_CONF_DIR w) eqn:Hdir; cbn [negb] in H.
  - rewrite create_file_run in H.
    destruct (rc (upcoming (nm_files w) 0) =? 0) eqn:E0; [|done]. cbn [negb] in H.
    unfold on_files in H. cbn [nm_files nm_dirs] in H.
    rewrite write_to_file_run in H. injection H as <-. cbn [nm_files files].
    rewrite upcoming_drop. cbn [Nat.add]. split.
    + destruct (rc (upcoming (nm_files w) 1) =? 0).
      * by rewrite lookup_insert_eq.
      * by rewrite leave_lookup_eq.
    + intros p Hp. destruct (rc (upcoming (nm_files w) 1) =? 0).
      * by rewrite !lookup_insert_ne.
      * by rewrite leave_lookup_ne, lookup_insert_ne.
  - rewrite create_dir_run in H.
    case_bool_decide as E0; [|done]. cbn [negb] in H.
    rewrite create_file_run in H. cbn [nm_files nm_dirs files pending journal] in H.
    rewrite upcoming_drop in H. cbn [Nat.add] in H.
    destruct (rc (upcoming (nm_files w) 1) =? 0) eqn:E1; [|done]. cbn [negb] in H.
    unfold on_files in H. cbn [nm_files nm_dirs] in H.
    rewrite write_to_file_run in H. injection H as <-. cbn [nm_files files pending].
    rewrite drop_drop, upcoming_drop. cbn [Nat.add]. split.
    + destruct (rc (upcoming (nm_files w) 2) =? 0).
      * by rewrite lookup_insert_eq.
      * by rewrite leave_lookup_eq.
    + intros p Hp. destruct (rc (upcoming (nm_files w) 2) =? 0).
      * by rewrite !lookup_insert_ne.
      * by rewrite leave_lookup_ne, lookup_insert_ne.
Qed.

End ExclusionFiles.

(** X17.  The exclusion file of a MAC address is named after the
    address in upper case with underscores for the colons, followed
    by [.conf]: the stem is as long as the address and holds neither a
    lowercase letter nor a colon.  Addresses that differ only in case
    have the same file, and two addresses without underscore that have
    the same file differ only in case. *)
Theorem nm_conf_filename_spec (m1 m2 : text) :
  (∃ stem, _compute_nm_conf_filename m1 = stem ++ txt ".conf"
           ∧ length stem = length m1
           ∧ uppercase stem
           ∧ COLON ∉ stem)
  ∧ (py_upper m1 = py_upper m2 →
     _compute_nm_conf_filename m1 = _compute_nm_conf_filename m2)
  ∧ (UNDERSCORE ∉ m1 → UNDERSCORE ∉ m2 →
     _compute_nm_conf_filename m1 = _compute_nm_conf_filename m2 →
     py_upper m1 = py_upper m2)
  ∧ _compute_nm_conf_filename (txt "02:00:17:0a:0b:0c") = txt "02_00_17_0A_0B_0C.conf".
Proof.
  split; [|split; [|split; [|by vm_compute]]].
  - eexists. split; [done|]. split; [|split].
    + unfold py_upper, py_replace_char. by rewrite !length_map.
    + apply py_upper_uppercase.
    + rewrite nm_conf_stem_upper. unfold py_replace_char.
      intros H. apply list_elem_of_fmap in H as (c & Hc & _).
      by case_bool_decide.
  - intros H. unfold _compute_nm_conf_filename. by rewrite !nm_conf_stem_upper, H.
  - intros H1 H2 H. unfold _compute_nm_conf_filename in H.
    apply app_inv_tail in H. by apply nm_conf_stem_inj.
Qed.



(** X19.  Excluding an address and including it again leaves the files
    as they were, but for the exclusion file of the address, which is
    gone: after a [remove_mac_from_nm] that returns with its write
    done, [add_mac_to_nm] for the same address, in whatever case,
    deletes the file and touches no other. *)
Theorem nm_exclusion_roundtrip (mac mac' : text) (w w1 : nm_world) :
  remove_mac_from_nm mac w = (None, w1) →
  rc (upcoming (nm_files w) (if path_exists _NM_CONF_DIR w then 1 else 2)) = 0 →
  py_upper mac' = py_upper mac →
  let _cf := path_of (os_path_join _NM_CONF_DIR (_compute_nm_conf_filename mac)) in
  files (nm_files (add_mac_to_nm mac' w1)) !! _cf = None
  ∧ (∀ p, p ≠ _cf →
          files (nm_files (add_mac_to_nm mac' w1)) !! p = files (nm_files w) !! p)
  ∧ journal (nm_files (add_mac_to_nm mac' w1))
    = journal (nm_files w1) ++ [DeleteFile _cf].
Proof.
  intros H Hwrite Hcase.
  destruct (remove_mac_from_nm_returns mac w w1 H) as (Hmac & Hfile & Hframe).
  cbv zeta in *. apply Z.eqb_eq in Hwrite. rewrite Hwrite in Hfile.
  unfold add_mac_to_nm.
  assert (_compute_nm_conf_filename mac' = _compute_nm_conf_filename mac) as ->.
  { unfold _compute_nm_conf_filename. by rewrite !nm_conf_stem_upper, Hcase. }
  assert (path_exists (os_path_join _NM_CONF_DIR (_compute_nm_conf_filename mac)) w1
          = true) as ->.
  { unfold path_exists. rewrite Hfile.
    by rewrite bool_decide_eq_true_2 by (by eexists). }
  unfold on_files. rewrite delete_file_run. cbn [snd nm_files files journal].
  split; [by rewrite lookup_delete_eq|]. split; [|done].
  intros p Hp. rewrite lookup_delete_ne by done. by apply Hframe.
Qed.

Lemma nm_exclusion_roundtrip_witness :
  files (nm_files (add_mac_to_nm (txt "AA:BB")
                     (remove_mac_from_nm (txt "aa:bb") (bare_world [])).2))
    !! "/etc/NetworkManager/conf.d/AA_BB.conf"%string
  = None.
Proof.
  exact (proj1 (nm_exclusion_roundtrip (txt "aa:bb") (txt "AA:BB") (bare_world [])
                  (remove_mac_from_nm (txt "aa:bb") (bare_world [])).2
                  ltac:(by vm_compute) ltac:(by vm_compute) ltac:(by vm_compute))).
Defined.

(** ** The pass-through mutators and the removals *)

Section Mutators.

Lemma split_on_join (cmd : list text) :
  cmd ≠ [] → Forall (fun a => SP ∉ a) cmd → split_on SP (py_join [SP] cmd) = cmd.
Proof.
  induction cmd as [|x cmd IH]; [done|]. intros _ Hall.
  apply Forall_cons in Hall as [Hx Hall]. destruct cmd as [|y cmd].
  - by apply split_on_no_sep.
  - change (py_join [SP] (x :: y :: cmd)) with (x ++ SP :: py_join [SP] (y :: cmd)).
    rewrite split_on_word by done. f_equal. by apply IH.
Qed.

Lemma py_join_no_newline (cmd : list text) :
  Forall (fun a => LF ∉ a) cmd → LF ∉ py_join [SP] cmd.
Proof.
  induction cmd as [|x cmd IH]; intros Hall.
  - apply not_elem_of_nil.
  - apply Forall_cons in Hall as [Hx Hall]. destruct cmd as [|y cmd]; [done|].
    change (py_join [SP] (x :: y :: cmd)) with (x ++ SP :: py_join [SP] (y :: cmd)).
    rewrite elem_of_app, elem_of_cons. intros [?|[?|?]]; [done|done|].
    by apply IH.
Qed.

Lemma record_to_replayable (cmd : list text) (script : option text) :
  cmd ≠ [] → Forall (fun a => (SP ∉ a) ∧ (LF ∉ a)) cmd →
  replayable cmd script (record_to script cmd).
Proof.
  intros Hne Hall buffer ->. exists (py_join [SP] cmd). split; [done|]. split.
  - apply py_join_no_newline. eapply Forall_impl; [exact Hall|]. by intros a [_ ?].
  - apply split_on_join; [done|]. eapply Forall_impl; [exact Hall|]. by intros a [? _].
Qed.

Lemma plain_word (s : string) :
  forallb (fun c => negb (bool_decide (c = SP)) && negb (bool_decide (c = LF))) (txt s)
  = true →
  (SP ∉ txt s) ∧ (LF ∉ txt s).
Proof.
  rewrite forallb_forall. intros H.
  split; intros Hin; apply list_elem_of_In, H in Hin; by vm_compute in Hin.
Qed.

End Mutators.

(** X20.  The three adders report status 1 with the output of the
    command as message, and leave the sink alone, when the command
    prints anything; otherwise they report status 0 with an empty
    message, and a sink, if given, gets one more line.  When no
    argument holds a space or a newline, that line splits at its spaces
    into the very command that was run, base command first. *)
Theorem recorded_command_replays (h : host) (args : list text) (script : option text) :
  Forall (fun a => (SP ∉ a) ∧ (LF ∉ a)) args →
  ∀ add base,
    (add, base) ∈ [ (add_static_ip_route, [txt "/usr/sbin/ip"; txt "route"; txt "add"]);
                    (add_static_ip_rule, [txt "/usr/sbin/ip"; txt "rule"; txt "add"]);
                    (add_firewall_rule, [txt "/usr/sbin/iptables"]) ] →
    match call_output h (base ++ args) with
    | Some (c :: out) => add h args script = ((1, Bytes (c :: out)), script)
    | _ => (add h args script).1 = (0, Str [])
           ∧ replayable (base ++ args) script (add h args script).2
    end.
Proof.
  intros Hargs add base Hin.
  assert (∀ cmd, Forall (fun a => (SP ∉ a) ∧ (LF ∉ a)) cmd → cmd ≠ [] →
          replayable (cmd ++ args) script (record_to script (cmd ++ args))) as Hrec.
  { intros cmd Hcmd Hne. apply record_to_replayable.
    - by destruct cmd.
    - by apply Forall_app. }
  assert (∀ words, Forall (fun s => forallb (fun c => negb (bool_decide (c = SP))
                                                      && negb (bool_decide (c = LF)))
                                            (txt s) = true) words →
          Forall (fun a => (SP ∉ a) ∧ (LF ∉ a)) (map txt words)) as Hplain.
  { intros words. induction 1 as [|s words Hs _ IH]; constructor; [|done].
    by apply plain_word. }
  repeat (apply elem_of_cons in Hin as [[= -> ->]|Hin]);
    [| | |by apply elem_of_nil in Hin].
  - unfold add_static_ip_route.
    destruct (call_output h _) as [[|c out]|]; [|done|];
      (split; [done|]);
      apply (Hrec (map txt ["/usr/sbin/ip"; "route"; "add"]%string));
      (done || (apply Hplain; by repeat constructor)).
  - unfold add_static_ip_rule.
    destruct (call_output h _) as [[|c out]|]; [|done|];
      (split; [done|]);
      apply (Hrec (map txt ["/usr/sbin/ip"; "rule"; "add"]%string));
      (done || (apply Hplain; by repeat constructor)).
  - unfold add_firewall_rule.
    destruct (call_output h _) as [[|c out]|]; [|done|];
      (split; [done|]);
      apply (Hrec (map txt ["/usr/sbin/iptables"]%string));
      (done || (apply Hplain; by repeat constructor)).
Qed.

Lemma recorded_command_replays_witness :
  ∃ line, (add_static_ip_route iptables_fails_host
             [txt "default"; txt "via"; txt "10.0.0.1"] (Some [])).2
          = Some ([] ++ line ++ [LF])
          ∧ (LF ∉ line)
          ∧ split_on SP line
            = [txt "/usr/sbin/ip"; txt "route"; txt "add"]
              ++ [txt "default"; txt "via"; txt "10.0.0.1"].
Proof.
  assert (Forall (fun a => (SP ∉ a) ∧ (LF ∉ a)) [txt "default"; txt "via"; txt "10.0.0.1"])
    as Hargs by (repeat (apply Forall_cons; split; [by apply plain_word|]);
                 apply Forall_nil_2).
  pose proof (recorded_command_replays iptables_fails_host
                [txt "default"; txt "via"; txt "10.0.0.1"] (Some []) Hargs
                add_static_ip_route [txt "/usr/sbin/ip"; txt "route"; txt "add"]
                ltac:(by left)) as H.
  change (call_output iptables_fails_host _) with (Some ([] : text)) in H.
  destruct H as [_ Hreplay]. exact (Hreplay [] eq_refl).
Defined.

Section Removals.

Context (h : host).

Lemma remove_routes_loop_bytes (lines : list text) :
  remove_routes_loop (map Bytes lines) []
  = (if bool_decide (lines = []) then Return () else Raise TypeError, []).
Proof. by destruct lines. Qed.

Lemma remove_rules_loop_bytes (lines : list text) :
  remove_rules_loop (map Bytes lines) []
  = (if bool_decide (lines = []) then Return () else Raise TypeError, []).
Proof. by destruct lines. Qed.

Lemma listing_bytes (cmd : list text) :
  ∃ lines, listing h cmd = map Bytes lines
           ∧ lines = match check_output h cmd with
                     | Some out => bytes_splitlines out
                     | None => []
                     end.
Proof.
  unfold listing.
  destruct (check_output h cmd) as [out|]; [by exists (bytes_splitlines out)|by exists []].
Qed.

Lemma rule_matches_str (s : text) (lines : list text) :
  rule_matches (Str s) (map Bytes lines) = [].
Proof.
  induction lines as [|l lines IH]; [done|]. unfold rule_matches in *. cbn [map List.filter].
  rewrite bool_decide_eq_false_2; [done|].
  cbn [pystring_split]. intros H. by apply list_elem_of_fmap in H as (? & ? & _).
Qed.

Lemma rule_matches_bytes (b : text) (lines : list text) :
  rule_matches (Bytes b) (map Bytes lines)
  = map Bytes (List.filter (fun line => bool_decide (b ∈ bytes_split line)) lines).
Proof.
  induction lines as [|l lines IH]; [done|]. unfold rule_matches in *.
  cbn [map List.filter pystring_split]. rewrite IH.
  assert (bool_decide (Bytes b ∈ map Bytes (bytes_split l))
          = bool_decide (b ∈ bytes_split l)) as ->; [|by destruct (bool_decide _)].
  apply bool_decide_ext. rewrite list_elem_of_fmap. split.
  - by intros (x & [= ->] & ?).
  - intros ?. by exists b.
Qed.

Lemma prio_nums_bytes (lines : list text) :
  Forall (fun line => bytes_split line ≠ []) lines →
  prio_nums (map Bytes lines)
  = Return (map (fun line => Bytes (removelast (hd [] (bytes_split line)))) lines).
Proof.
  induction 1 as [|l lines Hl _ IH]; [done|]. cbn [map prio_nums pystring_split].
  rewrite IH. by destruct (bytes_split l).
Qed.

End Removals.

(** X21.  The listings being made of bytes objects, the removal of the
    static routes and that of the static rules of a device stop at the
    first line of their listing with a [TypeError], raised by the split
    of the line, before any deletion command is issued; they return
    only when the listing is empty or its command fails. *)
Theorem static_removals_stop_at_first_line (h : host) (link_name : text) :
  remove_static_ip_routes h link_name
  = (if bool_decide
          (listing h [txt "/sbin/ip"; txt "route"; txt "show"; txt "dev"; link_name] = [])
     then Return () else Raise TypeError, [])
  ∧ remove_static_ip_rules h link_name
    = (if bool_decide
            (listing h [txt "/sbin/ip"; txt "rule"; txt "show"; txt "lookup"; link_name] = [])
       then Return () else Raise TypeError, [])
  ∧ remove_static_ip_routes rules_host (txt "ens3") = (Raise TypeError, []).
Proof.
  split; [|split; [|by vm_compute]].
  - unfold remove_static_ip_routes.
    destruct (listing_bytes h [txt "/sbin/ip"; txt "route"; txt "show"; txt "dev"; link_name])
      as (lines & -> & _).
    rewrite remove_routes_loop_bytes. by destruct lines.
  - unfold remove_static_ip_rules.
    destruct (listing_bytes h [txt "/sbin/ip"; txt "rule"; txt "show"; txt "lookup"; link_name])
      as (lines & -> & _).
    rewrite remove_rules_loop_bytes. by destruct lines.
Qed.

(** X22.  [remove_ip_addr_rules] never raises.  Given the address as a
    string, it issues no deletion at all: no token of a line of bytes
    is equal to a string.  Given the address as bytes, it issues one
    deletion for every line of the rule listing that has the address
    among its whitespace-separated tokens, in the order of the listing,
    with the first token of the line less its last character as
    priority. *)
Theorem remove_ip_addr_rules_matches (h : host) :
  let lines := match check_output h [txt "/sbin/ip"; txt "rule"; txt "list"] with
               | Some out => bytes_splitlines out
               | None => []
               end in
  (∀ s, remove_ip_addr_rules h (Str s) = (Return (), []))
  ∧ (∀ b, remove_ip_addr_rules h (Bytes b)
          = (Return (),
             map (fun line => [txt "/sbin/ip"; txt "rule"; txt "del"; txt "pref";
                               removelast (hd [] (bytes_split line))])
                 (List.filter (fun line => bool_decide (b ∈ bytes_split line)) lines)))
  ∧ remove_ip_addr_rules rules_host (Bytes (txt "10.0.0.5"))
    = (Return (), [[txt "/sbin/ip"; txt "rule"; txt "del"; txt "pref"; txt "32765"]]).
Proof.
  intros lines. unfold remove_ip_addr_rules.
  destruct (listing_bytes h [txt "/sbin/ip"; txt "rule"; txt "list"]) as (ls & -> & Hls).
  fold lines in Hls. subst ls. split; [|split; [|by vm_compute]].
  - intros s. by rewrite rule_matches_str.
  - intros b. rewrite rule_matches_bytes, prio_nums_bytes.
    + by rewrite map_map.
    + apply Forall_forall. intros l Hl%list_elem_of_In%filter_In.
      destruct Hl as [_ Hl]. apply bool_decide_eq_true in Hl.
      intros Hnil. rewrite Hnil in Hl. by apply elem_of_nil in Hl.
Qed.
